(** * Capacity resolution of [max.pipelines.registry]

    A shallow embedding of the memory-budgeting part of
    [src/max/pipelines/registry.py]: [_estimate_memory_footprint],
    [_raise_oom_error], the two binary searches [_find_valid_max_length] and
    [_find_valid_batch_size], and the composer of the out-of-memory message.

    Python integers are unbounded, so they are [Z]; [//] is floor division,
    which is [Z.div] for the positive divisor used here.  Python floats are
    IEEE binary64 values, modelled by [spec_float] with the operations of
    [SpecFloat] at precision 53.  The [pipeline_config] object is mutated in
    place by the code and read by the architecture's cost functions, so it
    lives in the state of a small state-and-exception monad, next to a trace
    of the calls and log records the code makes. *)

From Stdlib Require Import ZArith List String Bool Lia.
From Stdlib Require Import DecimalString.
From Stdlib Require Import Floats.SpecFloat.
Import ListNotations.
Open Scope string_scope.
Open Scope list_scope.
Open Scope Z_scope.

(** ** Data model *)

(** A device, as far as this code looks at it: [d.stats["free_memory"]] either
    raises (with the text [str(e)] of the exception) or yields a byte count. *)
Record Device := { free_memory_stat : string + Z }.

(** The fields of [PipelineConfig] that the memory estimation reads or
    writes.  [None] is Python's [None]: the value was not given. *)
Record PipelineConfig := {
  max_length : option Z;
  max_batch_size : option Z;
  device_memory_utilization : spec_float;
  devices : list Device;
  _available_cache_memory : option Z
}.

Definition set_max_length (v : option Z) (c : PipelineConfig) : PipelineConfig :=
  {| max_length := v;
     max_batch_size := max_batch_size c;
     device_memory_utilization := device_memory_utilization c;
     devices := devices c;
     _available_cache_memory := _available_cache_memory c |}.

Definition set_max_batch_size (v : option Z) (c : PipelineConfig) : PipelineConfig :=
  {| max_length := max_length c;
     max_batch_size := v;
     device_memory_utilization := device_memory_utilization c;
     devices := devices c;
     _available_cache_memory := _available_cache_memory c |}.

Definition set_available_cache_memory (v : option Z) (c : PipelineConfig)
  : PipelineConfig :=
  {| max_length := max_length c;
     max_batch_size := max_batch_size c;
     device_memory_utilization := device_memory_utilization c;
     devices := devices c;
     _available_cache_memory := v |}.

(** The class methods of [arch.pipeline_model] that the registry calls.  They
    receive the configuration object as it is at the time of the call.
    [is_KVCacheMixin] is [issubclass(model_cls, KVCacheMixin)]. *)
Record PipelineModel := {
  calculate_max_seq_len : PipelineConfig -> Z;
  estimate_weights_size : PipelineConfig -> Z;
  infer_optimal_batch_size : PipelineConfig -> Z -> Z;
  estimate_kv_cache_size : PipelineConfig -> Z -> list Device -> Z;
  is_KVCacheMixin : bool
}.

(** ** Effects *)

Inductive Exn :=
| RuntimeError (msg : string)
| AssertionError
| TypeError
| OverflowError
| ValueError
| UnboundLocalError (name : string).

(** What the code does that an observer can see: the records it logs and the
    calls it makes into the architecture and into its own searches, each with
    the configuration object as it is at that moment. *)
Inductive Event :=
| LogWarning (msg : string)
| LogInfo (msg : string)
| CalcMaxSeqLen (c : PipelineConfig)
| EstimateWeights (c : PipelineConfig)
| InferBatchSize (c : PipelineConfig) (available : Z)
| CalcKvCache (c : PipelineConfig) (available : Z)
| FindValidMaxLength (c : PipelineConfig) (available : Z)
| FindValidBatchSize (c : PipelineConfig) (available : Z).

Record State := { config : PipelineConfig; trace : list Event }.

(** [Fuel_exhausted] is not a behaviour of the program: it is what an
    unfolding of a [while] loop answers when it was given too few
    iterations. *)
Inductive Outcome (A : Type) :=
| Done (a : A)
| Raise (e : Exn)
| Fuel_exhausted.
Arguments Done {A} a.
Arguments Raise {A} e.
Arguments Fuel_exhausted {A}.

Definition M (A : Type) : Type := State -> Outcome A * State.

Definition ret {A} (a : A) : M A := fun s => (Done a, s).

Definition bind {A B} (m : M A) (k : A -> M B) : M B :=
  fun s =>
    match m s with
    | (Done a, s') => k a s'
    | (Raise e, s') => (Raise e, s')
    | (Fuel_exhausted, s') => (Fuel_exhausted, s')
    end.

Definition raise {A} (e : Exn) : M A := fun s => (Raise e, s).

Definition out_of_fuel {A} : M A := fun s => (Fuel_exhausted, s).

Definition get_config : M PipelineConfig := fun s => (Done (config s), s).

Definition modify_config (f : PipelineConfig -> PipelineConfig) : M unit :=
  fun s => (Done tt, {| config := f (config s); trace := trace s |}).

Definition emit (e : Event) : M unit :=
  fun s => (Done tt, {| config := config s; trace := trace s ++ [e] |}).

Definition lift {A} (r : Exn + A) : M A :=
  match r with
  | inl e => raise e
  | inr a => ret a
  end.

Declare Scope monad_scope.
Delimit Scope monad_scope with monad.
Notation "x <- m ;; k" := (bind m (fun x => k))
  (at level 61, m at next level, right associativity) : monad_scope.
Notation "' p <- m ;; k" := (bind m (fun x => let p := x in k))
  (at level 61, p pattern, m at next level, right associativity) : monad_scope.
Notation "m ;;; k" := (bind m (fun _ => k))
  (at level 61, right associativity) : monad_scope.
Open Scope monad_scope.

Definition when (b : bool) (m : M unit) : M unit := if b then m else ret tt.

(** The events a computation adds to the trace. *)
Definition is_CalcKvCache (e : Event) : bool :=
  match e with CalcKvCache _ _ => true | _ => false end.

Definition is_search (e : Event) : bool :=
  match e with
  | FindValidMaxLength _ _ | FindValidBatchSize _ _ => true
  | _ => false
  end.

Definition is_FindValidMaxLength (e : Event) : bool :=
  match e with FindValidMaxLength _ _ => true | _ => false end.

Definition is_FindValidBatchSize (e : Event) : bool :=
  match e with FindValidBatchSize _ _ => true | _ => false end.

Definition is_budgeting (e : Event) : bool :=
  match e with
  | EstimateWeights _ | InferBatchSize _ _ | CalcKvCache _ _
  | FindValidMaxLength _ _ | FindValidBatchSize _ _ => true
  | _ => false
  end.

(** ** Python numbers

    The float operations the code uses, on binary64 values. *)

Definition float_mul : spec_float -> spec_float -> spec_float := SFmul 53 1024.
Definition float_div : spec_float -> spec_float -> spec_float := SFdiv 53 1024.

(** Conversion of an integer to a float, as Python does it for the integer
    operand of [int * float]: the nearest float, ties to even, and
    [OverflowError] when that is beyond the largest float. *)
Definition float_of_int (z : Z) : Exn + spec_float :=
  match binary_normalize 53 1024 z 0 false with
  | S754_infinity _ => inl OverflowError
  | f => inr f
  end.

(** [int / 1024] on integers: Python's true division gives the float nearest
    to the exact quotient, which for a power of two is the rounding of
    [z * 2^-10]. *)
Definition int_truediv_1024 (z : Z) : Exn + spec_float :=
  match binary_normalize 53 1024 z (-10) false with
  | S754_infinity _ => inl OverflowError
  | f => inr f
  end.

(** The float [1024.0] and the literal [0.95]. *)
Definition float_1024 : spec_float := S754_finite false 4503599627370496 (-42).
Definition float_0_95 : spec_float := S754_finite false 8556839292003942 (-53).

(** [int(f)]: truncation towards zero. *)
Definition int_of_float (f : spec_float) : Exn + Z :=
  match f with
  | S754_zero _ => inr 0
  | S754_infinity _ => inl OverflowError
  | S754_nan => inl ValueError
  | S754_finite s m e => inr (cond_Zopp s (Z.shiftl (Zpos m) e))
  end.

(** [round(f)]: the nearest integer, ties to the even one. *)
Definition round_half_even (m : Z) (e : Z) : Z :=
  if 0 <=? e then m * 2 ^ e
  else
    let q := m / 2 ^ (- e) in
    let r := m mod 2 ^ (- e) in
    match 2 * r ?= 2 ^ (- e) with
    | Lt => q
    | Gt => q + 1
    | Eq => if Z.even q then q else q + 1
    end.

Definition py_round (f : spec_float) : Exn + Z :=
  match f with
  | S754_zero _ => inr 0
  | S754_infinity _ => inl OverflowError
  | S754_nan => inl ValueError
  | S754_finite s m e => inr (cond_Zopp s (round_half_even (Zpos m) e))
  end.

(** [z > f] for an integer [z] and a float [f]; Python compares the two
    exactly, without converting the integer. *)
Definition int_gt_float (z : Z) (f : spec_float) : bool :=
  match f with
  | S754_nan => false
  | S754_infinity s => s
  | S754_zero _ => z >? 0
  | S754_finite s m e =>
      if 0 <=? e then z >? cond_Zopp s (Zpos m) * 2 ^ e
      else z * 2 ^ (- e) >? cond_Zopp s (Zpos m)
  end.

Definition bind_exn {A B} (r : Exn + A) (k : A -> Exn + B) : Exn + B :=
  match r with
  | inl e => inl e
  | inr a => k a
  end.

(** [int(z * f)]. *)
Definition int_mul_float_to_int (z : Z) (f : spec_float) : Exn + Z :=
  bind_exn (float_of_int z) (fun x => int_of_float (float_mul x f)).

(** [_to_mib]: [round(bytes / 1024 / 1024)]. *)
Definition _to_mib (bytes : Z) : Exn + Z :=
  bind_exn (int_truediv_1024 bytes) (fun x => py_round (float_div x float_1024)).

(** Floats that are zero or finite, with a mantissa of at most 53 bits. *)
Definition bounded_float (f : spec_float) : Prop :=
  match f with
  | S754_zero _ => True
  | S754_finite _ m e => Zpos (digits2_pos m) <= 53 /\ e <= 971
  | _ => False
  end.

(** The record that [n] shifts make of the integer [P]: the quotient, the
    last bit shifted out, and whether any bit below it was set. *)
Definition shifted (P n : Z) (r : shr_record) : Prop :=
  0 <= n
  /\ shr_m r = P / 2 ^ n
  /\ shr_r r = (if n =? 0 then false else Z.odd (P / 2 ^ (n - 1)))
  /\ shr_s r = (if n =? 0 then false else negb (P mod 2 ^ (n - 1) =? 0)).

(** [str] of an integer and of an optional integer. *)
Definition str_int (z : Z) : string := NilZero.string_of_int (Z.to_int z).

Definition str_opt_int (o : option Z) : string :=
  match o with
  | Some z => str_int z
  | None => "None"
  end.

Definition nl : string := String (Ascii.ascii_of_nat 10) EmptyString.
Definition tab : string := String (Ascii.ascii_of_nat 9) EmptyString.

(** Truth value of an optional integer: [None] and [0] are false. *)
Definition truthy (o : option Z) : bool :=
  match o with
  | None => false
  | Some z => negb (z =? 0)
  end.

Definition is_not_None (o : option Z) : bool :=
  match o with
  | None => false
  | Some _ => true
  end.

(** ** The calls into the architecture *)

Section Registry.

Variable model_cls : PipelineModel.

(** [_infer_optimal_batch_size]. *)
Definition _infer_optimal_batch_size (available_kv_cache_memory : Z) : M Z :=
  c <- get_config ;;
  emit (InferBatchSize c available_kv_cache_memory) ;;;
  ret (infer_optimal_batch_size model_cls c available_kv_cache_memory).

(** [_calculate_kv_cache_size]: zero for a model without a KV cache. *)
Definition _calculate_kv_cache_size (available_kv_cache_memory : Z) : M Z :=
  c <- get_config ;;
  emit (CalcKvCache c available_kv_cache_memory) ;;;
  if is_KVCacheMixin model_cls
  then ret (estimate_kv_cache_size model_cls c available_kv_cache_memory (devices c))
  else ret 0.

(** The value [_calculate_kv_cache_size] returns for a configuration. *)
Definition kv_cache_size_of (c : PipelineConfig) (available : Z) : Z :=
  if is_KVCacheMixin model_cls
  then estimate_kv_cache_size model_cls c available (devices c)
  else 0.

(** ** The feasibility searches *)

(** The loop of [_find_valid_max_length], one unfolding per iteration.  The
    loop variable [found_valid_max_length] is only set just before a [break],
    so the loop is left by returning the pair
    [(found_valid_max_length, inferred_max_length)]. *)
Fixpoint find_valid_max_length_loop (fuel : nat)
    (available_kv_cache_memory : Z) (user_provided_max_batch_size : bool)
    (lower upper : Z) : M (bool * Z) :=
  match fuel with
  | O => out_of_fuel
  | S fuel' =>
      let inferred_max_length := (lower + upper) / 2 in
      modify_config (set_max_length (Some inferred_max_length)) ;;;
      when (negb user_provided_max_batch_size)
        (b <- _infer_optimal_batch_size available_kv_cache_memory ;;
         modify_config (set_max_batch_size (Some b))) ;;;
      kv_cache_size <- _calculate_kv_cache_size available_kv_cache_memory ;;
      if lower >? upper then ret (false, inferred_max_length)
      else if upper - lower <=? 1 then
        ret (kv_cache_size <=? available_kv_cache_memory, inferred_max_length)
      else if kv_cache_size >? available_kv_cache_memory then
        find_valid_max_length_loop fuel' available_kv_cache_memory
          user_provided_max_batch_size lower (inferred_max_length - 1)
      else
        find_valid_max_length_loop fuel' available_kv_cache_memory
          user_provided_max_batch_size inferred_max_length upper
  end.

(** Iterations granted to a search over [[lower, upper]].  Every iteration
    at least halves the width of the interval, so no search runs out of them
    (lemmas [find_valid_max_length_loop_spec], [find_valid_batch_size_loop_spec]
    and [search_fuel_enough]). *)
Definition search_fuel (lower upper : Z) : nat :=
  S (Z.to_nat (Z.log2_up (upper - lower))).

(** [_find_valid_max_length]. *)
Definition _find_valid_max_length (available_kv_cache_memory : Z)
    (user_provided_max_batch_size : bool) : M (bool * Z * option Z) :=
  c <- get_config ;;
  emit (FindValidMaxLength c available_kv_cache_memory) ;;;
  match max_length c, max_batch_size c with
  | None, _ => raise AssertionError
  | Some _, None => raise AssertionError
  | Some upper, Some _ =>
      ' (found_valid_max_length, inferred_max_length) <-
        find_valid_max_length_loop (search_fuel 1 upper)
          available_kv_cache_memory user_provided_max_batch_size 1 upper ;;
      c' <- get_config ;;
      ret (found_valid_max_length, inferred_max_length, max_batch_size c')
  end.

(** The loop of [_find_valid_batch_size]. *)
Fixpoint find_valid_batch_size_loop (fuel : nat)
    (available_kv_cache_memory : Z) (lower upper : Z) : M (bool * Z) :=
  match fuel with
  | O => out_of_fuel
  | S fuel' =>
      let inferred_max_batch_size := (lower + upper) / 2 in
      modify_config (set_max_batch_size (Some inferred_max_batch_size)) ;;;
      kv_cache_size <- _calculate_kv_cache_size available_kv_cache_memory ;;
      if lower >? upper then ret (false, inferred_max_batch_size)
      else if upper - lower <=? 1 then
        ret (kv_cache_size <=? available_kv_cache_memory, inferred_max_batch_size)
      else if kv_cache_size >? available_kv_cache_memory then
        find_valid_batch_size_loop fuel' available_kv_cache_memory
          lower (inferred_max_batch_size - 1)
      else
        find_valid_batch_size_loop fuel' available_kv_cache_memory
          inferred_max_batch_size upper
  end.

(** [_find_valid_batch_size].  [original_max_length] is whatever the caller
    read from the configuration; [upper] must be an integer for the
    arithmetic of the loop. *)
Definition _find_valid_batch_size (available_kv_cache_memory : Z)
    (original_max_length : option Z) (user_provided_max_batch_size : bool)
  : M (bool * Z) :=
  c <- get_config ;;
  emit (FindValidBatchSize c available_kv_cache_memory) ;;;
  if negb user_provided_max_batch_size then ret (false, -1)
  else
    modify_config (set_max_length original_max_length) ;;;
    match max_batch_size c with
    | None => raise TypeError
    | Some upper =>
        find_valid_batch_size_loop (search_fuel 1 upper)
          available_kv_cache_memory 1 upper
    end.

(** ** The composer of the out-of-memory message *)

(** [_add_user_provided_max_length_suggestions]: what it writes to [msg]. *)
Definition _add_user_provided_max_length_suggestions
    (user_provided_max_batch_size found_valid_max_length
       found_valid_max_batch_size : bool)
    (inferred_max_length inferred_max_batch_size : Z)
    (inferred_max_length_compatible_batch_size : option Z) : string :=
  if negb user_provided_max_batch_size then
    if found_valid_max_length then
      "reducing --max-length to " ++ str_int inferred_max_length ++ " "
      ++ "(supports batch size of "
      ++ str_opt_int inferred_max_length_compatible_batch_size ++ ")"
    else "reducing --max-length or --max-batch-size"
  else
    (if found_valid_max_length then
       "reducing --max-length to " ++ str_int inferred_max_length ++ " and "
       ++ "--max-batch-size to "
       ++ str_opt_int inferred_max_length_compatible_batch_size ++ ")"
     else EmptyString)
    ++
    (if found_valid_max_batch_size then
       (if found_valid_max_length then " or " else EmptyString)
       ++ "reducing --max-batch-size to " ++ str_int inferred_max_batch_size
     else EmptyString).

(** [_add_default_max_length_suggestions]: what it writes to [msg]. *)
Definition _add_default_max_length_suggestions
    (user_provided_max_batch_size found_valid_max_length
       found_valid_max_batch_size : bool)
    (inferred_max_length inferred_max_batch_size : Z)
    (inferred_max_length_compatible_batch_size : option Z)
    (original_max_length : option Z) : string :=
  if negb user_provided_max_batch_size then
    (if found_valid_max_length then
       "setting --max-length to " ++ str_int inferred_max_length ++ " and "
       ++ "--max-batch-size to "
       ++ str_opt_int inferred_max_length_compatible_batch_size ++ ")"
     else EmptyString)
    ++
    (if found_valid_max_batch_size then
       (if found_valid_max_length then " or " else EmptyString)
       ++ "setting --max-batch-size to " ++ str_int inferred_max_batch_size
     else EmptyString)
  else
    (if found_valid_max_batch_size then
       "reducing --max-batch-size to " ++ str_int inferred_max_batch_size
     else EmptyString)
    ++
    (if found_valid_max_length then
       (if found_valid_max_batch_size then " or " else EmptyString)
       ++ "setting --max-length to " ++ str_int inferred_max_length ++ " "
       ++ "(currently defaulted to " ++ str_opt_int original_max_length ++ ")"
     else EmptyString).

Definition generic_suggestion : string :=
  "reducing --max-length or --max-batch-size, finding a smaller model, or using a device with more memory.".

(** The opening sentence of the message, up to and including ["Try "]. *)
Definition oom_message_head (total_mib : Z) (free_memory_str : string) : string :=
  "Estimated model and kv cache memory use exceeds available memory ("
  ++ str_int total_mib ++ " MiB" ++ free_memory_str ++ "). Try ".

(** [_generate_oom_error_message]. *)
Definition _generate_oom_error_message
    (total_size original_free_memory : Z)
    (user_provided_max_length user_provided_max_batch_size
       found_valid_max_length found_valid_max_batch_size : bool)
    (inferred_max_length inferred_max_batch_size : Z)
    (inferred_max_length_compatible_batch_size : option Z)
    (original_max_length : option Z) : Exn + string :=
  bind_exn
    (if original_free_memory =? 0 then inr EmptyString
     else bind_exn (_to_mib original_free_memory)
            (fun m => inr (" / " ++ str_int m ++ " MiB free")%string))
    (fun free_memory_str =>
  bind_exn (_to_mib total_size) (fun total_mib =>
  inr (oom_message_head total_mib free_memory_str
       ++ (if negb found_valid_max_length && negb found_valid_max_batch_size
           then generic_suggestion
           else if user_provided_max_length then
             _add_user_provided_max_length_suggestions
               user_provided_max_batch_size found_valid_max_length
               found_valid_max_batch_size inferred_max_length
               inferred_max_batch_size
               inferred_max_length_compatible_batch_size
           else
             _add_default_max_length_suggestions
               user_provided_max_batch_size found_valid_max_length
               found_valid_max_batch_size inferred_max_length
               inferred_max_batch_size
               inferred_max_length_compatible_batch_size
               original_max_length)
       ++ ".")%string)).

Definition weights_too_large_message : string :=
  "Weights size exceeds available memory. Try running a smaller model, using a smaller precision, or using a device with more memory.".

(** [_raise_oom_error].  It never returns: every path ends in a [raise]. *)
Definition _raise_oom_error
    (user_provided_max_length user_provided_max_batch_size : bool)
    (total_size original_free_memory available_kv_cache_memory weights_size : Z)
  : M unit :=
  if weights_size >? original_free_memory then
    raise (RuntimeError weights_too_large_message)
  else
    c <- get_config ;;
    let original_max_length := max_length c in
    let original_max_batch_size := max_batch_size c in
    ' (found_valid_max_length, inferred_max_length,
       inferred_max_length_compatible_batch_size) <-
      _find_valid_max_length available_kv_cache_memory
        user_provided_max_batch_size ;;
    modify_config (set_max_batch_size original_max_batch_size) ;;;
    ' (found_valid_max_batch_size, inferred_max_batch_size) <-
      _find_valid_batch_size available_kv_cache_memory original_max_length
        user_provided_max_batch_size ;;
    error_msg <-
      lift (_generate_oom_error_message total_size original_free_memory
              user_provided_max_length user_provided_max_batch_size
              found_valid_max_length found_valid_max_batch_size
              inferred_max_length inferred_max_batch_size
              inferred_max_length_compatible_batch_size
              original_max_length) ;;
    raise (RuntimeError error_msg).

(** ** The resolver *)

(** [int(sum(d.stats["free_memory"] for d in pipeline_config.devices))]: the
    first device whose statistics cannot be read ends the sum with its
    exception. *)
Fixpoint sum_free_memory (ds : list Device) (acc : Z) : string + Z :=
  match ds with
  | [] => inr acc
  | d :: ds' =>
      match free_memory_stat d with
      | inl e => inl e
      | inr v => sum_free_memory ds' (acc + v)
      end
  end.

Definition call_calculate_max_seq_len : M Z :=
  c <- get_config ;;
  emit (CalcMaxSeqLen c) ;;;
  ret (calculate_max_seq_len model_cls c).

Definition call_estimate_weights_size : M Z :=
  c <- get_config ;;
  emit (EstimateWeights c) ;;;
  ret (estimate_weights_size model_cls c).

(** The local variables of [_estimate_memory_footprint] that are alive after
    the sizes have been estimated. *)
Record Footprint := {
  free_memory : Z;
  model_weights_size : Z;
  available_kv_cache_memory : Z;
  user_provided_max_length : bool;
  user_provided_max_batch_size : bool;
  actual_kv_cache_size : Z;
  total_size : Z
}.

Definition unable_to_estimate_message (e : string) : string :=
  "Unable to estimate memory footprint of model, can't query device stats: " ++ e.

Definition truncated_message (original_max_length : option Z)
    (inferred_max_length : Z) : string :=
  "Truncated model's default max_length from " ++ str_opt_int original_max_length
  ++ " to " ++ str_int inferred_max_length ++ " to fit in memory.".

Definition high_water_mark_message : string :=
  "Estimated model and kv cache memory use nears available memory. You may experience errors.".

(** The [except] branch of [_estimate_memory_footprint]: the device
    statistics could not be read. *)
Definition estimate_memory_footprint_degraded (e : string) : M unit :=
  emit (LogWarning (unable_to_estimate_message e)) ;;;
  c <- get_config ;;
  when (negb (truthy (max_batch_size c)))
    (modify_config (set_max_batch_size (Some 1))) ;;;
  c <- get_config ;;
  when (negb (truthy (max_length c)))
    (v <- call_calculate_max_seq_len ;;
     modify_config (set_max_length (Some v))).

(** [_estimate_memory_footprint] from the weights estimate up to the first
    total: the defaults are filled in and the cache size is measured. *)
Definition estimate_memory_footprint_initial (free_memory : Z) : M Footprint :=
  model_weights_size <- call_estimate_weights_size ;;
  c <- get_config ;;
  available_kv_cache_memory <-
    lift (int_mul_float_to_int (Z.max 0 (free_memory - model_weights_size))
            (device_memory_utilization c)) ;;
  let user_provided_max_length := is_not_None (max_length c) in
  let user_provided_max_batch_size := is_not_None (max_batch_size c) in
  when (negb user_provided_max_length)
    (v <- call_calculate_max_seq_len ;;
     modify_config (set_max_length (Some v))) ;;;
  when (negb user_provided_max_batch_size)
    (b <- _infer_optimal_batch_size available_kv_cache_memory ;;
     modify_config (set_max_batch_size (Some b))) ;;;
  actual_kv_cache_size <- _calculate_kv_cache_size available_kv_cache_memory ;;
  modify_config (set_available_cache_memory (Some actual_kv_cache_size)) ;;;
  ret {| free_memory := free_memory;
         model_weights_size := model_weights_size;
         available_kv_cache_memory := available_kv_cache_memory;
         user_provided_max_length := user_provided_max_length;
         user_provided_max_batch_size := user_provided_max_batch_size;
         actual_kv_cache_size := actual_kv_cache_size;
         total_size := model_weights_size + actual_kv_cache_size |}.

(** The automatic remedy: when the total is too large and the user gave no
    [max_length], search for a length that fits and adopt it. *)
Definition estimate_memory_footprint_shrink (l : Footprint) : M Footprint :=
  if (total_size l >? free_memory l) && negb (user_provided_max_length l) then
    c <- get_config ;;
    let original_max_length := max_length c in
    ' (found_valid_max_length, inferred_max_length, _) <-
      _find_valid_max_length (available_kv_cache_memory l)
        (user_provided_max_batch_size l) ;;
    if found_valid_max_length then
      emit (LogWarning (truncated_message original_max_length inferred_max_length)) ;;;
      modify_config (set_max_length (Some inferred_max_length)) ;;;
      kv <- _calculate_kv_cache_size (available_kv_cache_memory l) ;;
      ret {| free_memory := free_memory l;
             model_weights_size := model_weights_size l;
             available_kv_cache_memory := available_kv_cache_memory l;
             user_provided_max_length := user_provided_max_length l;
             user_provided_max_batch_size := user_provided_max_batch_size l;
             actual_kv_cache_size := kv;
             total_size := model_weights_size l + kv |}
    else ret l
  else ret l.

(** The text of the [logger.info] record.  [free_memory_str] is bound only
    when [free_memory] is not zero, and it is read after the two sizes of the
    record have been rendered. *)
Definition estimate_memory_footprint_logging_str (l : Footprint)
    (c : PipelineConfig) : Exn + string :=
  bind_exn
    (if free_memory l =? 0 then inr None
     else bind_exn (_to_mib (free_memory l))
            (fun m => inr (Some (" / " ++ str_int m ++ " MiB free")%string)))
    (fun free_memory_str =>
  bind_exn
    (if model_weights_size l =? 0 then inr EmptyString
     else bind_exn (_to_mib (model_weights_size l))
            (fun m => inr (nl ++ tab ++ "    Weights:                "
                           ++ str_int m ++ " MiB")%string))
    (fun weights_str =>
  let max_length_str :=
    (if negb (user_provided_max_length l)
     then "Auto-inferred max sequence length: " ++ str_opt_int (max_length c)
     else "Current max sequence length: " ++ str_opt_int (max_length c))%string in
  let max_batch_size_str :=
    (if negb (user_provided_max_batch_size l)
     then "Auto-inferred max batch size: " ++ str_opt_int (max_batch_size c)
     else "Current max batch size: " ++ str_opt_int (max_batch_size c))%string in
  bind_exn (_to_mib (actual_kv_cache_size l)) (fun kv_mib =>
  bind_exn (_to_mib (model_weights_size l + actual_kv_cache_size l))
    (fun total_mib =>
  match free_memory_str with
  | None => inl (UnboundLocalError "free_memory_str")
  | Some free_memory_str =>
      inr (nl
           ++ nl ++ tab ++ "Estimated memory consumption:"
           ++ weights_str
           ++ nl ++ tab ++ "    KVCache allocation:     " ++ str_int kv_mib ++ " MiB"
           ++ nl ++ tab ++ "    Total estimated:        " ++ str_int total_mib
           ++ " MiB used" ++ free_memory_str
           ++ nl ++ tab ++ max_length_str
           ++ nl ++ tab ++ max_batch_size_str ++ nl)%string
  end)))).

(** [total_size > vram_usage_limit_scale * free_memory], with
    [vram_usage_limit_scale = 0.95]. *)
Definition exceeds_vram_usage_limit (total_size free_memory : Z) : Exn + bool :=
  bind_exn (float_of_int free_memory)
    (fun f => inr (int_gt_float total_size (float_mul float_0_95 f))).

(** The rest of [_estimate_memory_footprint]: the log record, and the two
    checks of the total against the free memory. *)
Definition estimate_memory_footprint_report (l : Footprint) : M unit :=
  c <- get_config ;;
  logging_str <- lift (estimate_memory_footprint_logging_str l c) ;;
  emit (LogInfo logging_str) ;;;
  if total_size l >? free_memory l then
    _raise_oom_error (user_provided_max_length l)
      (user_provided_max_batch_size l) (total_size l) (free_memory l)
      (available_kv_cache_memory l) (model_weights_size l)
  else
    over <- lift (exceeds_vram_usage_limit (total_size l) (free_memory l)) ;;
    when over (emit (LogWarning high_water_mark_message)).

(** [_estimate_memory_footprint], for [model_cls = arch.pipeline_model]. *)
Definition _estimate_memory_footprint : M unit :=
  c <- get_config ;;
  match sum_free_memory (devices c) 0 with
  | inl e => estimate_memory_footprint_degraded e
  | inr free_memory =>
      l <- estimate_memory_footprint_initial free_memory ;;
      l' <- estimate_memory_footprint_shrink l ;;
      estimate_memory_footprint_report l'
  end.

(** The configuration object after one trial of the length search at length
    [L]: the length is stored, and a batch size that the user did not give is
    inferred again for it. *)
Definition trial_config (available : Z) (user_provided_max_batch_size : bool)
    (L : Z) (c : PipelineConfig) : PipelineConfig :=
  let c1 := set_max_length (Some L) c in
  if user_provided_max_batch_size then c1
  else set_max_batch_size
         (Some (infer_optimal_batch_size model_cls c1 available)) c1.

Definition trial_events (available : Z) (user_provided_max_batch_size : bool)
    (L : Z) (c : PipelineConfig) : list Event :=
  (if user_provided_max_batch_size then []
   else [InferBatchSize (set_max_length (Some L) c) available])
  ++ [CalcKvCache (trial_config available user_provided_max_batch_size L c)
        available].

(** ** Vocabulary of the statements *)

(** The configuration object during a search: the entry configuration with
    the two searched fields overwritten. *)
Definition search_config (L : Z) (B : option Z) (c : PipelineConfig)
  : PipelineConfig :=
  set_max_batch_size B (set_max_length (Some L) c).

(** Events of a search loop: calls of the two cost functions, nothing else. *)
Definition is_cost_call (e : Event) : bool :=
  match e with
  | InferBatchSize _ _ | CalcKvCache _ _ => true
  | _ => false
  end.

Definition kv_calls (evs : list Event) : nat :=
  List.length (filter is_CalcKvCache evs).

(** What a run of the length loop over [[lower, upper]] from state [s] has
    done when it returns [r]: it evaluated the cache size at most [n] times,
    it left the last trial length (and the batch size of that trial) in the
    configuration object, and it answered "found" only if the cache size of
    that last trial fits. *)
Definition length_loop_post (available : Z) (upb : bool) (n : nat)
    (lower upper : Z) (s : State) (r : Outcome (bool * Z) * State) : Prop :=
  exists found L B evs,
    r = (Done (found, L),
         {| config := search_config L B (config s); trace := trace s ++ evs |})
    /\ (kv_calls evs <= n)%nat
    /\ Forall (fun e => is_cost_call e = true) evs
    /\ (found = true ->
        kv_cache_size_of (search_config L B (config s)) available
        <= available)
    /\ (if upb then B = max_batch_size (config s)
        else exists b0,
            B = Some (infer_optimal_batch_size model_cls
                        (search_config L b0 (config s)) available))
    /\ (lower <= upper -> lower <= L <= upper)
    /\ (lower < upper -> L < upper)
    /\ (exists evs0,
          evs = evs0 ++ [CalcKvCache (search_config L B (config s)) available]).

Definition after_trial (available : Z) (upb : bool) (L : Z) (s : State) : State :=
  {| config := trial_config available upb L (config s);
     trace := trace s ++ trial_events available upb L (config s) |}.

Definition is_batch_trial (available : Z) (c : PipelineConfig) (e : Event)
  : Prop :=
  exists b, e = CalcKvCache (set_max_batch_size (Some b) c) available.

Definition batch_loop_post (available : Z) (n : nat)
    (lower upper : Z) (s : State) (r : Outcome (bool * Z) * State) : Prop :=
  exists found b evs,
    r = (Done (found, b),
         {| config := set_max_batch_size (Some b) (config s);
            trace := trace s ++ evs |})
    /\ (kv_calls evs <= n)%nat
    /\ Forall (is_batch_trial available (config s)) evs
    /\ (found = true ->
        kv_cache_size_of (set_max_batch_size (Some b) (config s))
          available <= available)
    /\ (lower <= upper -> lower <= b <= upper).

Definition after_batch_trial (available : Z) (b : Z) (s : State) : State :=
  {| config := set_max_batch_size (Some b) (config s);
     trace := trace s
              ++ [CalcKvCache (set_max_batch_size (Some b) (config s)) available] |}.

(** What a call of [_find_valid_max_length] from state [s], whose
    configuration holds the length [U], has done when it answers [r]. *)
Definition length_search_post (available : Z) (upb : bool) (U : Z)
    (s : State) (r : Outcome (bool * Z * option Z) * State) : Prop :=
  exists found L B evs,
    r = (Done (found, L, B),
         {| config := search_config L B (config s);
            trace := trace s ++ FindValidMaxLength (config s) available :: evs |})
    /\ (kv_calls evs <= search_fuel 1 U)%nat
    /\ Forall (fun e => is_cost_call e = true) evs
    /\ (found = true ->
        kv_cache_size_of (search_config L B (config s)) available <= available)
    /\ (if upb then B = max_batch_size (config s)
        else exists b0,
            B = Some (infer_optimal_batch_size model_cls
                        (search_config L b0 (config s)) available))
    /\ (1 <= U -> 1 <= L <= U)
    /\ (1 < U -> L < U)
    /\ (exists evs0,
          evs = evs0 ++ [CalcKvCache (search_config L B (config s)) available]).

(** The same for [_find_valid_batch_size] with a batch size given by the
    user, from a configuration that holds the batch size [U]. *)
Definition batch_search_post (available : Z) (original_max_length : option Z)
    (U : Z) (s : State) (r : Outcome (bool * Z) * State) : Prop :=
  let c := set_max_length original_max_length (config s) in
  exists found b evs,
    r = (Done (found, b),
         {| config := set_max_batch_size (Some b) c;
            trace := trace s ++ FindValidBatchSize (config s) available :: evs |})
    /\ (kv_calls evs <= search_fuel 1 U)%nat
    /\ Forall (is_batch_trial available c) evs
    /\ (found = true ->
        kv_cache_size_of (set_max_batch_size (Some b) c) available <= available)
    /\ (1 <= U -> 1 <= b <= U).







(** The configuration after the defaults of [_estimate_memory_footprint] are
    filled in, and the locals and events of that first part, for a cache
    budget [available]. *)
Definition with_default_max_length (c : PipelineConfig) : PipelineConfig :=
  match max_length c with
  | None => set_max_length (Some (calculate_max_seq_len model_cls c)) c
  | Some _ => c
  end.

Definition with_default_max_batch_size (available : Z) (c : PipelineConfig)
  : PipelineConfig :=
  match max_batch_size c with
  | None =>
      set_max_batch_size
        (Some (infer_optimal_batch_size model_cls c available)) c
  | Some _ => c
  end.

Definition initial_config (available : Z) (c : PipelineConfig) : PipelineConfig :=
  with_default_max_batch_size available (with_default_max_length c).

Definition cache_budget (free_memory : Z) (c : PipelineConfig) : Exn + Z :=
  int_mul_float_to_int
    (Z.max 0 (free_memory - estimate_weights_size model_cls c))
    (device_memory_utilization c).

Definition initial_footprint (free_memory available : Z) (c : PipelineConfig)
  : Footprint :=
  let kv := kv_cache_size_of (initial_config available c) available in
  {| free_memory := free_memory;
     model_weights_size := estimate_weights_size model_cls c;
     available_kv_cache_memory := available;
     user_provided_max_length := is_not_None (max_length c);
     user_provided_max_batch_size := is_not_None (max_batch_size c);
     actual_kv_cache_size := kv;
     total_size := estimate_weights_size model_cls c + kv |}.

Definition initial_events (available : Z) (c : PipelineConfig) : list Event :=
  [EstimateWeights c]
  ++ match max_length c with
     | None => [CalcMaxSeqLen c]
     | Some _ => []
     end
  ++ match max_batch_size c with
     | None => [InferBatchSize (with_default_max_length c) available]
     | Some _ => []
     end
  ++ [CalcKvCache (initial_config available c) available].

(** The state and the locals after the first part and the automatic remedy:
    the sizes on which the report decides. *)
Definition estimate_memory_footprint_sizes (free_memory : Z) : M Footprint :=
  l <- estimate_memory_footprint_initial free_memory ;;
  estimate_memory_footprint_shrink l.

(** Whether the high-water-mark comparison holds, when it can be made. *)
Definition over_vram_usage_limit (total_size free_memory : Z) : bool :=
  match exceeds_vram_usage_limit total_size free_memory with
  | inr b => b
  | inl _ => false
  end.

(** What the automatic remedy has done when it answers [r]: it returns; it
    runs at most one length search and no batch-size search, and a length
    search exactly when the user gave no length and the first total exceeds
    the free memory; otherwise it changes nothing.  When it adopts a new length,
    the new cache size is one that fits the cache budget. *)
Definition shrink_post (l : Footprint) (s : State)
    (r : Outcome Footprint * State) : Prop :=
  exists l' s' evs,
    r = (Done l', s')
    /\ trace s' = trace s ++ evs
    /\ free_memory l' = free_memory l
    /\ model_weights_size l' = model_weights_size l
    /\ available_kv_cache_memory l' = available_kv_cache_memory l
    /\ user_provided_max_length l' = user_provided_max_length l
    /\ user_provided_max_batch_size l' = user_provided_max_batch_size l
    /\ (l' = l
        \/ exists c,
            actual_kv_cache_size l'
            = kv_cache_size_of c (available_kv_cache_memory l)
            /\ total_size l' = model_weights_size l + actual_kv_cache_size l'
            /\ actual_kv_cache_size l' <= available_kv_cache_memory l)
    /\ existsb is_FindValidBatchSize evs = false
    /\ (List.length (filter is_FindValidMaxLength evs) <= 1)%nat
    /\ (existsb is_FindValidMaxLength evs = true <->
        user_provided_max_length l = false
        /\ total_size l > free_memory l)
    /\ (user_provided_max_length l = true \/ total_size l <= free_memory l ->
        l' = l /\ s' = s)
    /\ (user_provided_max_batch_size l = true ->
        max_batch_size (config s') = max_batch_size (config s)).

(** The configuration that the degraded mode leaves, and the call it makes.
    The ceiling of the model is read after the batch size has had its
    default. *)
Definition with_batch_size_one (c : PipelineConfig) : PipelineConfig :=
  if truthy (max_batch_size c) then c else set_max_batch_size (Some 1) c.

Definition with_ceiling (c : PipelineConfig) : PipelineConfig :=
  if truthy (max_length c) then c
  else set_max_length (Some (calculate_max_seq_len model_cls c)) c.

Definition degraded_config (c : PipelineConfig) : PipelineConfig :=
  with_ceiling (with_batch_size_one c).

Definition degraded_events (c : PipelineConfig) : list Event :=
  if truthy (max_length c) then [] else [CalcMaxSeqLen (with_batch_size_one c)].

Definition is_LogWarning (e : Event) : bool :=
  match e with LogWarning _ => true | _ => false end.

End Registry.

(** ** Example inputs *)

(** Sizes of the examples are in MiB. *)
Definition MiB : Z := 1048576.

(** The float [0.9]. *)
Definition float_0_9 : spec_float := S754_finite false 8106479329266893 (-53).

Definition one_device (free_mib : Z) : list Device :=
  [{| free_memory_stat := inr (free_mib * MiB) |}].

Definition example_config (ml mb : option Z) (free_mib : Z) : PipelineConfig :=
  {| max_length := ml;
     max_batch_size := mb;
     device_memory_utilization := float_0_9;
     devices := one_device free_mib;
     _available_cache_memory := None |}.

Definition initial_state (c : PipelineConfig) : State :=
  {| config := c; trace := [] |}.

Definition length_of (c : PipelineConfig) : Z :=
  match max_length c with Some L => L | None => 0 end.

Definition batch_size_of (c : PipelineConfig) : Z :=
  match max_batch_size c with Some b => b | None => 0 end.

(** A model whose cache takes one MiB per token of every sequence of the
    batch, with a ceiling of 8 tokens. *)
Definition product_model (weights_mib : Z) : PipelineModel :=
  {| calculate_max_seq_len := fun _ => 8;
     estimate_weights_size := fun _ => weights_mib * MiB;
     infer_optimal_batch_size := fun _ _ => 1;
     estimate_kv_cache_size :=
       fun c _ _ => length_of c * batch_size_of c * MiB;
     is_KVCacheMixin := true |}.

(** A model whose cache size is the sum of the length and the batch size, in
    MiB, and which infers a batch size of 1 for lengths from 5 on and of 100
    for shorter ones. *)
Definition sum_model : PipelineModel :=
  {| calculate_max_seq_len := fun _ => 8;
     estimate_weights_size := fun _ => 10 * MiB;
     infer_optimal_batch_size :=
       fun c _ => if 5 <=? length_of c then 1 else 100;
     estimate_kv_cache_size :=
       fun c _ _ => (length_of c + batch_size_of c) * MiB;
     is_KVCacheMixin := true |}.

(** A model without a cache. *)
Definition cacheless_model (weights_mib : Z) : PipelineModel :=
  {| calculate_max_seq_len := fun _ => 8;
     estimate_weights_size := fun _ => weights_mib * MiB;
     infer_optimal_batch_size := fun _ _ => 1;
     estimate_kv_cache_size := fun _ _ _ => 0;
     is_KVCacheMixin := false |}.

(** A model like [product_model 10] that infers half the length as batch
    size. *)
Definition halving_model : PipelineModel :=
  {| calculate_max_seq_len := fun _ => 8;
     estimate_weights_size := fun _ => 10 * MiB;
     infer_optimal_batch_size := fun c _ => Z.max 1 (length_of c / 2);
     estimate_kv_cache_size :=
       fun c _ _ => length_of c * batch_size_of c * MiB;
     is_KVCacheMixin := true |}.

(** The lengths that the configuration holds at the calls of the searches,
    and at the cache-size evaluations that follow the call of the batch-size
    search. *)
Definition search_entry_lengths (evs : list Event) : list (option Z) :=
  flat_map (fun e => match e with
                     | FindValidMaxLength c _ | FindValidBatchSize c _ =>
                         [max_length c]
                     | _ => []
                     end) evs.

Fixpoint after_batch_search_entry (evs : list Event) : list Event :=
  match evs with
  | [] => []
  | FindValidBatchSize _ _ :: evs' => evs'
  | _ :: evs' => after_batch_search_entry evs'
  end.

Definition kv_lengths (evs : list Event) : list (option Z) :=
  flat_map (fun e => match e with
                     | CalcKvCache c _ => [max_length c]
                     | _ => []
                     end) evs.

(** A device whose statistics cannot be read. *)
Definition broken_device : Device :=
  {| free_memory_stat := inl "no such statistic" |}.

Definition unreadable_config (ml mb : option Z) : PipelineConfig :=
  {| max_length := ml;
     max_batch_size := mb;
     device_memory_utilization := float_0_9;
     devices := [broken_device];
     _available_cache_memory := None |}.

(** ** The registry of architectures

    [PipelineRegistry] keeps a dict from architecture names to
    [SupportedArchitecture] objects.  A Python dict keeps its keys in
    insertion order and holds one value per key, so it is an association
    list without repeated keys; assigning to a key that is present replaces
    the value in place. *)

Section Dict.

Context {K V : Type} (eqb : K -> K -> bool).

(** [d.get(k)]: [None] when the key is absent. *)
Fixpoint dict_get (k : K) (d : list (K * V)) : option V :=
  match d with
  | [] => None
  | (k', v) :: d' => if eqb k' k then Some v else dict_get k d'
  end.

(** [k in d]. *)
Definition dict_mem (k : K) (d : list (K * V)) : bool :=
  match dict_get k d with
  | Some _ => true
  | None => false
  end.

(** [d[k] = v]. *)
Fixpoint dict_set (k : K) (v : V) (d : list (K * V)) : list (K * V) :=
  match d with
  | [] => [(k, v)]
  | (k', v') :: d' =>
      if eqb k' k then (k', v) :: d' else (k', v') :: dict_set k v d'
  end.

End Dict.

(** The enumerations of [max.pipelines.config] and [max.pipelines.kv_cache].
    Only the members that [registry.py] names are told apart; the others
    carry the text of their value. *)
Inductive PipelineEngine := MAX | HUGGINGFACE.

Inductive PipelineTask := TEXT_GENERATION | EMBEDDINGS_GENERATION.

Inductive SupportedEncoding :=
| float32
| bfloat16
| other_encoding (value : string).

Inductive KVCacheStrategy :=
| MODEL_DEFAULT
| CONTINUOUS
| other_strategy (value : string).

Inductive WeightsFormat :=
| pytorch
| other_format (value : string).

Inductive RopeType :=
| none
| other_rope_type (value : string).

Inductive TokenizerClass := TextTokenizer | TextAndVisionTokenizer.

Definition SupportedEncoding_eqb (a b : SupportedEncoding) : bool :=
  match a, b with
  | float32, float32 | bfloat16, bfloat16 => true
  | other_encoding x, other_encoding y => String.eqb x y
  | _, _ => false
  end.

Definition KVCacheStrategy_eqb (a b : KVCacheStrategy) : bool :=
  match a, b with
  | MODEL_DEFAULT, MODEL_DEFAULT | CONTINUOUS, CONTINUOUS => true
  | other_strategy x, other_strategy y => String.eqb x y
  | _, _ => false
  end.

Definition WeightsFormat_eqb (a b : WeightsFormat) : bool :=
  match a, b with
  | pytorch, pytorch => true
  | other_format x, other_format y => String.eqb x y
  | _, _ => false
  end.

Definition PipelineEngine_eqb (a b : PipelineEngine) : bool :=
  match a, b with
  | MAX, MAX | HUGGINGFACE, HUGGINGFACE => true
  | _, _ => false
  end.

(** The attributes of the [PipelineConfig] object that the registry reads or
    writes besides those of the memory estimation.  A path of [weight_path]
    is the text [str(path)]; a weights converter is the name of its class. *)
Record DeviceSpec := { device_type : string }.

Record PipelineConfigAttributes := {
  architecture : option string;
  engine : option PipelineEngine;
  model_path : string;
  weight_path : list string;
  quantization_encoding : option SupportedEncoding;
  cache_strategy : KVCacheStrategy;
  rope_type : option RopeType;
  device_specs : list DeviceSpec;
  _weights_converter : option string;
  _weights_repo_id : option string
}.

(** The whole [pipeline_config] object. *)
Record WholeConfig := {
  estimated : PipelineConfig;
  attributes : PipelineConfigAttributes
}.

(** [SupportedArchitecture]: the attributes that [__init__] stores.  The
    class [pipeline_model] is the record of its class methods; they receive
    the whole configuration object, of which the memory estimation changes
    only the [estimated] part. *)
Module Arch.

Record SupportedArchitecture := {
  name : string;
  example_repo_ids : list string;
  default_encoding : SupportedEncoding;
  supported_encodings : list (SupportedEncoding * list KVCacheStrategy);
  pipeline_model : PipelineConfigAttributes -> PipelineModel;
  task : PipelineTask;
  tokenizer : TokenizerClass;
  default_weights_format : WeightsFormat;
  rope_type : RopeType;
  weight_converters : list (WeightsFormat * string)
}.

End Arch.

(** The exceptions of the registry: a [ValueError] with its message, an
    [IndexError], an [AttributeError], a failed [assert], or whatever the
    memory estimation raises.  [OutOfFuel_] is not a behaviour of the
    program: it stands for an estimation whose loops were unfolded too few
    times. *)
Inductive RegistryExn :=
| ValueError_ (msg : string)
| IndexError_
| AttributeError_
| AssertionError_ (msg : string)
| EstimationError (e : Exn)
| OutOfFuel_.

(** [self.architectures]. *)
Definition Architectures : Type := list (string * Arch.SupportedArchitecture).

Definition refusing_message (name : string) : string :=
  "Refusing to override existing architecture for '" ++ name ++ "'".

(** [PipelineRegistry.__init__]:
    [{arch.name: arch for arch in architectures}]. *)
Definition PipelineRegistry (architectures : list Arch.SupportedArchitecture)
  : Architectures :=
  fold_left (fun d arch => dict_set String.eqb (Arch.name arch) arch d)
    architectures [].

(** [register]: [ValueError] when the name is taken, and then the dict is as
    it was. *)
Definition register (architecture : Arch.SupportedArchitecture)
    (architectures : Architectures) : RegistryExn + Architectures :=
  if dict_mem String.eqb (Arch.name architecture) architectures then
    inl (ValueError_ (refusing_message (Arch.name architecture)))
  else
    inr (dict_set String.eqb (Arch.name architecture) architecture architectures).

(** [reset]: [self.architectures.clear()]. *)
Definition reset (architectures : Architectures) : Architectures := [].

(** Truth value of an optional string: [None] and the empty string are
    false. *)
Definition truthy_str (o : option string) : bool :=
  match o with
  | None | Some EmptyString => false
  | Some _ => true
  end.

(** [architecture_details].  Every member of [PipelineEngine] is true, so
    [not pipeline_config.engine] holds for [None] only. *)
Definition architecture_details (architectures : Architectures)
    (pipeline_config : WholeConfig) : option Arch.SupportedArchitecture :=
  if negb (truthy_str (architecture (attributes pipeline_config))) then None
  else
    match engine (attributes pipeline_config) with
    | None | Some MAX =>
        match architecture (attributes pipeline_config) with
        | Some a => dict_get String.eqb a architectures
        | None => None
        end
    | Some HUGGINGFACE => None
    end.

(** The loop of [register_all_models]: [PIPELINE_REGISTRY.register(arch)]
    for each architecture in turn; the first refusal ends it, and the
    architectures registered before it stay. *)
Fixpoint register_all (archs : list Arch.SupportedArchitecture)
    (architectures : Architectures)
  : RegistryExn * Architectures + Architectures :=
  match archs with
  | [] => inr architectures
  | arch :: archs' =>
      match register arch architectures with
      | inl e => inl (e, architectures)
      | inr architectures' => register_all archs' architectures'
      end
  end.

(** [register_all_models], after its imports. *)
Definition register_all_models
    (replit_arch mistral_arch mpnet_arch qwen2_arch : Arch.SupportedArchitecture)
  : Architectures -> RegistryExn * Architectures + Architectures :=
  register_all [replit_arch; mistral_arch; mpnet_arch; qwen2_arch].

(** Every key of the dict is the name of the architecture stored under it. *)
Definition well_keyed (architectures : Architectures) : Prop :=
  forall n a, dict_get String.eqb n architectures = Some a -> Arch.name a = n.

(** The dicts that the methods of [PipelineRegistry] can produce. *)
Inductive reachable : Architectures -> Prop :=
| reachable_init archs : reachable (PipelineRegistry archs)
| reachable_register a d d' :
    reachable d -> register a d = inr d' -> reachable d'
| reachable_reset d : reachable d -> reachable (reset d).

(** An architecture of the examples, and a configuration that asks for an
    architecture by name. *)
Definition example_arch (n : string) (weights_mib : Z) : Arch.SupportedArchitecture :=
  {| Arch.name := n;
     Arch.example_repo_ids := [];
     Arch.default_encoding := float32;
     Arch.supported_encodings := [(float32, [CONTINUOUS]); (bfloat16, [CONTINUOUS])];
     Arch.pipeline_model := fun _ => product_model weights_mib;
     Arch.task := TEXT_GENERATION;
     Arch.tokenizer := TextTokenizer;
     Arch.default_weights_format := other_format "gguf";
     Arch.rope_type := none;
     Arch.weight_converters := [] |}.

Definition example_attributes (a : option string) (e : option PipelineEngine)
  : PipelineConfigAttributes :=
  {| architecture := a;
     engine := e;
     model_path := "modularai/llama-3.1";
     weight_path := [];
     quantization_encoding := None;
     cache_strategy := MODEL_DEFAULT;
     rope_type := None;
     device_specs := [{| device_type := "gpu" |}];
     _weights_converter := None;
     _weights_repo_id := None |}.

Definition asking_for (a : option string) (e : option PipelineEngine) : WholeConfig :=
  {| estimated := example_config None None 100;
     attributes := example_attributes a e |}.

(** ** Vocabulary of the searches *)

(** A batch size is feasible at the length [original_max_length] when the
    cache size of the configuration with these two values fits the budget. *)
Definition feasible_batch_size (model_cls : PipelineModel) (available : Z)
    (original_max_length : option Z) (c : PipelineConfig) (b : Z) : Prop :=
  kv_cache_size_of model_cls
    (set_max_batch_size (Some b) (set_max_length original_max_length c)) available
  <= available.

(** The cache size at the length [original_max_length] does not decrease
    when the batch size grows, for the batch sizes from 1 to [U]. *)
Definition batch_cost_monotone (model_cls : PipelineModel) (available : Z)
    (original_max_length : option Z) (c : PipelineConfig) (U : Z) : Prop :=
  forall b b',
    1 <= b -> b <= b' -> b' <= U ->
    kv_cache_size_of model_cls
      (set_max_batch_size (Some b) (set_max_length original_max_length c))
      available
    <= kv_cache_size_of model_cls
         (set_max_batch_size (Some b') (set_max_length original_max_length c))
         available.

(** The events that a run has recorded between two of its states. *)
Definition events_since (s s' : State) : list Event :=
  skipn (List.length (trace s)) (trace s').

(** A cache size that was measured is neither negative nor too large for
    the rendering in MiB. *)
Definition cache_size_in_range (model_cls : PipelineModel) (e : Event) : bool :=
  match e with
  | CalcKvCache c a =>
      (0 <=? kv_cache_size_of model_cls c a)
      && (kv_cache_size_of model_cls c a <? 2 ^ 999)
  | _ => true
  end.

(** A message offers a text when the text is part of it. *)
Definition offers (text msg : string) : Prop :=
  exists before after, msg = (before ++ text ++ after)%string.

(** A call of a cost function on a configuration whose length is within
    [[lower, upper]], and below [upper] when the interval holds more than one
    value. *)
Definition length_within (lower upper : Z) (e : Event) : Prop :=
  match e with
  | InferBatchSize c _ | CalcKvCache c _ =>
      exists L, max_length c = Some L
                /\ lower <= L <= upper /\ (lower < upper -> L < upper)
  | _ => False
  end.

Definition batch_size_within (lower upper : Z) (e : Event) : Prop :=
  match e with
  | CalcKvCache c _ =>
      exists b, max_batch_size c = Some b
                /\ lower <= b <= upper /\ (lower < upper -> b < upper)
  | _ => False
  end.

(** A configuration without devices: the sum of the free memory is 0. *)
Definition no_device_config (ml mb : option Z) : PipelineConfig :=
  {| max_length := ml;
     max_batch_size := mb;
     device_memory_utilization := float_0_9;
     devices := [];
     _available_cache_memory := None |}.

(** The floats from 0 to 1: a zero, or [m * 2 ^ e] with [m <= 2 ^ (- e)]. *)
Definition float_in_unit_interval (f : spec_float) : Prop :=
  match f with
  | S754_zero _ => True
  | S754_finite false m e => e <= 0 /\ Zpos m <= 2 ^ (- e)
  | _ => False
  end.

(** ** Validation of a configuration

    [validate_pipeline_config] works on the whole configuration object and
    asks other modules about files, encodings and devices.  Their answers
    are the fields of [World]; each is taken to return.  [str_encoding] and
    [str_strategy] are the texts that an f-string puts for a value of the
    enumeration ([None] included, for an encoding); [str_format] is [str]
    of a weights format. *)
Module Repo.

(** The object that [pipeline_config.huggingface_weights_repo()] returns. *)
Record HuggingFaceWeightsRepo := {
  repo_id : string;
  encoding_for_file : string -> option SupportedEncoding;
  supported_encodings : list SupportedEncoding;
  files_for_encoding :
    option SupportedEncoding -> option SupportedEncoding ->
    list (WeightsFormat * list string);
  file_exists : string -> bool
}.

End Repo.

Record World := {
  os_path_exists : string -> bool;
  parse_from_file_name : string -> option SupportedEncoding;
  path_suffix : string -> string;
  supported_on : SupportedEncoding -> DeviceSpec -> bool;
  is_host : Device -> bool;
  weights_format : WholeConfig -> WeightsFormat;
  update_architecture : WholeConfig -> WholeConfig;
  finalize_encoding_config : WholeConfig -> WholeConfig;
  huggingface_weights_repo : WholeConfig -> Repo.HuggingFaceWeightsRepo;
  str_encoding : option SupportedEncoding -> string;
  str_strategy : KVCacheStrategy -> string;
  str_format : WeightsFormat -> string
}.

(** Assignments to the attributes of the configuration object. *)
Definition set_attributes (f : PipelineConfigAttributes -> PipelineConfigAttributes)
    (c : WholeConfig) : WholeConfig :=
  {| estimated := estimated c; attributes := f (attributes c) |}.

Definition set_engine (v : option PipelineEngine) : WholeConfig -> WholeConfig :=
  set_attributes (fun a =>
    {| architecture := architecture a;
       engine := v;
       model_path := model_path a;
       weight_path := weight_path a;
       quantization_encoding := quantization_encoding a;
       cache_strategy := cache_strategy a;
       rope_type := rope_type a;
       device_specs := device_specs a;
       _weights_converter := _weights_converter a;
       _weights_repo_id := _weights_repo_id a |}).

Definition set_quantization_encoding (v : option SupportedEncoding)
  : WholeConfig -> WholeConfig :=
  set_attributes (fun a =>
    {| architecture := architecture a;
       engine := engine a;
       model_path := model_path a;
       weight_path := weight_path a;
       quantization_encoding := v;
       cache_strategy := cache_strategy a;
       rope_type := rope_type a;
       device_specs := device_specs a;
       _weights_converter := _weights_converter a;
       _weights_repo_id := _weights_repo_id a |}).

Definition set_weight_path (v : list string) : WholeConfig -> WholeConfig :=
  set_attributes (fun a =>
    {| architecture := architecture a;
       engine := engine a;
       model_path := model_path a;
       weight_path := v;
       quantization_encoding := quantization_encoding a;
       cache_strategy := cache_strategy a;
       rope_type := rope_type a;
       device_specs := device_specs a;
       _weights_converter := _weights_converter a;
       _weights_repo_id := _weights_repo_id a |}).

Definition set_weights_converter (v : option string) : WholeConfig -> WholeConfig :=
  set_attributes (fun a =>
    {| architecture := architecture a;
       engine := engine a;
       model_path := model_path a;
       weight_path := weight_path a;
       quantization_encoding := quantization_encoding a;
       cache_strategy := cache_strategy a;
       rope_type := rope_type a;
       device_specs := device_specs a;
       _weights_converter := v;
       _weights_repo_id := _weights_repo_id a |}).

Definition set_cache_strategy (v : KVCacheStrategy) : WholeConfig -> WholeConfig :=
  set_attributes (fun a =>
    {| architecture := architecture a;
       engine := engine a;
       model_path := model_path a;
       weight_path := weight_path a;
       quantization_encoding := quantization_encoding a;
       cache_strategy := v;
       rope_type := rope_type a;
       device_specs := device_specs a;
       _weights_converter := _weights_converter a;
       _weights_repo_id := _weights_repo_id a |}).

Definition set_rope_type (v : option RopeType) : WholeConfig -> WholeConfig :=
  set_attributes (fun a =>
    {| architecture := architecture a;
       engine := engine a;
       model_path := model_path a;
       weight_path := weight_path a;
       quantization_encoding := quantization_encoding a;
       cache_strategy := cache_strategy a;
       rope_type := v;
       device_specs := device_specs a;
       _weights_converter := _weights_converter a;
       _weights_repo_id := _weights_repo_id a |}).

(** What the validation does that an observer can see: its log records and
    the events of the memory estimation. *)
Inductive RegistryEvent :=
| Warning (msg : string)
| Debug (msg : string)
| Estimation (e : Event).

Record Validation := {
  pipeline_config : WholeConfig;
  records : list RegistryEvent
}.

(** The validation either raises or returns, and leaves the configuration
    object and the records behind in both cases. *)
Definition V (A : Type) : Type := Validation -> (RegistryExn + A) * Validation.

Definition v_ret {A} (a : A) : V A := fun v => (inr a, v).

Definition v_bind {A B} (m : V A) (k : A -> V B) : V B :=
  fun v =>
    match m v with
    | (inr a, v') => k a v'
    | (inl e, v') => (inl e, v')
    end.

Definition v_raise {A} (e : RegistryExn) : V A := fun v => (inl e, v).

Definition v_get : V WholeConfig := fun v => (inr (pipeline_config v), v).

Definition v_modify (f : WholeConfig -> WholeConfig) : V unit :=
  fun v => (inr tt, {| pipeline_config := f (pipeline_config v);
                       records := records v |}).

Definition v_log (e : RegistryEvent) : V unit :=
  fun v => (inr tt, {| pipeline_config := pipeline_config v;
                       records := records v ++ [e] |}).

Declare Scope validation_scope.
Delimit Scope validation_scope with validation.
Notation "x <- m ;; k" := (v_bind m (fun x => k))
  (at level 61, m at next level, right associativity) : validation_scope.
Notation "m ;;; k" := (v_bind m (fun _ => k))
  (at level 61, right associativity) : validation_scope.

(** Truth values and texts. *)
Definition is_nil {A} (l : list A) : bool :=
  match l with [] => true | _ => false end.

Definition is_Some {A} (o : option A) : bool :=
  match o with Some _ => true | None => false end.

Definition str_opt (o : option string) : string :=
  match o with Some s => s | None => "None" end.

Definition opt_encoding_eqb (a b : option SupportedEncoding) : bool :=
  match a, b with
  | Some x, Some y => SupportedEncoding_eqb x y
  | None, None => true
  | _, _ => false
  end.

Definition opt_engine_eqb (a b : option PipelineEngine) : bool :=
  match a, b with
  | Some x, Some y => PipelineEngine_eqb x y
  | None, None => true
  | _, _ => false
  end.

(** [d.get(k, [])]. *)
Definition dict_get_list {K V} (eqb : K -> K -> bool) (k : K)
    (d : list (K * list V)) : list V :=
  match dict_get eqb k d with
  | Some l => l
  | None => []
  end.

(** [_ALTERNATE_ENCODINGS.get(encoding)]. *)
Definition _ALTERNATE_ENCODINGS_get (encoding : option SupportedEncoding)
  : option SupportedEncoding :=
  match encoding with
  | Some float32 => Some bfloat16
  | Some bfloat16 => Some float32
  | _ => None
  end.

(** [encoding in arch.supported_encodings], for an encoding that may be
    [None]. *)
Definition encoding_supported (encoding : option SupportedEncoding)
    (arch : Arch.SupportedArchitecture) : bool :=
  match encoding with
  | Some e => dict_mem SupportedEncoding_eqb e (Arch.supported_encodings arch)
  | None => false
  end.

Definition arch_not_available_failing (c : WholeConfig) : string :=
  "optimized architecture not available for"
  ++ " '" ++ str_opt (architecture (attributes c))
  ++ "', failing as engine is provided as 'MAX'".

Definition arch_not_available_falling_back (c : WholeConfig) : string :=
  "optimized architecture not available for"
  ++ " '" ++ str_opt (architecture (attributes c)) ++ "' falling back to"
  ++ " HuggingFace.".

Definition safetensors_message : string :=
  "If a local safetensors file is provided, please provide a quantization_encoding.".

Definition unsupported_devices_hint : string :=
  "Please use the flag --devices=cpu or --devices=gpu to configure the device.".

Open Scope validation_scope.

Section Validate.

Variable world : World.

(** [self.architectures]: validation does not change it. *)
Variable architectures : Architectures.

Definition inconsistent_encoding_message (p0 : string)
    (file_encoding quantization_encoding : option SupportedEncoding) : string :=
  "weight_path provided '" ++ p0 ++ "' has an inconsistent encoding '"
  ++ str_encoding world file_encoding
  ++ "' than quantization_encoding provided '"
  ++ str_encoding world quantization_encoding ++ "'. Please update one.".

Definition encoding_inferred_message (encoding : SupportedEncoding) : string :=
  "encoding inferred from weights file: " ++ str_encoding world (Some encoding).

Definition encoding_cannot_be_inferred_message (p0 : string) : string :=
  "encoding cannot be inferred from weights file: " ++ p0
  ++ ", please pass a quantization_encoding explictly.".

Definition repo_only_has_message (e : SupportedEncoding) : string :=
  "huggingface repo only has '" ++ str_encoding world (Some e)
  ++ "' weights, using '" ++ str_encoding world (Some e) ++ "'".

Definition default_encoding_message (arch : Arch.SupportedArchitecture) : string :=
  "encoding not provided, using default encoding of "
  ++ str_encoding world (Some (Arch.default_encoding arch)).

Definition not_supported_unable_message (qe : option SupportedEncoding) : string :=
  "quantization_encoding of '" ++ str_encoding world qe
  ++ "' not supported by MAX engine, unable to run with engine = 'max'.".

Definition not_supported_falling_back_message (qe : option SupportedEncoding)
  : string :=
  "quantization_encoding of '" ++ str_encoding world qe
  ++ "' not supported by MAX engine, falling back to HuggingFace.".

Definition not_supported_on_message (qe : option SupportedEncoding)
    (device_spec : DeviceSpec) : string :=
  str_encoding world qe ++ " is not supported on " ++ device_type device_spec
  ++ ". " ++ unsupported_devices_hint.

Definition no_gguf_weights_message (qe : option SupportedEncoding)
    (repo : Repo.HuggingFaceWeightsRepo) : string :=
  "compatible weights cannot be found for '" ++ str_encoding world qe
  ++ "' in 'gguf' format, in the provided repo: '" ++ Repo.repo_id repo ++ "'".

Definition no_weights_message (qe : option SupportedEncoding)
    (arch : Arch.SupportedArchitecture) (repo : Repo.HuggingFaceWeightsRepo)
  : string :=
  let formats :=
    str_format world (Arch.default_weights_format arch)
    :: map (fun converter => str_format world (fst converter))
         (Arch.weight_converters arch) in
  "compabible weights cannot be found for '" ++ str_encoding world qe
  ++ "' in any supported format: [" ++ String.concat ", " formats
  ++ "], in the provided repo: '" ++ Repo.repo_id repo ++ "'".

Definition default_strategy_message (default_strategy : KVCacheStrategy) : string :=
  "default cache_strategy of '" ++ str_strategy world default_strategy
  ++ "' enabled".

Definition strategy_not_supported_message (c : WholeConfig)
    (supported_strategy : KVCacheStrategy) : string :=
  "cache_strategy = '" ++ str_strategy world (cache_strategy (attributes c))
  ++ "' not supported for '"
  ++ str_encoding world (quantization_encoding (attributes c))
  ++ "', using '" ++ str_strategy world supported_strategy
  ++ "' cache strategy.".

Definition weight_path_missing_message (c : WholeConfig) (path : string) : string :=
  "weight_path: '" ++ path ++ "' does not exist locally, and"
  ++ " '" ++ model_path (attributes c) ++ "/" ++ path ++ "' does"
  ++ " not exist on HuggingFace.".

(** The first part of the validation of the encoding: the chain of
    [if]/[elif] that checks a given [quantization_encoding] against the
    weights file, or infers one. *)
Definition resolve_quantization_encoding (arch : Arch.SupportedArchitecture)
    (huggingface_weights_repo : Repo.HuggingFaceWeightsRepo) : V unit :=
  c <- v_get ;;
  let weight_path := weight_path (attributes c) in
  let quantization_encoding := quantization_encoding (attributes c) in
  let p0 := hd EmptyString weight_path in
  if negb (is_nil weight_path) && is_Some quantization_encoding
     && negb (WeightsFormat_eqb (weights_format world c) pytorch) then
    let file_encoding :=
      if os_path_exists world p0 then parse_from_file_name world p0
      else Repo.encoding_for_file huggingface_weights_repo p0 in
    if is_Some file_encoding then
      if negb (opt_encoding_eqb file_encoding quantization_encoding) then
        v_raise (ValueError_ (inconsistent_encoding_message p0 file_encoding
                                quantization_encoding))
      else v_ret tt
    else v_ret tt
  else if negb (is_nil weight_path) && negb (is_Some quantization_encoding)
          && negb (WeightsFormat_eqb (weights_format world c) pytorch) then
    if os_path_exists world p0 then
      if String.eqb (path_suffix world p0) ".safetensors" then
        v_raise (ValueError_ safetensors_message)
      else
        match parse_from_file_name world p0 with
        | Some encoding =>
            v_log (Debug (encoding_inferred_message encoding)) ;;;
            v_modify (set_quantization_encoding (Some encoding))
        | None => v_ret tt
        end
    else
      match Repo.encoding_for_file huggingface_weights_repo p0 with
      | Some encoding =>
          v_log (Debug (encoding_inferred_message encoding)) ;;;
          v_modify (set_quantization_encoding (Some encoding))
      | None =>
          v_raise (ValueError_ (encoding_cannot_be_inferred_message p0))
      end
  else if negb (is_Some quantization_encoding) then
    match Repo.supported_encodings huggingface_weights_repo with
    | [e] =>
        v_log (Debug (repo_only_has_message e)) ;;;
        v_modify (set_quantization_encoding (Some e))
    | _ =>
        match devices (estimated c) with
        | [] => v_raise IndexError_
        | d :: _ =>
            if negb (is_host world d)
               && dict_mem SupportedEncoding_eqb bfloat16
                    (Arch.supported_encodings arch) then
              v_modify (set_quantization_encoding (Some bfloat16))
            else
              v_log (Debug (default_encoding_message arch)) ;;;
              v_modify (set_quantization_encoding
                          (Some (Arch.default_encoding arch)))
        end
    end
  else v_ret tt.

(** The loop over [pipeline_config.device_specs]. *)
Fixpoint check_supported_on (device_specs : list DeviceSpec) : V unit :=
  match device_specs with
  | [] => v_ret tt
  | device_spec :: rest =>
      c <- v_get ;;
      match quantization_encoding (attributes c) with
      | None => v_raise AttributeError_
      | Some e =>
          if negb (supported_on world e device_spec) then
            v_raise (ValueError_
                       (not_supported_on_message (Some e) device_spec))
          else check_supported_on rest
      end
  end.

(** The loop over [arch.weight_converters.items()], up to its [break]. *)
Fixpoint first_converter_with_files
    (weight_files : list (WeightsFormat * list string))
    (weight_converters : list (WeightsFormat * string)) : V unit :=
  match weight_converters with
  | [] => v_ret tt
  | (converter_format, converter) :: rest =>
      match dict_get_list WeightsFormat_eqb converter_format weight_files with
      | [] => first_converter_with_files weight_files rest
      | converter_format_files =>
          v_modify (set_weight_path converter_format_files) ;;;
          v_modify (set_weights_converter (Some converter))
      end
  end.

(** The default weight files, when no [weight_path] was given. *)
Definition find_weight_path (arch : Arch.SupportedArchitecture)
    (huggingface_weights_repo : Repo.HuggingFaceWeightsRepo) : V unit :=
  c <- v_get ;;
  if is_nil (weight_path (attributes c)) then
    let alternate_encoding :=
      _ALTERNATE_ENCODINGS_get (quantization_encoding (attributes c)) in
    let weight_files :=
      Repo.files_for_encoding huggingface_weights_repo
        (quantization_encoding (attributes c)) alternate_encoding in
    match dict_get_list WeightsFormat_eqb (Arch.default_weights_format arch)
            weight_files with
    | [] => first_converter_with_files weight_files (Arch.weight_converters arch)
    | default_weight_files => v_modify (set_weight_path default_weight_files)
    end
  else v_ret tt.

(** The two errors for weights that cannot be found. *)
Definition require_weight_path (arch : Arch.SupportedArchitecture)
    (huggingface_weights_repo : Repo.HuggingFaceWeightsRepo) : V unit :=
  c <- v_get ;;
  if is_nil (weight_path (attributes c)) then
    let qe := quantization_encoding (attributes c) in
    if negb (opt_encoding_eqb qe (Some bfloat16) || opt_encoding_eqb qe (Some float32))
    then v_raise (ValueError_ (no_gguf_weights_message qe huggingface_weights_repo))
    else v_raise (ValueError_ (no_weights_message qe arch huggingface_weights_repo))
  else v_ret tt.

(** The choice of the cache strategy. *)
Definition resolve_cache_strategy (arch : Arch.SupportedArchitecture) : V unit :=
  c <- v_get ;;
  let supported_cache_strategies :=
    match quantization_encoding (attributes c) with
    | Some e =>
        dict_get_list SupportedEncoding_eqb e (Arch.supported_encodings arch)
    | None => []
    end in
  match supported_cache_strategies with
  | [] => v_ret tt
  | first_strategy :: _ =>
      if KVCacheStrategy_eqb (cache_strategy (attributes c)) MODEL_DEFAULT then
        v_log (Debug (default_strategy_message first_strategy)) ;;;
        v_modify (set_cache_strategy first_strategy)
      else if negb (existsb (KVCacheStrategy_eqb (cache_strategy (attributes c)))
                      supported_cache_strategies) then
        v_log (Warning (strategy_not_supported_message c first_strategy)) ;;;
        v_modify (set_cache_strategy first_strategy)
      else v_ret tt
  end.

(** The loop over [pipeline_config.weight_path]. *)
Fixpoint check_weight_paths
    (huggingface_weights_repo : Repo.HuggingFaceWeightsRepo)
    (paths : list string) : V unit :=
  match paths with
  | [] => v_ret tt
  | path :: rest =>
      c <- v_get ;;
      if negb (os_path_exists world path)
         && negb (Repo.file_exists huggingface_weights_repo path) then
        v_raise (ValueError_ (weight_path_missing_message c path))
      else check_weight_paths huggingface_weights_repo rest
  end.

(** [self._estimate_memory_footprint(pipeline_config, arch)]: the estimation
    runs on the [estimated] part of the object, with the class methods of
    [arch.pipeline_model] that see the other attributes as they are now. *)
Definition call_estimate_memory_footprint (arch : Arch.SupportedArchitecture)
  : V unit :=
  fun v =>
    let c := pipeline_config v in
    let '(outcome, s') :=
      _estimate_memory_footprint (Arch.pipeline_model arch (attributes c))
        {| config := estimated c; trace := [] |} in
    let v' := {| pipeline_config := {| estimated := config s';
                                       attributes := attributes c |};
                 records := records v ++ map Estimation (trace s') |} in
    match outcome with
    | Done _ => (inr tt, v')
    | Raise e => (inl (EstimationError e), v')
    | Fuel_exhausted => (inl OutOfFuel_, v')
    end.

(** [validate_pipeline_config] from the check of the devices on: the
    weights, the cache strategy, the memory estimation. *)
Definition validate_weights_and_memory (arch : Arch.SupportedArchitecture)
    (huggingface_weights_repo : Repo.HuggingFaceWeightsRepo) : V unit :=
  c <- v_get ;;
  check_supported_on (device_specs (attributes c)) ;;;
  v_modify (finalize_encoding_config world) ;;;
  find_weight_path arch huggingface_weights_repo ;;;
  require_weight_path arch huggingface_weights_repo ;;;
  resolve_cache_strategy arch ;;;
  c <- v_get ;;
  (if is_nil (weight_path (attributes c))
   then v_raise (AssertionError_ "weight_path must be provided.")
   else v_ret tt) ;;;
  check_weight_paths huggingface_weights_repo (weight_path (attributes c)) ;;;
  c <- v_get ;;
  (if is_Some (rope_type (attributes c)) then v_ret tt
   else v_modify (set_rope_type (Some (Arch.rope_type arch)))) ;;;
  call_estimate_memory_footprint arch ;;;
  v_modify (set_engine (Some MAX)).

(** [validate_pipeline_config].  It returns the configuration object that
    it was given: the one of the state. *)
Definition validate_pipeline_config : V unit :=
  v_modify (update_architecture world) ;;;
  c <- v_get ;;
  match architecture_details architectures c with
  | None =>
      if opt_engine_eqb (engine (attributes c)) (Some MAX) then
        v_raise (ValueError_ (arch_not_available_failing c))
      else
        v_log (Warning (arch_not_available_falling_back c)) ;;;
        v_modify (set_engine (Some HUGGINGFACE))
  | Some arch =>
      let huggingface_weights_repo := huggingface_weights_repo world c in
      resolve_quantization_encoding arch huggingface_weights_repo ;;;
      c <- v_get ;;
      if negb (encoding_supported (quantization_encoding (attributes c)) arch)
      then
        if opt_engine_eqb (engine (attributes c)) (Some MAX) then
          v_raise (ValueError_
                     (not_supported_unable_message
                        (quantization_encoding (attributes c))))
        else
          v_log (Warning (not_supported_falling_back_message
                            (quantization_encoding (attributes c)))) ;;;
          v_modify (set_engine (Some HUGGINGFACE))
      else validate_weights_and_memory arch huggingface_weights_repo
  end.

End Validate.

Close Scope validation_scope.

(** The cache strategy of a configuration is one of those that the
    architecture lists for its encoding, if it lists any. *)
Definition cache_strategy_supported (arch : Arch.SupportedArchitecture)
    (c : WholeConfig) : Prop :=
  forall e,
    quantization_encoding (attributes c) = Some e ->
    dict_get_list SupportedEncoding_eqb e (Arch.supported_encodings arch) <> [] ->
    existsb (KVCacheStrategy_eqb (cache_strategy (attributes c)))
      (dict_get_list SupportedEncoding_eqb e (Arch.supported_encodings arch))
    = true.

(** Every weight file exists locally or in the repository. *)
Definition weight_paths_exist (world : World) (repo : Repo.HuggingFaceWeightsRepo)
    (c : WholeConfig) : Prop :=
  Forall (fun path => os_path_exists world path || Repo.file_exists repo path = true)
    (weight_path (attributes c)).

(** Records of the validation itself, as opposed to events of the memory
    estimation. *)
Definition is_log (e : RegistryEvent) : bool :=
  match e with
  | Estimation _ => false
  | _ => true
  end.

(** A world of the examples: the weight files are local files, named after
    their encoding, and every encoding runs on every device. *)
Definition example_repo : Repo.HuggingFaceWeightsRepo :=
  {| Repo.repo_id := "modularai/llama-3.1";
     Repo.encoding_for_file := fun _ => None;
     Repo.supported_encodings := [float32; bfloat16];
     Repo.files_for_encoding :=
       fun _ _ => [(other_format "gguf", ["llama-3.1-8b-instruct-f32.gguf"])];
     Repo.file_exists := fun _ => true |}.

Definition example_world : World :=
  {| os_path_exists := fun _ => false;
     parse_from_file_name := fun _ => None;
     path_suffix := fun _ => ".gguf";
     supported_on := fun _ _ => true;
     is_host := fun _ => true;
     weights_format := fun _ => other_format "gguf";
     update_architecture := fun c => c;
     finalize_encoding_config := fun c => c;
     huggingface_weights_repo := fun _ => example_repo;
     str_encoding := fun e => match e with
                              | Some float32 => "float32"
                              | Some bfloat16 => "bfloat16"
                              | Some (other_encoding v) => v
                              | None => "None"
                              end;
     str_strategy := fun s => match s with
                              | MODEL_DEFAULT => "model_default"
                              | CONTINUOUS => "continuous"
                              | other_strategy v => v
                              end;
     str_format := fun f => match f with
                            | pytorch => "pytorch"
                            | other_format v => v
                            end |}.

Definition validating (c : WholeConfig) : Validation :=
  {| pipeline_config := c; records := [] |}.

(** ** Reasoning about the floats

    Rounding an integer of fewer than 1000 bits never overflows, so the
    conversions and the rendering in MiB succeed on such sizes. *)

Lemma digits2_pos_size p : digits2_pos p = Pos.size p.
Proof. induction p; cbn; congruence. Qed.

Lemma Zdigits2_log2 m : 0 < m -> Zdigits2 m = Z.log2 m + 1.
Proof.
  destruct m as [|p|p]; try lia. intros _. cbn [Zdigits2].
  rewrite digits2_pos_size. destruct p; cbn; lia.
Qed.

Lemma Zdigits2_nonneg m : 0 <= Zdigits2 m.
Proof. destruct m; cbn; lia. Qed.

Lemma Zdigits2_succ m : 0 <= m -> Zdigits2 (m + 1) <= Zdigits2 m + 1.
Proof.
  intros H. destruct (Z.eq_dec m 0) as [->|Hne]; [cbn; lia|].
  rewrite !Zdigits2_log2 by lia.
  pose proof (Z.log2_succ_le m). unfold Z.succ in *. lia.
Qed.

Lemma Zdigits2_div_pow2 m k :
  0 <= m -> 0 <= k -> Zdigits2 (m / 2 ^ k) <= Z.max 0 (Zdigits2 m - k).
Proof.
  intros Hm Hk.
  destruct (Z.eq_dec m 0) as [->|Hne].
  { rewrite Z.div_0_l by (apply Z.pow_nonzero; lia). cbn. lia. }
  assert (0 <= m / 2 ^ k) by (apply Z.div_pos; [lia|apply Z.pow_pos_nonneg; lia]).
  destruct (Z.eq_dec (m / 2 ^ k) 0) as [->|Hq]; [cbn; lia|].
  rewrite !Zdigits2_log2 by lia.
  rewrite <- Z.shiftr_div_pow2 by lia.
  rewrite Z.log2_shiftr by lia. 
  rewrite <- Z.shiftr_div_pow2 in Hq by lia.
  destruct (Z.le_gt_cases k (Z.log2 m)); [lia|].
  exfalso. apply Hq. apply Z.shiftr_eq_0; lia.
Qed.

Lemma shr_1_m r : 0 <= shr_m r -> shr_m (shr_1 r) = shr_m r / 2.
Proof.
  destruct r as [m r s]. cbn [shr_m shr_1]. intros H.
  destruct m as [|[p|p|]|p]; try lia; cbn [shr_m].
  all: try reflexivity.
  all: Z.div_mod_to_equations; lia.
Qed.

Lemma pow2_xO n : 2 ^ Zpos n~0 = 2 ^ Zpos n * 2 ^ Zpos n.
Proof. rewrite Pos2Z.inj_xO, <- Z.pow_add_r by lia. f_equal. lia. Qed.

Lemma pow2_xI n : 2 ^ Zpos n~1 = 2 * (2 ^ Zpos n * 2 ^ Zpos n).
Proof.
  rewrite Pos2Z.inj_xI, <- Z.pow_add_r, <- Z.pow_succ_r by lia. f_equal. lia.
Qed.

Lemma iter_pos_shr_m n : forall r,
  0 <= shr_m r ->
  0 <= shr_m (iter_pos shr_1 n r) /\
  shr_m (iter_pos shr_1 n r) = shr_m r / 2 ^ Zpos n.
Proof.
  assert (Hpos : forall k, 0 < 2 ^ Zpos k) by (intros; apply Z.pow_pos_nonneg; lia).
  induction n as [n IH|n IH|]; intros r Hr; cbn [iter_pos].
  - assert (H1 : 0 <= shr_m (shr_1 r)).
    { rewrite shr_1_m by lia. apply Z.div_pos; lia. }
    destruct (IH _ H1) as [H2 E2]. destruct (IH _ H2) as [H3 E3].
    split; [exact H3|]. rewrite E3, E2, shr_1_m by lia.
    pose proof (Hpos n).
    rewrite !Z.div_div by lia.
    now rewrite pow2_xI.
  - destruct (IH _ Hr) as [H2 E2]. destruct (IH _ H2) as [H3 E3].
    split; [exact H3|]. rewrite E3, E2.
    pose proof (Hpos n).
    rewrite !Z.div_div by lia.
    now rewrite pow2_xO.
  - rewrite shr_1_m by lia. split; [apply Z.div_pos; lia|]. reflexivity.
Qed.

Lemma fexp_53 x : fexp 53 1024 x = Z.max (x - 53) (-1074).
Proof. reflexivity. Qed.

Lemma shr_record_of_loc_m m l : shr_m (shr_record_of_loc m l) = m.
Proof. destruct l as [|[]]; reflexivity. Qed.

Lemma shr_fexp_spec m e l :
  0 <= m ->
  0 <= shr_m (fst (shr_fexp 53 1024 m e l))
  /\ snd (shr_fexp 53 1024 m e l) = Z.max e (fexp 53 1024 (Zdigits2 m + e))
  /\ shr_m (fst (shr_fexp 53 1024 m e l))
     = m / 2 ^ (snd (shr_fexp 53 1024 m e l) - e).
Proof.
  intros Hm. unfold shr_fexp, shr.
  destruct (fexp 53 1024 (Zdigits2 m + e) - e) as [|p|p] eqn:E; cbn [fst snd].
  - rewrite shr_record_of_loc_m, Z.sub_diag, Z.div_1_r. lia.
  - destruct (iter_pos_shr_m p (shr_record_of_loc m l)) as [H1 H2].
    { now rewrite shr_record_of_loc_m. }
    rewrite shr_record_of_loc_m in H2.
    split; [exact H1|]. split; [lia|].
    rewrite H2. f_equal. f_equal. lia.
  - rewrite shr_record_of_loc_m, Z.sub_diag, Z.div_1_r. lia.
Qed.

Lemma round_nearest_even_bounds m l :
  m <= round_nearest_even m l <= m + 1.
Proof.
  destruct l as [|[]]; cbn; try lia. destruct (Z.even m); lia.
Qed.

Lemma Zdigits2_le m n : 0 <= m -> m <= n -> Zdigits2 m <= Zdigits2 n.
Proof.
  intros H0 H. destruct (Z.eq_dec m 0) as [->|Hne].
  { cbn. apply Zdigits2_nonneg. }
  rewrite !Zdigits2_log2 by lia. pose proof (Z.log2_le_mono m n H). lia.
Qed.

Lemma binary_round_aux_bounded sx mx ex lx :
  0 <= mx -> ex <= 971 -> Zdigits2 mx + ex <= 1023 ->
  bounded_float (binary_round_aux 53 1024 sx mx ex lx).
Proof.
  intros Hm He Hd. unfold binary_round_aux.
  destruct (shr_fexp_spec mx ex lx Hm) as (H1 & H2 & H3).
  destruct (shr_fexp 53 1024 mx ex lx) as [r' e']. cbn [fst snd] in *.
  pose proof (round_nearest_even_bounds (shr_m r') (loc_of_shr_record r')) as Hr.
  set (mr := round_nearest_even (shr_m r') (loc_of_shr_record r')) in *.
  assert (Hmr : 0 <= mr) by lia.
  destruct (shr_fexp_spec mr e' loc_Exact Hmr) as (K1 & K2 & K3).
  destruct (shr_fexp 53 1024 mr e' loc_Exact) as [r'' e'']. cbn [fst snd] in *.
  rewrite fexp_53 in *.
  assert (Hdm' : Zdigits2 (shr_m r') <= Z.max 0 (Zdigits2 mx - (e' - ex))).
  { rewrite H3. apply Zdigits2_div_pow2; lia. }
  assert (Hdmr : Zdigits2 mr <= Zdigits2 (shr_m r') + 1).
  { etransitivity; [apply (Zdigits2_le mr (shr_m r' + 1)); lia|].
    apply Zdigits2_succ; lia. }
  assert (Hdm'' : Zdigits2 (shr_m r'') <= Z.max 0 (Zdigits2 mr - (e'' - e'))).
  { rewrite K3. apply Zdigits2_div_pow2; lia. }
  pose proof (Zdigits2_nonneg mx). pose proof (Zdigits2_nonneg mr).
  destruct (shr_m r'') as [|m|m] eqn:Em; cbn [bounded_float]; try lia; try exact I.
  assert (e'' <= 971) by lia.
  destruct (Z.leb_spec e'' (1024 - 53)); [|lia].
  cbn [bounded_float]. cbn [Zdigits2] in Hdm''. lia.
Qed.

Lemma digits2_pos_iter_xO m d :
  Zpos (digits2_pos (Pos.iter xO m d)) = Zpos (digits2_pos m) + Zpos d.
Proof.
  induction d using Pos.peano_ind.
  - cbn. lia.
  - rewrite Pos.iter_succ. cbn [digits2_pos]. lia.
Qed.

Lemma binary_normalize_bounded z e :
  e <= 971 -> Zdigits2 z + e <= 1023 ->
  bounded_float (binary_normalize 53 1024 z e false).
Proof.
  intros He Hd.
  assert (Hround : forall s m, Zpos (digits2_pos m) + e <= 1023 ->
                               bounded_float (binary_round 53 1024 s m e)).
  { intros s m Hm. unfold binary_round, shl_align.
    destruct (fexp 53 1024 (Z.pos (digits2_pos m) + e) - e) as [|p|p] eqn:E;
      apply binary_round_aux_bounded; cbn [Zdigits2]; try lia.
    rewrite digits2_pos_iter_xO. lia. }
  destruct z; cbn [binary_normalize bounded_float Zdigits2] in *; auto.
Qed.

Lemma Zdigits2_lt_pow2 z k : 0 <= k -> Z.abs z < 2 ^ k -> Zdigits2 z <= k.
Proof.
  intros Hk Hz.
  assert (H : forall p, Zpos p < 2 ^ k -> Zdigits2 (Zpos p) <= k).
  { intros p Hp. rewrite Zdigits2_log2 by lia.
    assert (Z.log2 (Zpos p) < k) by (apply Z.log2_lt_pow2; lia). lia. }
  destruct z; cbn [Zdigits2]; [lia|apply (H p Hz)|apply (H p Hz)].
Qed.

Lemma Zdigits2_shiftl m s :
  0 < m -> 0 <= s -> Zdigits2 (Z.shiftl m s) = Zdigits2 m + s.
Proof.
  intros Hm Hs. rewrite Z.shiftl_mul_pow2 by lia.
  assert (0 < 2 ^ s) by (apply Z.pow_pos_nonneg; lia).
  rewrite !Zdigits2_log2 by nia.
  rewrite Z.log2_mul_pow2 by lia. lia.
Qed.

Lemma float_div_1024_bounded f :
  bounded_float f -> bounded_float (float_div f float_1024).
Proof.
  destruct f as [s| | |s m e]; cbn [bounded_float]; try tauto.
  intros [Hd He]. unfold float_div, float_1024, SFdiv, SFdiv_core_binary.
  change (Zdigits2 4503599627370496) with 53.
  cbn [Zdigits2]. rewrite fexp_53.
  set (d1 := Zpos (digits2_pos m)) in *.
  set (e' := Z.min (Z.max (d1 + e - (53 + -42) - 53) (-1074)) (e - -42)).
  set (sh := e - -42 - e').
  set (m' := match sh with
             | 0 => Z.pos m
             | Z.pos _ => Z.shiftl (Z.pos m) sh
             | Z.neg _ => 0
             end).
  assert (Hsh : 0 <= sh) by (subst sh e'; lia).
  assert (Hm' : 0 <= m' /\ Zdigits2 m' <= d1 + sh).
  { subst m'. destruct sh as [|p|p] eqn:E; [cbn [Zdigits2]; lia| |lia].
    rewrite Zdigits2_shiftl by lia. cbn [Zdigits2].
    split; [apply Z.shiftl_nonneg|]; lia. }
  destruct Hm' as [Hm'0 Hm'd].
  pose proof (Zdigits2_div_pow2 m' 52 Hm'0 ltac:(lia)) as Hq.
  change (2 ^ 52) with 4503599627370496 in Hq.
  assert (Hq0 : 0 <= m' / 4503599627370496) by (apply Z.div_pos; lia).
  unfold Z.div in Hq, Hq0.
  destruct (Z.div_eucl m' 4503599627370496) as [q r]. cbn [fst] in *.
  apply binary_round_aux_bounded; subst e'; lia.
Qed.

Lemma _to_mib_ok bytes : Z.abs bytes < 2 ^ 1000 -> exists m, _to_mib bytes = inr m.
Proof.
  intros Hb. unfold _to_mib, int_truediv_1024.
  pose proof (binary_normalize_bounded bytes (-10) ltac:(lia)) as Hn.
  pose proof (Zdigits2_lt_pow2 bytes 1000 ltac:(lia) Hb) as Hd.
  specialize (Hn ltac:(lia)).
  assert (Hdiv : forall f, bounded_float f ->
                           exists m, py_round (float_div f float_1024) = inr m).
  { intros f Hf. apply float_div_1024_bounded in Hf.
    destruct (float_div f float_1024); cbn in *; try tauto; eauto. }
  destruct (binary_normalize 53 1024 bytes (-10) false) eqn:E;
    cbn [bounded_float bind_exn] in *; try tauto; apply Hdiv; cbn; auto.
Qed.

Lemma float_of_int_ok z :
  Z.abs z < 2 ^ 1000 ->
  exists f, float_of_int z = inr f /\ bounded_float f.
Proof.
  intros Hz. unfold float_of_int.
  pose proof (binary_normalize_bounded z 0 ltac:(lia)) as Hn.
  pose proof (Zdigits2_lt_pow2 z 1000 ltac:(lia) Hz) as Hd.
  specialize (Hn ltac:(lia)).
  destruct (binary_normalize 53 1024 z 0 false) eqn:E;
    cbn [bounded_float] in *; try tauto; eauto.
Qed.

(** ** The high-water-mark test in exact arithmetic *)

Lemma Zpos_iter_xO m d : Zpos (Pos.iter xO m d) = Zpos m * 2 ^ Zpos d.
Proof.
  induction d using Pos.peano_ind.
  - cbn. lia.
  - rewrite Pos.iter_succ, Pos2Z.inj_succ, Z.pow_succ_r by lia.
    rewrite Pos2Z.inj_xO, IHd. lia.
Qed.

(** A mantissa of exactly 53 bits with an exponent in range is left as it is. *)
Lemma binary_round_aux_canonical sx m e :
  Zpos (digits2_pos m) = 53 -> -1074 <= e <= 971 ->
  binary_round_aux 53 1024 sx (Zpos m) e loc_Exact = S754_finite sx m e.
Proof.
  intros Hd He. unfold binary_round_aux, shr_fexp. cbn [Zdigits2].
  rewrite Hd, fexp_53.
  replace (Z.max (53 + e - 53) (-1074) - e) with 0 by lia.
  cbn [shr shr_record_of_loc loc_of_shr_record shr_m round_nearest_even Zdigits2].
  rewrite Hd, fexp_53.
  replace (Z.max (53 + e - 53) (-1074) - e) with 0 by lia.
  cbn [shr shr_m]. destruct (Z.leb_spec e (1024 - 53)); [reflexivity|lia].
Qed.

(** Conversion of a positive integer of at most 52 bits is exact. *)
Lemma float_of_int_small free :
  0 < free < 2 ^ 52 ->
  exists mf d,
    float_of_int free = inr (S754_finite false mf (- Zpos d))
    /\ Zpos mf = free * 2 ^ Zpos d
    /\ Zpos (digits2_pos mf) = 53
    /\ Zpos d = 53 - Zdigits2 free.
Proof.
  intros [H0 H1]. destruct free as [|p|p]; try lia.
  assert (Hd : Zpos (digits2_pos p) <= 52).
  { apply (Zdigits2_lt_pow2 (Zpos p) 52); lia. }
  unfold float_of_int. cbn [binary_normalize]. unfold binary_round, shl_align.
  rewrite Z.add_0_r, fexp_53.
  destruct (Z.max (Z.pos (digits2_pos p) - 53) (-1074) - 0) as [|q|q] eqn:E;
    try lia.
  assert (Hq : Zpos q = 53 - Zpos (digits2_pos p)) by lia.
  rewrite binary_round_aux_canonical.
  - exists (Pos.iter xO p q), q. split; [f_equal; f_equal; lia|].
    split; [apply Zpos_iter_xO|]. split; [rewrite digits2_pos_iter_xO; lia|].
    cbn [Zdigits2]. lia.
  - rewrite digits2_pos_iter_xO. lia.
  - lia.
Qed.

(** Rounding a mantissa of at least 53 bits, away from the ends of the
    exponent range: the result is finite, and within one unit of the 53-bit
    quotient. *)
Lemma binary_round_aux_near sx mx ex lx :
  53 <= Zdigits2 mx -> 0 < mx ->
  -1074 <= ex -> ex + (Zdigits2 mx - 53) + 1 <= 971 ->
  exists m j,
    binary_round_aux 53 1024 sx mx ex lx
    = S754_finite sx m (ex + (Zdigits2 mx - 53) + j)
    /\ 0 <= j <= 1
    /\ mx / 2 ^ (Zdigits2 mx - 53) - 1 <= Zpos m * 2 ^ j
       <= mx / 2 ^ (Zdigits2 mx - 53) + 1.
Proof.
  intros Hd Hm He1 He2. unfold binary_round_aux.
  destruct (shr_fexp_spec mx ex lx ltac:(lia)) as (H1 & H2 & H3).
  destruct (shr_fexp 53 1024 mx ex lx) as [r' e']. cbn [fst snd] in *.
  pose proof (round_nearest_even_bounds (shr_m r') (loc_of_shr_record r')) as Hr.
  set (mr := round_nearest_even (shr_m r') (loc_of_shr_record r')) in *.
  assert (Hmr : 0 <= mr) by lia.
  destruct (shr_fexp_spec mr e' loc_Exact Hmr) as (K1 & K2 & K3).
  destruct (shr_fexp 53 1024 mr e' loc_Exact) as [r'' e'']. cbn [fst snd] in *.
  rewrite fexp_53 in *.
  set (k := Zdigits2 mx - 53) in *.
  assert (He' : e' = ex + k) by (subst k; lia).
  replace (e' - ex) with k in H3 by lia.
  assert (Hk : 0 <= k) by (subst k; lia).
  assert (Hpk : 0 < 2 ^ k) by (apply Z.pow_pos_nonneg; lia).
  (* the quotient has exactly 53 bits *)
  assert (Hlow : 2 ^ 52 <= shr_m r').
  { rewrite H3. apply Z.div_le_lower_bound; [lia|].
    rewrite <- Z.pow_add_r by lia.
    rewrite (Zdigits2_log2 mx Hm) in *.
    replace (k + 52) with (Z.log2 mx) by (subst k; lia).
    apply Z.log2_spec. exact Hm. }
  assert (Hdm' : Zdigits2 (shr_m r') <= 53).
  { rewrite H3. pose proof (Zdigits2_div_pow2 mx k ltac:(lia) Hk). subst k. lia. }
  assert (Hdmr : Zdigits2 mr <= 54).
  { pose proof (Zdigits2_le mr (shr_m r' + 1) Hmr ltac:(lia)).
    pose proof (Zdigits2_succ (shr_m r') H1). lia. }
  set (j := e'' - e') in *.
  assert (Hj : 0 <= j <= 1) by (subst j; lia).
  assert (Hpj : 2 ^ j = 1 \/ 2 ^ j = 2).
  { destruct (Z.eq_dec j 0) as [->|]; [left; reflexivity|].
    right. replace j with 1 by lia. reflexivity. }
  assert (Hm'' : shr_m r'' * 2 ^ j <= mr < shr_m r'' * 2 ^ j + 2 ^ j).
  { rewrite K3. pose proof (Z.div_mod mr (2 ^ j) ltac:(lia)).
    pose proof (Z.mod_pos_bound mr (2 ^ j) ltac:(lia)). lia. }
  destruct (shr_m r'') as [|m|m] eqn:Em; try lia.
  destruct (Z.leb_spec e'' (1024 - 53)); [|lia].
  exists m, j. split; [f_equal; lia|]. split; [exact Hj|].
  rewrite <- H3. lia.
Qed.

Lemma Zdigits2_bounds m : 0 < m -> 2 ^ (Zdigits2 m - 1) <= m < 2 ^ Zdigits2 m.
Proof.
  intros Hm. rewrite (Zdigits2_log2 m Hm).
  replace (Z.log2 m + 1 - 1) with (Z.log2 m) by lia.
  pose proof (Z.log2_spec m Hm). unfold Z.succ in *. lia.
Qed.

Lemma Zdigits2_unique m n : 0 <= n -> 2 ^ n <= m < 2 ^ (n + 1) -> Zdigits2 m = n + 1.
Proof.
  intros Hn H. assert (0 < 2 ^ n) by (apply Z.pow_pos_nonneg; lia).
  rewrite Zdigits2_log2 by lia. f_equal. apply Z.log2_unique; [lia|].
  unfold Z.succ. exact H.
Qed.

Lemma over_vram_usage_limit_strict total free :
  0 < free < 2 ^ 46 ->
  (19 * free < 20 * total -> over_vram_usage_limit total free = true)
  /\ (20 * total < 19 * free -> over_vram_usage_limit total free = false).
Proof.
  intros [H0 H1].
  destruct (float_of_int_small free) as (mf & d & Hf & Hmf & Hdig & Hd).
  { split; [lia|]. eapply Z.lt_trans; [exact H1|reflexivity]. }
  unfold over_vram_usage_limit, exceeds_vram_usage_limit.
  rewrite Hf. cbn [bind_exn]. unfold float_mul, float_0_95, SFmul. cbn [xorb].
  (* sizes of the operands *)
  assert (Hdf : Zdigits2 free <= 46) by (apply Zdigits2_lt_pow2; lia).
  pose proof (Zdigits2_nonneg free) as Hdf0.
  assert (Hdf1 : 1 <= Zdigits2 free).
  { rewrite Zdigits2_log2 by lia. pose proof (Z.log2_nonneg free). lia. }
  pose proof (Zdigits2_bounds (Zpos mf) ltac:(lia)) as Hmfb.
  cbn [Zdigits2] in Hmfb. rewrite Hdig in Hmfb.
  change (2 ^ (53 - 1)) with 4503599627370496 in Hmfb.
  change (2 ^ 53) with 9007199254740992 in Hmfb.
  set (P := Zpos (8556839292003942 * mf)).
  assert (HP : P = 8556839292003942 * Zpos mf) by reflexivity.
  assert (HPb : 2 ^ 104 <= P < 2 ^ 106).
  { change (2 ^ 104) with (4503599627370496 * 4503599627370496).
    change (2 ^ 106) with (9007199254740992 * 9007199254740992). nia. }
  assert (HdP : Zdigits2 P = 105 \/ Zdigits2 P = 106).
  { destruct (Z.lt_ge_cases P (2 ^ 105)).
    - left. apply (Zdigits2_unique P 104); lia.
    - right. apply (Zdigits2_unique P 105); lia. }
  destruct (binary_round_aux_near false P (-53 + - Zpos d) loc_Exact)
    as (m & j & Hres & Hj & Hm); try lia.
  rewrite Hres. clear Hres.
  set (k := Zdigits2 P - 53) in *.
  set (e := -53 + - Z.pos d + k + j).
  assert (He : e < 0) by (subst e k; lia).
  cbn [int_gt_float cond_Zopp].
  destruct (Z.leb_spec 0 e); [lia|].
  (* the powers of two involved *)
  set (S := 2 ^ (- e)). set (J := 2 ^ j) in *. set (K := 2 ^ k) in *.
  set (D := 2 ^ Zpos d) in *.
  assert (HS : 0 < S) by (apply Z.pow_pos_nonneg; lia).
  assert (HJ : 0 < J) by (apply Z.pow_pos_nonneg; lia).
  assert (HK : 0 < K <= 2 ^ 53).
  { split; [apply Z.pow_pos_nonneg; subst k; lia|].
    apply Z.pow_le_mono_r; subst k; lia. }
  assert (HD : 2 ^ 7 <= D) by (apply Z.pow_le_mono_r; lia).
  assert (HW : S * J * K = 2 ^ 53 * D).
  { subst S J K D. rewrite <- !Z.pow_add_r by (subst e k; lia).
    f_equal. subst e. lia. }
  change (2 ^ 53) with 9007199254740992 in *. change (2 ^ 7) with 128 in *.
  pose proof (Z.div_mod P K ltac:(lia)) as Hdiv.
  pose proof (Z.mod_pos_bound P K ltac:(lia)) as Hmod.
  set (q := P / K) in *.
  split; intros Hcmp.
  - (* the total is above 95%: the comparison holds *)
    destruct (Z.gtb_spec (total * S) (Zpos m)) as [|Hle]; [reflexivity|exfalso].
    assert (E1 : total * S * J <= q + 1) by nia.
    assert (E2 : total * S * J * K <= (q + 1) * K) by nia.
    assert (E3 : total * (S * J * K) <= P + K) by nia.
    rewrite HW in E3. nia.
  - destruct (Z.gtb_spec (total * S) (Zpos m)) as [Hgt|]; [exfalso|reflexivity].
    assert (E1 : q <= total * S * J) by nia.
    assert (E2 : q * K <= total * S * J * K) by nia.
    assert (E3 : P - K < total * (S * J * K)) by nia.
    rewrite HW in E3. nia.
Qed.

Lemma shifted_shr_1 P n r :
  0 <= P -> shifted P n r -> shifted P (n + 1) (shr_1 r).
Proof.
  intros HP (Hn & Hm & Hr & Hs).
  assert (Hpn : 0 < 2 ^ n) by (apply Z.pow_pos_nonneg; lia).
  assert (Hq : 0 <= P / 2 ^ n) by (apply Z.div_pos; lia).
  destruct r as [m rb sb]. cbn [shr_m shr_r shr_s] in *.
  assert (Hodd : forall x, 0 <= x ->
            shr_1 {| shr_m := x; shr_r := rb; shr_s := sb |}
            = {| shr_m := x / 2; shr_r := Z.odd x; shr_s := rb || sb |}).
  { intros x Hx. destruct x as [|[p|p|]|p]; try lia; cbn [shr_1]; f_equal;
      try reflexivity; Z.div_mod_to_equations; lia. }
  rewrite Hodd by lia. subst m. unfold shifted. cbn [shr_m shr_r shr_s].
  replace (n + 1 - 1) with n by lia.
  destruct (Z.eqb_spec (n + 1) 0); [lia|].
  split; [lia|]. split.
  { rewrite Z.pow_add_r, Z.div_div by lia. reflexivity. }
  split; [reflexivity|].
  rewrite Hr, Hs. destruct (Z.eqb_spec n 0) as [->|Hn0].
  - cbn. rewrite Z.mod_1_r. reflexivity.
  - assert (Hp1 : 0 < 2 ^ (n - 1)) by (apply Z.pow_pos_nonneg; lia).
    assert (H2 : 2 ^ n = 2 * 2 ^ (n - 1)).
    { rewrite <- Z.pow_succ_r by lia. f_equal. lia. }
    pose proof (Z.div_mod P (2 ^ (n - 1)) ltac:(lia)) as E1.
    pose proof (Z.mod_pos_bound P (2 ^ (n - 1)) ltac:(lia)) as B1.
    pose proof (Z.div_mod P (2 ^ n) ltac:(lia)) as E2.
    pose proof (Z.mod_pos_bound P (2 ^ n) ltac:(lia)) as B2.
    assert (Hc : P / 2 ^ n = P / 2 ^ (n - 1) / 2).
    { rewrite H2, Z.mul_comm, Z.div_div by lia. reflexivity. }
    pose proof (Z.div_mod (P / 2 ^ (n - 1)) 2 ltac:(lia)) as E3.
    rewrite Zmod_odd in E3.
    set (a := P / 2 ^ (n - 1)) in *. set (b := P mod 2 ^ (n - 1)) in *.
    set (c := P / 2 ^ n) in *. set (e := P mod 2 ^ n) in *.
    set (p := 2 ^ (n - 1)) in *.
    destruct (Z.odd a); cbn.
    + destruct (Z.eqb_spec e 0); [|reflexivity]. nia.
    + destruct (Z.eqb_spec b 0), (Z.eqb_spec e 0); try reflexivity; nia.
Qed.

Lemma shifted_iter_pos P p :
  0 <= P -> forall n r, shifted P n r -> shifted P (n + Zpos p) (iter_pos shr_1 p r).
Proof.
  intros HP. induction p as [p IH|p IH|]; intros n r H; cbn [iter_pos].
  - replace (n + Zpos p~1) with (n + 1 + Zpos p + Zpos p) by lia.
    apply IH, IH, shifted_shr_1; assumption.
  - replace (n + Zpos p~0) with (n + Zpos p + Zpos p) by lia.
    apply IH, IH; assumption.
  - apply shifted_shr_1; assumption.
Qed.

(** Rounding a product of two 53-bit significands whose discarded part is
    above one half: the quotient is rounded up, exactly. *)
Lemma binary_round_aux_up sx mx ex :
  54 <= Zdigits2 mx -> 0 < mx ->
  -1074 <= ex -> ex + (Zdigits2 mx - 53) + 1 <= 971 ->
  2 ^ (Zdigits2 mx - 53) < 2 * (mx mod 2 ^ (Zdigits2 mx - 53)) ->
  exists m j,
    binary_round_aux 53 1024 sx mx ex loc_Exact
    = S754_finite sx m (ex + (Zdigits2 mx - 53) + j)
    /\ 0 <= j <= 1
    /\ Zpos m * 2 ^ j = mx / 2 ^ (Zdigits2 mx - 53) + 1.
Proof.
  intros Hd Hm He1 He2 Hup. unfold binary_round_aux.
  set (k := Zdigits2 mx - 53) in *.
  assert (Hk : 1 <= k) by (subst k; lia).
  assert (Hsh : shr_fexp 53 1024 mx ex loc_Exact
                = (iter_pos shr_1 (Z.to_pos k)
                     {| shr_m := mx; shr_r := false; shr_s := false |}, ex + k)).
  { unfold shr_fexp, shr. rewrite fexp_53.
    replace (Z.max (Zdigits2 mx + ex - 53) (-1074) - ex) with k by (subst k; lia).
    destruct k as [|p|p]; try lia. destruct mx; try lia; reflexivity. }
  rewrite Hsh.
  destruct (shifted_iter_pos mx (Z.to_pos k) ltac:(lia) 0
              {| shr_m := mx; shr_r := false; shr_s := false |})
    as (_ & H3 & Hr & Hs).
  { unfold shifted. cbn. rewrite Z.div_1_r. repeat split; lia. }
  rewrite Z2Pos.id, Z.add_0_l in * by lia.
  destruct (Z.eqb_spec k 0); [lia|].
  set (r' := iter_pos shr_1 (Z.to_pos k) _) in *.
  assert (Hpk1 : 0 < 2 ^ (k - 1)) by (apply Z.pow_pos_nonneg; lia).
  assert (H2k : 2 ^ k = 2 * 2 ^ (k - 1)).
  { rewrite <- Z.pow_succ_r by lia. f_equal. lia. }
  assert (Hc : mx / 2 ^ k = mx / 2 ^ (k - 1) / 2).
  { rewrite H2k, Z.mul_comm, Z.div_div by lia. reflexivity. }
  pose proof (Z.div_mod mx (2 ^ (k - 1)) ltac:(lia)) as E1.
  pose proof (Z.mod_pos_bound mx (2 ^ (k - 1)) ltac:(lia)) as B1.
  pose proof (Z.div_mod mx (2 ^ k) ltac:(lia)) as E2.
  pose proof (Z.div_mod (mx / 2 ^ (k - 1)) 2 ltac:(lia)) as E3.
  rewrite Zmod_odd in E3.
  assert (Hloc : loc_of_shr_record r' = loc_Inexact Gt).
  { destruct r' as [m' rb sb]. cbn [shr_m shr_r shr_s] in *. subst rb sb.
    rewrite <- Hc in E3.
    set (e := mx mod 2 ^ k) in *. set (c := mx / 2 ^ k) in *.
    set (b := mx mod 2 ^ (k - 1)) in *. set (a := mx / 2 ^ (k - 1)) in *.
    set (o := Z.odd a) in *. set (p := 2 ^ (k - 1)) in *.
    set (p2 := 2 ^ k) in *.
    clearbody e c b o a p p2. clear - Hup E1 E2 E3 B1 Hpk1 H2k. subst p2.
    destruct o; subst a; [|nia].
    destruct (Z.eqb_spec b 0); [nia|]. reflexivity. }
  rewrite Hloc. cbn [round_nearest_even].
  set (q := mx / 2 ^ k) in *. rewrite H3.
  (* the quotient has exactly 53 bits *)
  assert (Hpk : 0 < 2 ^ k) by (apply Z.pow_pos_nonneg; lia).
  assert (Hlow : 2 ^ 52 <= q).
  { apply Z.div_le_lower_bound; [lia|].
    rewrite <- Z.pow_add_r by lia.
    replace (k + 52) with (Zdigits2 mx - 1) by (subst k; lia).
    apply Zdigits2_bounds. exact Hm. }
  assert (Hhigh : q < 2 ^ 53).
  { apply Z.div_lt_upper_bound; [lia|]. rewrite <- Z.pow_add_r by lia.
    replace (k + 53) with (Zdigits2 mx) by (subst k; lia).
    apply Zdigits2_bounds. exact Hm. }
  destruct (shr_fexp_spec (q + 1) (ex + k) loc_Exact ltac:(lia)) as (K1 & K2 & K3).
  destruct (shr_fexp 53 1024 (q + 1) (ex + k) loc_Exact) as [r'' e''].
  cbn [fst snd] in *. rewrite fexp_53 in *.
  change (2 ^ 52) with 4503599627370496 in *.
  change (2 ^ 53) with 9007199254740992 in *.
  destruct (Z.eq_dec (q + 1) 9007199254740992) as [Hq|Hq].
  - (* the significand overflows into the next binade *)
    rewrite Hq in *. change (Zdigits2 9007199254740992) with 54 in K2.
    assert (He'' : e'' = ex + k + 1) by lia.
    rewrite He'' in K3. replace (ex + k + 1 - (ex + k)) with 1 in K3 by lia.
    change (9007199254740992 / 2 ^ 1) with 4503599627370496 in K3.
    rewrite K3. destruct (Z.leb_spec e'' (1024 - 53)); [|lia].
    exists 4503599627370496%positive, 1. split; [f_equal; lia|].
    split; [lia|reflexivity].
  - assert (Hdq : Zdigits2 (q + 1) = 53).
    { apply (Zdigits2_unique (q + 1) 52); [lia|].
      change (2 ^ 52) with 4503599627370496.
      change (2 ^ (52 + 1)) with 9007199254740992. lia. }
    rewrite Hdq in K2. assert (He'' : e'' = ex + k) by lia.
    rewrite He'', Z.sub_diag, Z.div_1_r in K3.
    destruct (shr_m r'') as [|m|m] eqn:Em; try lia.
    destruct (Z.leb_spec e'' (1024 - 53)); [|lia].
    exists m, 0. split; [f_equal; lia|]. split; [lia|]. cbn. lia.
Qed.

Lemma over_vram_usage_limit_at_95_percent total free :
  0 < free < 2 ^ 46 -> 20 * total = 19 * free ->
  over_vram_usage_limit total free = false.
Proof.
  intros [H0 H1] Heq.
  destruct (float_of_int_small free) as (mf & d & Hf & Hmf & Hdig & Hd).
  { split; [lia|]. eapply Z.lt_trans; [exact H1|reflexivity]. }
  unfold over_vram_usage_limit, exceeds_vram_usage_limit.
  rewrite Hf. cbn [bind_exn]. unfold float_mul, float_0_95, SFmul. cbn [xorb].
  assert (Hdf : Zdigits2 free <= 46) by (apply Zdigits2_lt_pow2; lia).
  pose proof (Zdigits2_nonneg free) as Hdf0.
  pose proof (Zdigits2_bounds (Zpos mf) ltac:(lia)) as Hmfb.
  cbn [Zdigits2] in Hmfb. rewrite Hdig in Hmfb.
  change (2 ^ (53 - 1)) with 4503599627370496 in Hmfb.
  change (2 ^ 53) with 9007199254740992 in Hmfb.
  set (P := Zpos (8556839292003942 * mf)).
  assert (HP : P = 8556839292003942 * Zpos mf) by reflexivity.
  assert (HPb : 2 ^ 104 <= P < 2 ^ 106).
  { change (2 ^ 104) with (4503599627370496 * 4503599627370496).
    change (2 ^ 106) with (9007199254740992 * 9007199254740992). nia. }
  set (k := Zdigits2 P - 53).
  set (D := 2 ^ Zpos d) in *.
  assert (HD : 0 < D) by (apply Z.pow_pos_nonneg; lia).
  (* the scale of the product: 2^k, and its cofactor in 2^53 * 2^d *)
  assert (Hk : exists c, 2 ^ (53 + Zpos d - k) = c * D
                 /\ 2 ^ k * c = 9007199254740992
                 /\ 4 * Zpos mf < 5 * 2 ^ k /\ 52 <= k <= 53).
  { destruct (Z.lt_ge_cases P (2 ^ 105)) as [Hlt|Hge].
    - assert (Hk : k = 52) by (subst k; rewrite (Zdigits2_unique P 104); lia).
      exists 2. rewrite Hk.
      replace (53 + Zpos d - 52) with (Z.succ (Zpos d)) by lia.
      rewrite Z.pow_succ_r by lia. fold D.
      change (2 ^ 52) with 4503599627370496.
      change (2 ^ 105) with 40564819207303340847894502572032 in Hlt. lia.
    - assert (Hk : k = 53) by (subst k; rewrite (Zdigits2_unique P 105); lia).
      exists 1. rewrite Hk.
      replace (53 + Zpos d - 53) with (Zpos d) by lia. fold D.
      change (2 ^ 53) with 9007199254740992. lia. }
  destruct Hk as (c & HE0 & HKc & HKmf & Hk).
  set (K := 2 ^ k) in *.
  assert (HK : 0 < K) by (apply Z.pow_pos_nonneg; lia).
  (* the product lies two fifths of a significand below a grid point *)
  set (G := total * (c * D)).
  assert (HG : 5 * (G * K) = 5 * P + 2 * Zpos mf).
  { subst G. replace (total * (c * D) * K) with (total * D * (K * c)) by ring.
    rewrite HKc. nia. }
  assert (Hq : P / K = G - 1).
  { symmetry. apply (Z.div_unique P K (G - 1) (P - K * (G - 1))); lia. }
  assert (Hr : P mod K = P - K * (G - 1)).
  { symmetry. apply (Z.mod_unique P K (G - 1) (P - K * (G - 1))); lia. }
  destruct (binary_round_aux_up false P (-53 + - Zpos d)) as (m & j & Hres & Hj & Hm);
    try (fold k; lia).
  { fold k. fold K. rewrite Hr. lia. }
  rewrite Hres. clear Hres. fold k in Hm |- *. fold K in Hm. rewrite Hq in Hm.
  set (e := -53 + - Z.pos d + k + j).
  assert (He : e < 0) by (subst e; lia).
  cbn [int_gt_float cond_Zopp].
  destruct (Z.leb_spec 0 e); [lia|].
  set (S := 2 ^ (- e)). set (J := 2 ^ j) in *.
  assert (HS : 0 < S) by (apply Z.pow_pos_nonneg; lia).
  assert (HJ : 0 < J) by (apply Z.pow_pos_nonneg; lia).
  assert (HSJ : S * J = c * D).
  { rewrite <- HE0. subst S J. rewrite <- Z.pow_add_r by lia.
    f_equal. subst e. lia. }
  destruct (Z.gtb_spec (total * S) (Zpos m)) as [Hgt|]; [exfalso|reflexivity].
  assert (total * S * J = Zpos m * J).
  { replace (total * S * J) with (total * (S * J)) by ring. rewrite HSJ. fold G. lia. }
  nia.
Qed.

(** In exact arithmetic: the test is true exactly above 95% of free memory. *)
Lemma over_vram_usage_limit_spec total free :
  0 < free < 2 ^ 46 ->
  over_vram_usage_limit total free = (19 * free <? 20 * total).
Proof.
  intros H. destruct (over_vram_usage_limit_strict total free H) as [Ha Hb].
  destruct (Z.ltb_spec (19 * free) (20 * total)) as [Hlt|Hge]; [auto|].
  destruct (Z.eq_dec (20 * total) (19 * free)) as [Heq|Hne].
  - apply over_vram_usage_limit_at_95_percent; assumption.
  - apply Hb. lia.
Qed.

(** ** Reasoning about the searches *)

(** Case analysis on the first conditional of the goal. *)
Ltac case_if :=
  match goal with
  | |- context [if ?b then _ else _] => destruct b
  end.

Section Searches.

Variable model_cls : PipelineModel.

Lemma find_valid_max_length_loop_step fuel available upb lower upper s :
  find_valid_max_length_loop model_cls (S fuel) available upb lower upper s =
  let L := (lower + upper) / 2 in
  let c := trial_config model_cls available upb L (config s) in
  let s' := {| config := c;
               trace := trace s ++ trial_events model_cls available upb L (config s) |} in
  let kv := kv_cache_size_of model_cls c available in
  if lower >? upper then (Done (false, L), s')
  else if upper - lower <=? 1 then (Done (kv <=? available, L), s')
  else if kv >? available then
    find_valid_max_length_loop model_cls fuel available upb lower (L - 1) s'
  else find_valid_max_length_loop model_cls fuel available upb L upper s'.
Proof.
  unfold trial_events, trial_config, kv_cache_size_of.
  destruct upb; cbn [find_valid_max_length_loop];
    unfold bind, when, modify_config, _infer_optimal_batch_size,
      _calculate_kv_cache_size, get_config, emit, ret; cbn;
    destruct (is_KVCacheMixin model_cls); cbn;
    rewrite <- ?app_assoc; cbn [app];
    destruct (lower >? upper); try reflexivity;
    destruct (upper - lower <=? 1); try reflexivity;
    case_if; reflexivity.
Qed.

Lemma trial_config_search_config available upb L c :
  trial_config model_cls available upb L c =
  search_config L
    (if upb then max_batch_size c
     else Some (infer_optimal_batch_size model_cls
                  (set_max_length (Some L) c) available)) c.
Proof. destruct upb, c; reflexivity. Qed.

Lemma search_config_absorb L B L' B' c :
  search_config L B (search_config L' B' c) = search_config L B c.
Proof. destruct c; reflexivity. Qed.

Lemma set_max_length_search_config L L' B c :
  set_max_length (Some L) (search_config L' B c) =
  set_max_batch_size B (set_max_length (Some L) c).
Proof. destruct c; reflexivity. Qed.

Lemma set_max_batch_size_absorb b b' c :
  set_max_batch_size b (set_max_batch_size b' c) = set_max_batch_size b c.
Proof. destruct c; reflexivity. Qed.

Lemma midpoint_strict lower upper :
  1 < upper - lower ->
  lower < (lower + upper) / 2 < upper.
Proof. intros H. split; Z.div_mod_to_equations; lia. Qed.

Lemma midpoint_halves lower upper k :
  1 < upper - lower -> upper - lower <= 2 * k ->
  (lower + upper) / 2 - 1 - lower <= k /\ upper - (lower + upper) / 2 <= k.
Proof. intros H1 H2. split; Z.div_mod_to_equations; lia. Qed.

Lemma midpoint_close lower upper :
  lower <= upper -> upper - lower <= 1 -> (lower + upper) / 2 = lower.
Proof. intros H1 H2. Z.div_mod_to_equations; lia. Qed.

Lemma kv_calls_app evs evs' :
  kv_calls (evs ++ evs') = (kv_calls evs + kv_calls evs')%nat.
Proof. unfold kv_calls. now rewrite filter_app, length_app. Qed.

Lemma kv_calls_trial_events available upb L c :
  kv_calls (trial_events model_cls available upb L c) = 1%nat.
Proof. destruct upb; reflexivity. Qed.

Lemma trial_events_cost_calls available upb L c :
  Forall (fun e => is_cost_call e = true)
    (trial_events model_cls available upb L c).
Proof. destruct upb; repeat constructor. Qed.

Lemma length_loop_post_last available upb n lower upper s found :
  let L := (lower + upper) / 2 in
  (found = true ->
   kv_cache_size_of model_cls (trial_config model_cls available upb L (config s))
     available <= available) ->
  (lower <= upper -> upper - lower <= 1) ->
  length_loop_post model_cls available upb (S n) lower upper s
    (Done (found, L), after_trial model_cls available upb L s).
Proof.
  intros L Hfit Hw. unfold after_trial.
  rewrite trial_config_search_config in *.
  eexists found, L, _, _. split; [reflexivity|].
  split; [rewrite kv_calls_trial_events; lia|].
  split; [apply trial_events_cost_calls|].
  split; [exact Hfit|].
  split.
  - destruct upb; [reflexivity|].
    exists (max_batch_size (config s)).
    destruct (config s); reflexivity.
  - subst L. split; [|split]; try (intros H; rewrite midpoint_close by lia; lia).
    unfold trial_events. rewrite trial_config_search_config.
    eexists. reflexivity.
Qed.

Lemma length_loop_post_step available upb n lower upper lower' upper' s r :
  let L := (lower + upper) / 2 in
  lower <= lower' -> lower' <= upper' -> upper' <= upper ->
  (upper' = upper -> lower' < upper') ->
  length_loop_post model_cls available upb n lower' upper' (after_trial model_cls available upb L s) r ->
  length_loop_post model_cls available upb (S n) lower upper s r.
Proof.
  intros L Hl Hlu Hu Hstrict
    (found & L' & B' & evs & Heq & Hn & Hev & Hfit & HB & Hr1 & Hr2 & evs0 & Hlast).
  unfold after_trial in *. cbn [config trace] in *.
  rewrite trial_config_search_config, search_config_absorb in *.
  exists found, L', B',
    (trial_events model_cls available upb L (config s) ++ evs).
  rewrite Heq, <- app_assoc.
  split; [reflexivity|].
  split; [rewrite kv_calls_app, kv_calls_trial_events; lia|].
  split; [apply Forall_app; split; auto using trial_events_cost_calls|].
  split; [exact Hfit|].
  split.
  - destruct upb; [destruct (config s); exact HB|].
    destruct HB as [b0 Hb0]. exists b0. rewrite Hb0.
    now rewrite search_config_absorb.
  - specialize (Hr1 Hlu). split; [|split]; try intros H.
    + lia.
    + destruct (Z.eq_dec upper' upper) as [->|Hne]; [|lia].
      apply Hr2. apply Hstrict. reflexivity.
    + exists (trial_events model_cls available upb L (config s) ++ evs0).
      now rewrite Hlast, <- app_assoc.
Qed.

(** With [fuel] iterations beyond the first, the length loop comes to an end
    on every interval of width at most [2 ^ fuel], whatever the cost
    functions answer. *)
Lemma find_valid_max_length_loop_spec available upb fuel :
  forall lower upper s,
    upper - lower <= 2 ^ Z.of_nat fuel ->
    length_loop_post model_cls available upb (S fuel) lower upper s
      (find_valid_max_length_loop model_cls (S fuel) available upb lower upper s).
Proof.
  induction fuel as [|fuel IH]; intros lower upper s Hw;
    rewrite find_valid_max_length_loop_step; cbv zeta;
    fold (after_trial model_cls available upb ((lower + upper) / 2) s).
  - cbn in Hw.
    destruct (Z.gtb_spec lower upper) as [Hgt|Hle].
    { apply length_loop_post_last; [discriminate|lia]. }
    destruct (Z.leb_spec (upper - lower) 1) as [Hw1|Hw1]; [|lia].
    apply length_loop_post_last; [|lia].
    intros Hfit. apply Z.leb_le. exact Hfit.
  - rewrite Nat2Z.inj_succ, Z.pow_succ_r in Hw by lia.
    destruct (Z.gtb_spec lower upper) as [Hgt|Hle].
    { apply length_loop_post_last; [discriminate|lia]. }
    destruct (Z.leb_spec (upper - lower) 1) as [Hw1|Hw1].
    { apply length_loop_post_last; [|lia].
      intros Hfit. apply Z.leb_le. exact Hfit. }
    pose proof (midpoint_strict lower upper Hw1) as Hmid.
    pose proof (midpoint_halves lower upper _ Hw1 Hw) as [Hlo Hhi].
    case_if.
    + eapply length_loop_post_step; [| | | |apply IH]; lia.
    + eapply length_loop_post_step; [| | | |apply IH]; lia.
Qed.

Lemma search_fuel_enough lower upper :
  upper - lower <= 2 ^ Z.of_nat (Z.to_nat (Z.log2_up (upper - lower))).
Proof.
  rewrite Z2Nat.id by apply Z.log2_up_nonneg.
  destruct (Z.le_gt_cases (upper - lower) 1) as [H|H].
  - rewrite Z.log2_up_eqn0 by exact H. cbn. lia.
  - apply Z.log2_up_spec. exact H.
Qed.

(** The batch-size loop, in the same way.  It writes only the batch size,
    so every cache-size evaluation sees the entry configuration with a trial
    batch size in it. *)
Lemma find_valid_batch_size_loop_step fuel available lower upper s :
  find_valid_batch_size_loop model_cls (S fuel) available lower upper s =
  let b := (lower + upper) / 2 in
  let c := set_max_batch_size (Some b) (config s) in
  let s' := {| config := c; trace := trace s ++ [CalcKvCache c available] |} in
  let kv := kv_cache_size_of model_cls c available in
  if lower >? upper then (Done (false, b), s')
  else if upper - lower <=? 1 then (Done (kv <=? available, b), s')
  else if kv >? available then
    find_valid_batch_size_loop model_cls fuel available lower (b - 1) s'
  else find_valid_batch_size_loop model_cls fuel available b upper s'.
Proof.
  unfold kv_cache_size_of. cbn [find_valid_batch_size_loop].
  unfold bind, modify_config, _calculate_kv_cache_size, get_config, emit, ret;
    cbn.
  destruct (is_KVCacheMixin model_cls); cbn;
    destruct (lower >? upper); try reflexivity;
    destruct (upper - lower <=? 1); try reflexivity;
    case_if; reflexivity.
Qed.

Lemma batch_loop_post_last available n lower upper s found :
  let b := (lower + upper) / 2 in
  (found = true ->
   kv_cache_size_of model_cls (set_max_batch_size (Some b) (config s)) available
   <= available) ->
  (lower <= upper -> upper - lower <= 1) ->
  batch_loop_post model_cls available (S n) lower upper s
    (Done (found, b), after_batch_trial available b s).
Proof.
  intros b Hfit Hw. unfold after_batch_trial.
  eexists found, b, _. split; [reflexivity|].
  split; [cbn; lia|].
  split; [repeat constructor; now exists b|].
  split; [exact Hfit|].
  subst b. intros H. rewrite midpoint_close by lia. lia.
Qed.

Lemma batch_loop_post_step available n lower upper lower' upper' s r :
  let b := (lower + upper) / 2 in
  lower <= lower' -> lower' <= upper' -> upper' <= upper ->
  batch_loop_post model_cls available n lower' upper' (after_batch_trial available b s) r ->
  batch_loop_post model_cls available (S n) lower upper s r.
Proof.
  intros b Hl Hlu Hu (found & b' & evs & Heq & Hn & Hev & Hfit & Hr).
  unfold after_batch_trial in *. cbn [config trace] in *.
  rewrite set_max_batch_size_absorb in *.
  exists found, b',
    ([CalcKvCache (set_max_batch_size (Some b) (config s)) available] ++ evs).
  rewrite Heq, <- app_assoc.
  split; [reflexivity|].
  split; [rewrite kv_calls_app; cbn; lia|].
  split.
  - apply Forall_app. split; [repeat constructor; now exists b|].
    eapply Forall_impl; [|exact Hev].
    intros e [b0 ->]. exists b0. now rewrite set_max_batch_size_absorb.
  - split; [exact Hfit|]. lia.
Qed.

Lemma find_valid_batch_size_loop_spec available fuel :
  forall lower upper s,
    upper - lower <= 2 ^ Z.of_nat fuel ->
    batch_loop_post model_cls available (S fuel) lower upper s
      (find_valid_batch_size_loop model_cls (S fuel) available lower upper s).
Proof.
  induction fuel as [|fuel IH]; intros lower upper s Hw;
    rewrite find_valid_batch_size_loop_step; cbv zeta;
    fold (after_batch_trial available ((lower + upper) / 2) s).
  - cbn in Hw.
    destruct (Z.gtb_spec lower upper) as [Hgt|Hle].
    { apply batch_loop_post_last; [discriminate|lia]. }
    destruct (Z.leb_spec (upper - lower) 1) as [Hw1|Hw1]; [|lia].
    apply batch_loop_post_last; [|lia].
    intros Hfit. apply Z.leb_le. exact Hfit.
  - rewrite Nat2Z.inj_succ, Z.pow_succ_r in Hw by lia.
    destruct (Z.gtb_spec lower upper) as [Hgt|Hle].
    { apply batch_loop_post_last; [discriminate|lia]. }
    destruct (Z.leb_spec (upper - lower) 1) as [Hw1|Hw1].
    { apply batch_loop_post_last; [|lia].
      intros Hfit. apply Z.leb_le. exact Hfit. }
    pose proof (midpoint_strict lower upper Hw1) as Hmid.
    pose proof (midpoint_halves lower upper _ Hw1 Hw) as [Hlo Hhi].
    case_if.
    + eapply batch_loop_post_step; [| | |apply IH]; lia.
    + eapply batch_loop_post_step; [| | |apply IH]; lia.
Qed.

Lemma _find_valid_max_length_spec available upb s U b0 :
  max_length (config s) = Some U ->
  max_batch_size (config s) = Some b0 ->
  length_search_post model_cls available upb U s
    (_find_valid_max_length model_cls available upb s).
Proof.
  intros HU Hb.
  cbv [_find_valid_max_length bind get_config emit].
  cbn [config trace]. rewrite HU, Hb.
  cbv [search_fuel].
  destruct (find_valid_max_length_loop_spec available upb
              (Z.to_nat (Z.log2_up (U - 1))) 1 U
              {| config := config s;
                 trace := trace s ++ [FindValidMaxLength (config s) available] |}
              (search_fuel_enough 1 U))
    as (found & L & B & evs & Heq & Hn & Hev & Hfit & HB & Hr1 & Hr2 & Hlast).
  cbn [config trace] in *. rewrite Heq. cbn.
  exists found, L, B, evs.
  rewrite <- app_assoc. cbn [app].
  repeat split; auto; try lia.
Qed.

Lemma _find_valid_batch_size_spec available original_max_length s U :
  max_batch_size (config s) = Some U ->
  batch_search_post model_cls available original_max_length U s
    (_find_valid_batch_size model_cls available original_max_length true s).
Proof.
  intros HU.
  cbv [_find_valid_batch_size bind get_config emit modify_config negb].
  cbn [config trace]. rewrite HU.
  cbv [search_fuel batch_search_post].
  destruct (find_valid_batch_size_loop_spec available
              (Z.to_nat (Z.log2_up (U - 1))) 1 U
              {| config := set_max_length original_max_length (config s);
                 trace := trace s ++ [FindValidBatchSize (config s) available] |}
              (search_fuel_enough 1 U))
    as (found & b & evs & Heq & Hn & Hev & Hfit & Hr).
  cbn [config trace] in *. rewrite Heq.
  exists found, b, evs.
  rewrite <- app_assoc. cbn [app].
  repeat split; auto; try lia.
Qed.

Lemma _find_valid_batch_size_not_user_provided available original_max_length s :
  _find_valid_batch_size model_cls available original_max_length false s =
  (Done (false, -1),
   {| config := config s;
      trace := trace s ++ [FindValidBatchSize (config s) available] |}).
Proof. reflexivity. Qed.

Lemma set_max_length_absorb v v' c :
  set_max_length v (set_max_length v' c) = set_max_length v c.
Proof. destruct c; reflexivity. Qed.



(** Every cache-size evaluation of the batch-size search sees the length
    that the caller passed as [original_max_length]. *)
Lemma _find_valid_batch_size_holds_length available original_max_length s U :
  max_batch_size (config s) = Some U ->
  exists r s' evs,
    _find_valid_batch_size model_cls available original_max_length true s
    = (Done r, s')
    /\ trace s' = trace s ++ FindValidBatchSize (config s) available :: evs
    /\ Forall (fun e => exists c,
                   e = CalcKvCache c available
                   /\ max_length c = original_max_length) evs.
Proof.
  intros HU.
  destruct (_find_valid_batch_size_spec available original_max_length s U HU)
    as (found & b & evs & Heq & _ & Hev & _).
  eexists _, _, evs. split; [exact Heq|]. split; [reflexivity|].
  eapply Forall_impl; [|exact Hev].
  intros e [b' ->]. eexists. split; [reflexivity|reflexivity].
Qed.


End Searches.

(** ** Reasoning about the resolver *)

Lemma bind_Done {A B} (m : M A) (k : A -> M B) s a s1 :
  m s = (Done a, s1) -> bind m k s = k a s1.
Proof. intros H. unfold bind. now rewrite H. Qed.

Lemma bind_Raise {A B} (m : M A) (k : A -> M B) s e s1 :
  m s = (Raise e, s1) -> bind m k s = (Raise e, s1).
Proof. intros H. unfold bind. now rewrite H. Qed.

Lemma bind_Done_inv {A B} (m : M A) (k : A -> M B) s b s' :
  bind m k s = (Done b, s') ->
  exists a s1, m s = (Done a, s1) /\ k a s1 = (Done b, s').
Proof.
  unfold bind. destruct (m s) as [[a| |] s1]; try discriminate.
  intros H. now exists a, s1.
Qed.

Section Resolver.

Variable model_cls : PipelineModel.

Lemma estimate_memory_footprint_initial_eq free s :
  estimate_memory_footprint_initial model_cls free s =
  match cache_budget model_cls free (config s) with
  | inl e =>
      (Raise e,
       {| config := config s;
          trace := trace s ++ [EstimateWeights (config s)] |})
  | inr available =>
      (Done (initial_footprint model_cls free available (config s)),
       {| config :=
            set_available_cache_memory
              (Some (kv_cache_size_of model_cls
                       (initial_config model_cls available (config s)) available))
              (initial_config model_cls available (config s));
          trace := trace s ++ initial_events model_cls available (config s) |})
  end.
Proof.
  cbv [estimate_memory_footprint_initial cache_budget initial_footprint
    initial_events initial_config with_default_max_batch_size
    with_default_max_length kv_cache_size_of
    bind call_estimate_weights_size call_calculate_max_seq_len
    _infer_optimal_batch_size _calculate_kv_cache_size get_config emit
    modify_config lift when ret raise].
  cbn [config trace].
  destruct (int_mul_float_to_int _ _) as [e|available]; [reflexivity|].
  destruct (config s) as [ml mb u ds ac]; cbn.
  destruct ml, mb, (is_KVCacheMixin model_cls); cbn;
    rewrite <- ?app_assoc; reflexivity.
Qed.

Lemma _calculate_kv_cache_size_eq available s :
  _calculate_kv_cache_size model_cls available s =
  (Done (kv_cache_size_of model_cls (config s) available),
   {| config := config s;
      trace := trace s ++ [CalcKvCache (config s) available] |}).
Proof.
  cbv [_calculate_kv_cache_size kv_cache_size_of bind get_config emit ret].
  cbn [config trace]. destruct (is_KVCacheMixin model_cls); reflexivity.
Qed.

Lemma existsb_cost_calls (p : Event -> bool) evs :
  (forall e, is_cost_call e = true -> p e = false) ->
  Forall (fun e => is_cost_call e = true) evs ->
  existsb p evs = false.
Proof.
  intros Hp Hev. induction Hev as [|e evs He _ IH]; [reflexivity|].
  cbn. now rewrite (Hp e He), IH.
Qed.

Lemma filter_cost_calls (p : Event -> bool) evs :
  (forall e, is_cost_call e = true -> p e = false) ->
  Forall (fun e => is_cost_call e = true) evs ->
  filter p evs = [].
Proof.
  intros Hp Hev. induction Hev as [|e evs He _ IH]; [reflexivity|].
  cbn. now rewrite (Hp e He), IH.
Qed.

Lemma cost_call_not_batch_search e :
  is_cost_call e = true -> is_FindValidBatchSize e = false.
Proof. destruct e; cbn; congruence. Qed.

Lemma cost_call_not_length_search e :
  is_cost_call e = true -> is_FindValidMaxLength e = false.
Proof. destruct e; cbn; congruence. Qed.

Lemma cost_call_not_search e :
  is_cost_call e = true -> is_search e = false.
Proof. destruct e; cbn; congruence. Qed.

Lemma estimate_memory_footprint_shrink_spec l s U b0 :
  max_length (config s) = Some U ->
  max_batch_size (config s) = Some b0 ->
  shrink_post model_cls l s (estimate_memory_footprint_shrink model_cls l s).
Proof.
  intros HU Hb. unfold estimate_memory_footprint_shrink.
  destruct ((total_size l >? free_memory l)
            && negb (user_provided_max_length l)) eqn:Hcond.
  - apply andb_true_iff in Hcond. destruct Hcond as [Hgt Hupl].
    apply Z.gtb_lt in Hgt. apply negb_true_iff in Hupl.
    destruct (_find_valid_max_length_spec model_cls
                (available_kv_cache_memory l)
                (user_provided_max_batch_size l) s U b0 HU Hb)
      as (found & L & B & evs & Heq & _ & Hev & Hfit & HB & _).
    cbv [bind get_config]. rewrite Heq.
    pose proof (existsb_cost_calls _ _ cost_call_not_batch_search Hev) as Hnb.
    pose proof (filter_cost_calls _ _ cost_call_not_length_search Hev) as Hnl.
    destruct found.
    + cbv [emit modify_config]. cbn [config trace].
      rewrite _calculate_kv_cache_size_eq. cbv [ret]. cbn [config trace].
      rewrite set_max_length_search_config.
      fold (search_config L B (config s)).
      eexists _, _, _. split; [reflexivity|].
      cbn [free_memory model_weights_size available_kv_cache_memory
             user_provided_max_length user_provided_max_batch_size
             actual_kv_cache_size total_size config trace].
      split; [rewrite <- !app_assoc; reflexivity|].
      do 5 (split; [reflexivity|]).
      split; [right; eexists; split; [reflexivity|]; split; [reflexivity|auto]|].
      split; [cbn; rewrite existsb_app, Hnb; reflexivity|].
      split; [cbn; rewrite filter_app, Hnl; cbn; lia|].
      split; [split; [intros _; split; [exact Hupl|lia]|reflexivity]|].
      split; [intros [H|H]; [congruence|lia]|].
      intros Hupb. rewrite Hupb in HB. cbn. destruct (config s); exact HB.
    + cbn [ret].
      eexists _, _, _. split; [reflexivity|]. cbn [config trace].
      split; [reflexivity|].
      do 5 (split; [reflexivity|]).
      split; [left; reflexivity|].
      split; [cbn; exact Hnb|].
      split; [cbn; rewrite Hnl; cbn; lia|].
      split; [split; [intros _; split; [exact Hupl|lia]|reflexivity]|].
      split; [intros [H|H]; [congruence|lia]|].
      intros Hupb. rewrite Hupb in HB. cbn. destruct (config s); exact HB.
  - exists l, s, []. split; [reflexivity|].
    split; [now rewrite app_nil_r|].
    do 5 (split; [reflexivity|]).
    split; [left; reflexivity|].
    split; [reflexivity|]. split; [cbn; lia|].
    split.
    { split; [discriminate|]. intros [Hupl Hgt].
      rewrite Hupl in Hcond. cbn in Hcond. rewrite andb_true_r in Hcond.
      destruct (Z.gtb_spec (total_size l) (free_memory l)); [discriminate|lia]. }
    split; [auto|reflexivity].
Qed.

Lemma _estimate_memory_footprint_available s free :
  sum_free_memory (devices (config s)) 0 = inr free ->
  _estimate_memory_footprint model_cls s =
  bind (estimate_memory_footprint_sizes model_cls free)
    (estimate_memory_footprint_report model_cls) s.
Proof.
  intros H. unfold _estimate_memory_footprint, estimate_memory_footprint_sizes.
  cbv [bind get_config]. rewrite H.
  destruct (estimate_memory_footprint_initial model_cls free s) as [[l| |] s1];
    try reflexivity.
Qed.

Lemma initial_config_fields available c :
  (exists U, max_length (initial_config model_cls available c) = Some U)
  /\ (exists b, max_batch_size (initial_config model_cls available c) = Some b).
Proof.
  unfold initial_config, with_default_max_batch_size, with_default_max_length.
  destruct c as [[U|] [b|] u ds ac]; cbn; eauto.
Qed.

Lemma initial_config_user_length available c L :
  max_length c = Some L ->
  max_length (initial_config model_cls available c) = Some L.
Proof.
  unfold initial_config, with_default_max_batch_size, with_default_max_length.
  destruct c as [[U|] [b|] u ds ac]; cbn; congruence.
Qed.

Lemma initial_config_user_batch_size available c b :
  max_batch_size c = Some b ->
  max_batch_size (initial_config model_cls available c) = Some b.
Proof.
  unfold initial_config, with_default_max_batch_size, with_default_max_length.
  destruct c as [[U|] [b'|] u ds ac]; cbn; congruence.
Qed.

Lemma initial_events_no_search available c :
  existsb is_search (initial_events model_cls available c) = false.
Proof.
  unfold initial_events. destruct (max_length c), (max_batch_size c); reflexivity.
Qed.

(** The sizes part returns whenever the cache budget can be computed. *)
Lemma estimate_memory_footprint_sizes_spec free s available :
  cache_budget model_cls free (config s) = inr available ->
  exists s1,
    estimate_memory_footprint_initial model_cls free s
    = (Done (initial_footprint model_cls free available (config s)), s1)
    /\ trace s1 = trace s ++ initial_events model_cls available (config s)
    /\ config s1
       = set_available_cache_memory
           (Some (kv_cache_size_of model_cls
                    (initial_config model_cls available (config s)) available))
           (initial_config model_cls available (config s))
    /\ shrink_post model_cls
         (initial_footprint model_cls free available (config s)) s1
         (estimate_memory_footprint_sizes model_cls free s).
Proof.
  intros Hbudget.
  pose proof (estimate_memory_footprint_initial_eq free s) as Heq.
  rewrite Hbudget in Heq.
  eexists. split; [exact Heq|]. cbn [config trace].
  split; [reflexivity|]. split; [reflexivity|].
  unfold estimate_memory_footprint_sizes. rewrite (bind_Done _ _ _ _ _ Heq).
  destruct (initial_config_fields available (config s)) as [[U HU] [b Hb]].
  eapply estimate_memory_footprint_shrink_spec; cbn; eassumption.
Qed.

Lemma estimate_memory_footprint_logging_str_ok l c :
  free_memory l <> 0 ->
  Z.abs (free_memory l) < 2 ^ 1000 ->
  Z.abs (model_weights_size l) < 2 ^ 1000 ->
  Z.abs (actual_kv_cache_size l) < 2 ^ 1000 ->
  Z.abs (model_weights_size l + actual_kv_cache_size l) < 2 ^ 1000 ->
  exists info, estimate_memory_footprint_logging_str l c = inr info.
Proof.
  intros Hf0 Hf Hw Hkv Htot. unfold estimate_memory_footprint_logging_str.
  apply Z.eqb_neq in Hf0. rewrite Hf0.
  destruct (_to_mib_ok _ Hf) as [m1 ->].
  destruct (_to_mib_ok _ Hkv) as [m3 ->].
  destruct (_to_mib_ok _ Htot) as [m4 ->].
  destruct (model_weights_size l =? 0).
  - cbn. eauto.
  - destruct (_to_mib_ok _ Hw) as [m2 ->]. cbn. eauto.
Qed.

Lemma _raise_oom_error_not_Done upl upb total free available weights s s' :
  _raise_oom_error model_cls upl upb total free available weights s
  <> (Done tt, s').
Proof.
  unfold _raise_oom_error. destruct (weights >? free); [discriminate|].
  cbv [bind get_config].
  destruct (_find_valid_max_length _ _ _ _) as [[[[fl L] B]| |] s1];
    try discriminate.
  cbv [modify_config].
  destruct (_find_valid_batch_size _ _ _ _ _) as [[[fb b]| |] s2];
    try discriminate.
  destruct (_generate_oom_error_message _ _ _ _ _ _ _ _ _ _); discriminate.
Qed.

Lemma estimate_memory_footprint_report_within l s info :
  estimate_memory_footprint_logging_str l (config s) = inr info ->
  total_size l <= free_memory l ->
  estimate_memory_footprint_report model_cls l s =
  match exceeds_vram_usage_limit (total_size l) (free_memory l) with
  | inl e =>
      (Raise e, {| config := config s; trace := trace s ++ [LogInfo info] |})
  | inr over =>
      (Done tt,
       {| config := config s;
          trace := trace s
                   ++ LogInfo info
                      :: (if over then [LogWarning high_water_mark_message]
                          else []) |})
  end.
Proof.
  intros Hlog Hle. unfold estimate_memory_footprint_report.
  cbv [bind get_config]. rewrite Hlog. cbv [lift ret emit]. cbn [config trace].
  destruct (Z.gtb_spec (total_size l) (free_memory l)); [lia|].
  destruct (exceeds_vram_usage_limit _ _) as [e|[|]]; cbv [raise when emit ret];
    cbn [config trace]; rewrite <- ?app_assoc; reflexivity.
Qed.

Lemma estimate_memory_footprint_report_weights l s info :
  estimate_memory_footprint_logging_str l (config s) = inr info ->
  free_memory l < total_size l ->
  free_memory l < model_weights_size l ->
  estimate_memory_footprint_report model_cls l s =
  (Raise (RuntimeError weights_too_large_message),
   {| config := config s; trace := trace s ++ [LogInfo info] |}).
Proof.
  intros Hlog Hgt Hw. unfold estimate_memory_footprint_report, _raise_oom_error.
  cbv [bind get_config]. rewrite Hlog. cbv [lift ret emit]. cbn [config trace].
  destruct (Z.gtb_spec (total_size l) (free_memory l)); [|lia].
  destruct (Z.gtb_spec (model_weights_size l) (free_memory l)); [|lia].
  reflexivity.
Qed.

Lemma estimate_memory_footprint_report_Done_inv l s s' :
  estimate_memory_footprint_report model_cls l s = (Done tt, s') ->
  total_size l <= free_memory l
  /\ config s' = config s
  /\ exists info,
      trace s' = trace s
                 ++ LogInfo info
                    :: (if over_vram_usage_limit (total_size l) (free_memory l)
                        then [LogWarning high_water_mark_message] else []).
Proof.
  intros Hrun.
  destruct (estimate_memory_footprint_logging_str l (config s)) as [e|info] eqn:Hlog.
  { unfold estimate_memory_footprint_report in Hrun.
    cbv [bind get_config] in Hrun. rewrite Hlog in Hrun. discriminate. }
  destruct (Z.le_gt_cases (total_size l) (free_memory l)) as [Hle|Hgt].
  - rewrite (estimate_memory_footprint_report_within l s info Hlog Hle) in Hrun.
    unfold over_vram_usage_limit.
    destruct (exceeds_vram_usage_limit _ _) as [e|over]; [discriminate|].
    injection Hrun as <-. cbn [config trace]. eauto.
  - exfalso. unfold estimate_memory_footprint_report in Hrun.
    cbv [bind get_config] in Hrun. rewrite Hlog in Hrun.
    cbv [lift ret emit] in Hrun. cbn [config trace] in Hrun.
    destruct (Z.gtb_spec (total_size l) (free_memory l)); [|lia].
    eapply _raise_oom_error_not_Done. exact Hrun.
Qed.

Lemma int_mul_float_to_int_zero u :
  bounded_float u -> int_mul_float_to_int 0 u = inr 0.
Proof. destruct u; cbn; tauto. Qed.

Lemma _estimate_memory_footprint_unavailable s e :
  sum_free_memory (devices (config s)) 0 = inl e ->
  _estimate_memory_footprint model_cls s =
  (Done tt,
   {| config := degraded_config model_cls (config s);
      trace := trace s
               ++ LogWarning (unable_to_estimate_message e)
                  :: degraded_events (config s) |}).
Proof.
  intros Hsum.
  cbv [_estimate_memory_footprint bind get_config]. rewrite Hsum.
  cbv [estimate_memory_footprint_degraded bind get_config emit modify_config
         when call_calculate_max_seq_len ret degraded_config degraded_events
         with_ceiling with_batch_size_one].
  cbn [config trace].
  destruct (config s) as [ml mb u ds ac]. cbn [max_length max_batch_size].
  destruct (truthy mb); cbn [negb config trace max_length set_max_batch_size];
    destruct (truthy ml); cbn [negb config trace];
    rewrite <- ?app_assoc; reflexivity.
Qed.

Lemma estimate_memory_footprint_sizes_Done_inv free s l s2 :
  estimate_memory_footprint_sizes model_cls free s = (Done l, s2) ->
  exists available s1,
    cache_budget model_cls free (config s) = inr available
    /\ estimate_memory_footprint_initial model_cls free s
       = (Done (initial_footprint model_cls free available (config s)), s1)
    /\ trace s1 = trace s ++ initial_events model_cls available (config s)
    /\ config s1
       = set_available_cache_memory
           (Some (kv_cache_size_of model_cls
                    (initial_config model_cls available (config s)) available))
           (initial_config model_cls available (config s))
    /\ shrink_post model_cls
         (initial_footprint model_cls free available (config s)) s1
         (Done l, s2).
Proof.
  intros Hrun.
  destruct (cache_budget model_cls free (config s)) as [e|available] eqn:Hb.
  - pose proof (estimate_memory_footprint_initial_eq free s) as Heq.
    rewrite Hb in Heq. unfold estimate_memory_footprint_sizes in Hrun.
    rewrite (bind_Raise _ _ _ _ _ Heq) in Hrun. discriminate.
  - destruct (estimate_memory_footprint_sizes_spec free s available Hb)
      as (s1 & H1 & H2 & H3 & H4).
    rewrite Hrun in H4. exists available, s1. auto.
Qed.

Lemma existsb_search_split evs :
  existsb is_search evs = false ->
  existsb is_FindValidBatchSize evs = false
  /\ existsb is_FindValidMaxLength evs = false
  /\ filter is_FindValidMaxLength evs = [].
Proof.
  induction evs as [|e evs IH]; [auto|].
  cbn. intros H. apply orb_false_iff in H. destruct H as [He H].
  destruct (IH H) as (H1 & H2 & H3).
  destruct e; cbn in *; try discriminate; auto.
Qed.

End Resolver.

(** ** Runs of the resolver and of the diagnosis *)

Lemma cache_size_in_range_In model_cls evs c a :
  forallb (cache_size_in_range model_cls) evs = true ->
  In (CalcKvCache c a) evs ->
  0 <= kv_cache_size_of model_cls c a < 2 ^ 999.
Proof.
  intros Hall Hin. rewrite forallb_forall in Hall.
  specialize (Hall _ Hin). cbn [cache_size_in_range] in Hall.
  apply andb_true_iff in Hall. destruct Hall as [H1 H2].
  apply Z.leb_le in H1. apply Z.ltb_lt in H2. lia.
Qed.

Lemma events_since_app s s' evs :
  trace s' = trace s ++ evs -> events_since s s' = evs.
Proof.
  intros H. unfold events_since. rewrite H, skipn_app, skipn_all, Nat.sub_diag.
  reflexivity.
Qed.

Section ResolverRuns.

Variable model_cls : PipelineModel.

(** The automatic remedy measures the cache size of the configuration it
    leaves, when it adopts a length. *)
Lemma estimate_memory_footprint_shrink_measured l s U b0 :
  max_length (config s) = Some U ->
  max_batch_size (config s) = Some b0 ->
  exists l' s' evs,
    estimate_memory_footprint_shrink model_cls l s = (Done l', s')
    /\ trace s' = trace s ++ evs
    /\ (l' = l
        \/ (In (CalcKvCache (config s') (available_kv_cache_memory l)) evs
            /\ actual_kv_cache_size l'
               = kv_cache_size_of model_cls (config s')
                   (available_kv_cache_memory l)
            /\ total_size l' = model_weights_size l + actual_kv_cache_size l'
            /\ actual_kv_cache_size l' <= available_kv_cache_memory l)).
Proof.
  intros HU Hb. unfold estimate_memory_footprint_shrink.
  destruct ((total_size l >? free_memory l)
            && negb (user_provided_max_length l)).
  - destruct (_find_valid_max_length_spec model_cls
                (available_kv_cache_memory l)
                (user_provided_max_batch_size l) s U b0 HU Hb)
      as (found & L & B & evs & Heq & _ & _ & Hfit & _).
    cbv [bind get_config]. rewrite Heq.
    destruct found.
    + cbv [emit modify_config]. cbn [config trace].
      rewrite _calculate_kv_cache_size_eq. cbv [ret]. cbn [config trace].
      rewrite set_max_length_search_config.
      fold (search_config L B (config s)).
      eexists _, _, _. split; [reflexivity|]. cbn [config trace].
      split; [rewrite <- !app_assoc; reflexivity|].
      right. cbn [actual_kv_cache_size total_size].
      split.
      { cbn [In]. right.
        repeat (rewrite in_app_iff; cbn [In]). auto. }
      split; [reflexivity|]. split; [reflexivity|now apply Hfit].
    + cbn [ret]. eexists _, _, _. split; [reflexivity|]. cbn [config trace].
      split; [reflexivity|]. left. reflexivity.
  - exists l, s, []. split; [reflexivity|].
    split; [now rewrite app_nil_r|]. left. reflexivity.
Qed.

(** With weights above the free memory, the report only adds to the
    trace. *)
Lemma estimate_memory_footprint_report_extends l s :
  free_memory l < model_weights_size l ->
  exists evs,
    trace (snd (estimate_memory_footprint_report model_cls l s))
    = trace s ++ evs.
Proof.
  intros Hw. unfold estimate_memory_footprint_report, _raise_oom_error.
  cbv [bind get_config lift].
  destruct (estimate_memory_footprint_logging_str l (config s)) as [e|info].
  - exists []. cbn. now rewrite app_nil_r.
  - cbv [emit ret raise]. cbn [config trace].
    destruct (total_size l >? free_memory l).
    + destruct (Z.gtb_spec (model_weights_size l) (free_memory l)); [|lia].
      eexists. reflexivity.
    + destruct (exceeds_vram_usage_limit (total_size l) (free_memory l))
        as [e|[|]]; cbv [when emit ret]; cbn [snd config trace];
        try rewrite <- app_assoc; eexists; reflexivity.
Qed.

(** [_raise_oom_error] below the weights check: the two searches it runs and
    the message it raises with their answers. *)
Lemma _raise_oom_error_searches upl (upb : bool) total free available weights
    s U B0 :
  weights <= free ->
  max_length (config s) = Some U ->
  max_batch_size (config s) = Some B0 ->
  exists fl L B s1 fb b s2,
    _find_valid_max_length model_cls available upb s = (Done (fl, L, B), s1)
    /\ _find_valid_batch_size model_cls available (Some U) upb
         {| config := set_max_batch_size (Some B0) (config s1);
            trace := trace s1 |}
       = (Done (fb, b), s2)
    /\ (upb = false -> fb = false)
    /\ _raise_oom_error model_cls upl upb total free available weights s
       = (match _generate_oom_error_message total free upl upb fl fb L b B
                  (Some U) with
          | inl e => Raise e
          | inr msg => Raise (RuntimeError msg)
          end, s2).
Proof.
  intros Hw HU HB. unfold _raise_oom_error.
  destruct (Z.gtb_spec weights free) as [|_]; [lia|].
  destruct (_find_valid_max_length_spec model_cls available upb s U B0 HU HB)
    as (fl & L & B & evs1 & Heq & _).
  cbv [bind get_config]. rewrite Heq. cbv [modify_config]. cbn [config trace].
  rewrite HU, HB.
  set (s1 := {| config := set_max_batch_size (Some B0)
                            (search_config L B (config s));
                trace := trace s
                         ++ FindValidMaxLength (config s) available :: evs1 |}).
  assert (Hsearch : exists fb b s2,
             _find_valid_batch_size model_cls available (Some U) upb s1
             = (Done (fb, b), s2) /\ (upb = false -> fb = false)).
  { destruct upb.
    - destruct (_find_valid_batch_size_spec model_cls available (Some U) s1 B0
                  eq_refl) as (fb & b & evs2 & Heq2 & _).
      eexists _, _, _. split; [exact Heq2|discriminate].
    - rewrite _find_valid_batch_size_not_user_provided. eauto 6. }
  destruct Hsearch as (fb & b & s2 & Heq2 & Hfb).
  exists fl, L, B. eexists. exists fb, b, s2.
  split; [reflexivity|]. cbn [config trace]. fold s1.
  split; [exact Heq2|]. split; [exact Hfb|].
  rewrite Heq2. cbn [lift].
  destruct (_generate_oom_error_message _ _ _ _ _ _ _ _ _ _);
    reflexivity.
Qed.

End ResolverRuns.



(** ** Soundness and near-optimality of the length search *)

(** C1.  Soundness of the length search.  From a configuration that holds a
    length (of at least 1, or any other) and a batch size,
    [_find_valid_max_length] returns, and when it answers "found" the cache
    size that the capacity model computes for the returned length and the
    returned companion batch size fits the budget.  That pair is what the
    configuration object then holds; the companion batch size is the user's
    when the user gave one, and otherwise the one inferred for the returned
    length. *)
Theorem find_valid_max_length_sound model_cls available upb s U b0 :
  max_length (config s) = Some U ->
  max_batch_size (config s) = Some b0 ->
  exists found L B s',
    _find_valid_max_length model_cls available upb s = (Done (found, L, B), s')
    /\ (found = true ->
        config s' = search_config L B (config s)
        /\ (if upb then B = Some b0
            else exists b1,
                B = Some (infer_optimal_batch_size model_cls
                            (search_config L b1 (config s)) available))
        /\ kv_cache_size_of model_cls (search_config L B (config s)) available
           <= available).
Proof.
  intros HU Hb.
  destruct (_find_valid_max_length_spec model_cls available upb s U b0 HU Hb)
    as (found & L & B & evs & Heq & _ & _ & Hfit & HB & _).
  exists found, L, B. eexists. split; [exact Heq|].
  intros Hfound. cbn [config]. split; [reflexivity|]. split; [|auto].
  destruct upb; [congruence|exact HB].
Qed.

Lemma find_valid_max_length_sound_witness :
  exists found L B s',
    _find_valid_max_length (product_model 10) (10 * MiB) true
      (initial_state (example_config (Some 8) (Some 4) 16))
    = (Done (found, L, B), s')
    /\ (found = true ->
        config s' = search_config L B (example_config (Some 8) (Some 4) 16)
        /\ B = Some 4
        /\ kv_cache_size_of (product_model 10)
             (search_config L B (example_config (Some 8) (Some 4) 16))
             (10 * MiB)
           <= 10 * MiB).
Proof.
  apply (find_valid_max_length_sound (product_model 10) (10 * MiB) true
           (initial_state (example_config (Some 8) (Some 4) 16)) 8 4);
    reflexivity.
Defined.




(** ** Weights that exceed the free memory *)

(** C3, as stated, fails: with no [max_length] given, the length search of
    the automatic remedy runs before the weights are compared with the free
    memory.  Here the weights take 20 MiB of 16 MiB free. *)
Lemma weights_too_large_runs_length_search :
  sum_free_memory (devices (example_config None None 16)) 0 = inr (16 * MiB)
  /\ estimate_weights_size (product_model 20) (example_config None None 16)
     = 20 * MiB
  /\ exists s',
      _estimate_memory_footprint (product_model 20)
        (initial_state (example_config None None 16))
      = (Raise (RuntimeError weights_too_large_message), s')
      /\ existsb is_FindValidMaxLength (trace s') = true.
Proof.
  split; [reflexivity|]. split; [reflexivity|].
  eexists. split; [vm_compute; reflexivity|]. reflexivity.
Qed.

(** C3, as amended.  When the device statistics give a free memory other
    than 0 and the weights alone exceed it, [_estimate_memory_footprint]
    raises the weights-too-large error.  The batch-size search is never
    called, the length search is not called for the diagnosis, and it is
    called once, by the automatic remedy, exactly when the user gave no
    [max_length].  (The weights are below [2 ^ 999] bytes, the cache sizes
    that the run measures are not negative and below [2 ^ 999] bytes, and
    the utilization is a finite float.) *)
Theorem weights_too_large_short_circuit model_cls s free :
  sum_free_memory (devices (config s)) 0 = inr free ->
  free <> 0 ->
  Z.abs free < 2 ^ 1000 ->
  free < estimate_weights_size model_cls (config s) < 2 ^ 999 ->
  bounded_float (device_memory_utilization (config s)) ->
  forallb (cache_size_in_range model_cls)
    (events_since s (snd (_estimate_memory_footprint model_cls s))) = true ->
  exists s' evs,
    _estimate_memory_footprint model_cls s
    = (Raise (RuntimeError weights_too_large_message), s')
    /\ trace s' = trace s ++ evs
    /\ existsb is_FindValidBatchSize evs = false
    /\ (List.length (filter is_FindValidMaxLength evs) <= 1)%nat
    /\ existsb is_FindValidMaxLength evs
       = negb (is_not_None (max_length (config s))).
Proof.
  intros Hsum Hf0 Hf [Hw1 Hw2] Hu Hrange.
  pose proof (fun c a => cache_size_in_range_In model_cls _ c a Hrange) as Hkv.
  clear Hrange.
  rewrite (_estimate_memory_footprint_available model_cls s free Hsum) in *.
  assert (Hbudget : cache_budget model_cls free (config s) = inr 0).
  { unfold cache_budget. rewrite Z.max_l by lia.
    now apply int_mul_float_to_int_zero. }
  destruct (estimate_memory_footprint_sizes_spec model_cls free s 0 Hbudget)
    as (s1 & Hinit & Htr1 & Hc1 & l' & s2 & evs & Hrun & Htr2 & Hfree & Hweights
        & _ & _ & _ & _ & Hnb & Hcount & Hsearch & Hsame & _).
  cbn [initial_footprint free_memory model_weights_size total_size
         actual_kv_cache_size user_provided_max_length]
    in Hfree, Hweights, Hsearch.
  rewrite (bind_Done _ _ _ _ _ Hrun) in *.
  (* what the run measured *)
  destruct (estimate_memory_footprint_report_extends model_cls l' s2)
    as [tail Htail]; [lia|].
  assert (Hall : events_since s
                   (snd (estimate_memory_footprint_report model_cls l' s2))
                 = initial_events model_cls 0 (config s) ++ evs ++ tail).
  { apply events_since_app. rewrite Htail, Htr2, Htr1, <- !app_assoc.
    reflexivity. }
  rewrite Hall in Hkv.
  assert (Hl' : total_size l' = model_weights_size l' + actual_kv_cache_size l'
                /\ 0 <= actual_kv_cache_size l' < 2 ^ 999).
  { destruct (initial_config_fields model_cls 0 (config s)) as [[U HU] [b Hb]].
    assert (HU1 : max_length (config s1) = Some U)
      by (rewrite Hc1; destruct (initial_config model_cls 0 (config s)); exact HU).
    assert (Hb1 : max_batch_size (config s1) = Some b)
      by (rewrite Hc1; destruct (initial_config model_cls 0 (config s)); exact Hb).
    destruct (estimate_memory_footprint_shrink_measured model_cls
                (initial_footprint model_cls free 0 (config s)) s1 U b HU1 Hb1)
      as (l2 & s2' & evs' & Hshrink & Htr' & Hcase).
    unfold estimate_memory_footprint_sizes in Hrun.
    rewrite (bind_Done _ _ _ _ _ Hinit), Hshrink in Hrun.
    injection Hrun as -> ->.
    assert (evs' = evs) by (rewrite Htr2 in Htr'; now apply app_inv_head in Htr').
    subst evs'.
    destruct Hcase as [->|(Hin & Hact & Htot & _)].
    - cbn [initial_footprint total_size model_weights_size actual_kv_cache_size].
      split; [reflexivity|]. apply Hkv.
      unfold initial_events. rewrite !in_app_iff. cbn [In]. auto 10.
    - rewrite Htot, Hweights, Hact. split; [reflexivity|].
      apply Hkv. rewrite !in_app_iff. auto. }
  destruct Hl' as [Ht' Hkv'].
  assert (H2 : 2 ^ 1000 = 2 * 2 ^ 999) by reflexivity.
  destruct (estimate_memory_footprint_logging_str_ok l' (config s2))
    as [info Hinfo]; try lia.
  rewrite (estimate_memory_footprint_report_weights model_cls l' s2 info Hinfo)
    by lia.
  eexists _, _. split; [reflexivity|]. cbn [trace].
  split; [rewrite Htr2, Htr1, <- !app_assoc; reflexivity|].
  destruct (existsb_search_split _
              (initial_events_no_search model_cls 0 (config s)))
    as (Hi1 & Hi2 & Hi3).
  split; [rewrite !existsb_app, Hi1, Hnb; reflexivity|].
  split; [rewrite !filter_app, Hi3, !length_app; cbn; lia|].
  rewrite !existsb_app, Hi2. cbn. rewrite orb_false_r.
  destruct (max_length (config s)) as [L|] eqn:HL; cbn.
  - destruct (existsb is_FindValidMaxLength evs) eqn:E; [|reflexivity].
    destruct (proj1 Hsearch eq_refl) as [E' _]. discriminate.
  - apply Hsearch. split; [reflexivity|].
    pose proof (Hkv (initial_config model_cls 0 (config s)) 0) as Hkv1.
    assert (0 <= kv_cache_size_of model_cls
                   (initial_config model_cls 0 (config s)) 0 < 2 ^ 999).
    { apply Hkv1. unfold initial_events. rewrite !in_app_iff. cbn [In]. auto 10. }
    lia.
Qed.

Lemma weights_too_large_short_circuit_witness :
  exists s' evs,
    _estimate_memory_footprint (product_model 20)
      (initial_state (example_config None None 16))
    = (Raise (RuntimeError weights_too_large_message), s')
    /\ trace s' = [] ++ evs
    /\ existsb is_FindValidBatchSize evs = false
    /\ (List.length (filter is_FindValidMaxLength evs) <= 1)%nat
    /\ existsb is_FindValidMaxLength evs = true.
Proof.
  apply (weights_too_large_short_circuit (product_model 20)
           (initial_state (example_config None None 16)) (16 * MiB)).
  - reflexivity.
  - discriminate.
  - vm_compute. reflexivity.
  - split; vm_compute; reflexivity.
  - cbn. lia.
  - vm_compute. reflexivity.
Defined.

(** ** Unreadable device statistics *)

(** C4.  Degraded mode.  When the free-memory statistics of the devices
    cannot be read, [_estimate_memory_footprint] returns without raising; a
    batch size that was not given becomes 1 and a length that was not given
    becomes the ceiling of the model; values the user gave (other than 0) are
    kept.  Apart from the warning, the only call it makes is the one for the
    ceiling: no weights estimate, no cache-size estimate, no batch-size
    inference and no search. *)
Theorem degraded_mode_on_device_stat_failure model_cls s e :
  sum_free_memory (devices (config s)) 0 = inl e ->
  exists s' evs,
    _estimate_memory_footprint model_cls s = (Done tt, s')
    /\ trace s' = trace s ++ LogWarning (unable_to_estimate_message e) :: evs
    /\ existsb is_budgeting evs = false
    /\ (max_batch_size (config s) = None ->
        max_batch_size (config s') = Some 1)
    /\ (max_length (config s) = None ->
        max_length (config s')
        = Some (calculate_max_seq_len model_cls (with_batch_size_one (config s)))
        /\ evs = [CalcMaxSeqLen (with_batch_size_one (config s))])
    /\ (forall b, max_batch_size (config s) = Some b -> b <> 0 ->
                  max_batch_size (config s') = Some b)
    /\ (forall L, max_length (config s) = Some L -> L <> 0 ->
                  max_length (config s') = Some L /\ evs = []).
Proof.
  intros Hsum.
  rewrite (_estimate_memory_footprint_unavailable model_cls s e Hsum).
  eexists _, _. split; [reflexivity|]. cbn [config trace].
  split; [reflexivity|].
  unfold degraded_config, degraded_events, with_ceiling, with_batch_size_one.
  destruct (config s) as [ml mb u ds ac]. cbn [max_length max_batch_size].
  destruct mb as [[|b|b]|], ml as [[|L|L]|]; cbn;
    repeat split; intros; try congruence; try reflexivity.
Qed.

Lemma degraded_mode_on_device_stat_failure_witness :
  exists s' evs,
    _estimate_memory_footprint (product_model 10)
      (initial_state (unreadable_config None None))
    = (Done tt, s')
    /\ trace s'
       = [] ++ LogWarning (unable_to_estimate_message "no such statistic") :: evs
    /\ existsb is_budgeting evs = false
    /\ (@None Z = None -> max_batch_size (config s') = Some 1)
    /\ (@None Z = None ->
        max_length (config s') = Some 8
        /\ evs = [CalcMaxSeqLen (unreadable_config None (Some 1))])
    /\ (forall b : Z, None = Some b -> b <> 0 ->
                      max_batch_size (config s') = Some b)
    /\ (forall L : Z, None = Some L -> L <> 0 ->
                      max_length (config s') = Some L /\ evs = []).
Proof.
  apply (degraded_mode_on_device_stat_failure (product_model 10)
           (initial_state (unreadable_config None None)) "no such statistic").
  reflexivity.
Defined.

(** ** What a resolution keeps of the values of the user *)

(** C5, as stated, fails in its last part: with no batch size given, the
    automatic remedy infers the batch size again at every trial length and
    leaves the last one in the configuration.  Here the batch size inferred
    for the ceiling is 4 and the resolution succeeds with a batch size of 1. *)
Lemma auto_shrink_lowers_inferred_batch_size :
  exists l s1 s',
    estimate_memory_footprint_initial halving_model (16 * MiB)
      (initial_state (example_config None None 16))
    = (Done l, s1)
    /\ max_batch_size (config s1) = Some 4
    /\ _estimate_memory_footprint halving_model
         (initial_state (example_config None None 16))
       = (Done tt, s')
    /\ max_length (config s') = Some 2
    /\ max_batch_size (config s') = Some 1.
Proof.
  eexists _, _, _.
  split; [vm_compute; reflexivity|].
  split; [reflexivity|].
  split; [vm_compute; reflexivity|].
  split; reflexivity.
Qed.

(** C5, as amended.  In every resolution that returns without raising: a
    [max_length] given by the user (other than 0) is what the configuration
    holds at the end, and then no search was run; a length search was run
    only if the user gave no [max_length] and the first estimated total
    exceeded the free memory; the batch-size search was never run; and a
    batch size given by the user (other than 0) is what the configuration
    holds at the end.  And in every resolution, successful or not, the
    automatic remedy runs its length search exactly when the user gave no
    [max_length] and the first estimated total exceeds the free memory; it
    runs no batch-size search and keeps a batch size given by the user. *)
Theorem resolution_keeps_user_values model_cls s :
  (forall s',
      _estimate_memory_footprint model_cls s = (Done tt, s') ->
      exists evs,
        trace s' = trace s ++ evs
        /\ (forall L, max_length (config s) = Some L -> L <> 0 ->
                      max_length (config s') = Some L
                      /\ existsb is_search evs = false)
        /\ (existsb is_FindValidMaxLength evs = true ->
            max_length (config s) = None
            /\ exists free l s1,
                sum_free_memory (devices (config s)) 0 = inr free
                /\ estimate_memory_footprint_initial model_cls free s
                   = (Done l, s1)
                /\ total_size l > free)
        /\ existsb is_FindValidBatchSize evs = false
        /\ (forall b, max_batch_size (config s) = Some b -> b <> 0 ->
                      max_batch_size (config s') = Some b))
  /\ (forall free l s1,
         sum_free_memory (devices (config s)) 0 = inr free ->
         estimate_memory_footprint_initial model_cls free s = (Done l, s1) ->
         exists l' s2 evs,
           estimate_memory_footprint_shrink model_cls l s1 = (Done l', s2)
           /\ trace s2 = trace s1 ++ evs
           /\ (existsb is_FindValidMaxLength evs = true <->
               max_length (config s) = None /\ total_size l > free)
           /\ existsb is_FindValidBatchSize evs = false
           /\ (forall b, max_batch_size (config s) = Some b ->
                         max_batch_size (config s2) = Some b)).
Proof.
  split.
  - intros s' Hrun.
    destruct (sum_free_memory (devices (config s)) 0) as [e|free] eqn:Hsum.
    + rewrite (_estimate_memory_footprint_unavailable model_cls s e Hsum) in Hrun.
      injection Hrun as <-. cbn [config trace].
      eexists. split; [reflexivity|].
      unfold degraded_config, degraded_events, with_ceiling, with_batch_size_one.
      destruct (config s) as [ml mb u ds ac]. cbn [max_length max_batch_size].
      destruct mb as [[|b|b]|], ml as [[|L|L]|]; cbn;
        repeat split; intros; try congruence; try reflexivity.
    + rewrite (_estimate_memory_footprint_available model_cls s free Hsum)
        in Hrun.
      apply bind_Done_inv in Hrun. destruct Hrun as (l2 & s2 & Hsizes & Hreport).
      destruct (estimate_memory_footprint_sizes_Done_inv model_cls free s l2 s2
                  Hsizes)
        as (available & s1 & _ & Hinit & Htr1 & Hcfg1 & l' & s2' & evs & Heq
            & Htr2 & _ & _ & _ & _ & _ & _ & Hnb & _ & Hsearch & Hsame & Hbatch).
      injection Heq as <- <-.
      apply estimate_memory_footprint_report_Done_inv in Hreport.
      destruct Hreport as (_ & Hcfg & info & Htr).
      destruct (existsb_search_split _
                  (initial_events_no_search model_cls available (config s)))
        as (Hi1 & Hi2 & _).
      cbn [initial_footprint user_provided_max_length
             user_provided_max_batch_size total_size free_memory]
        in Hsearch, Hsame, Hbatch.
      eexists. split; [rewrite Htr, Htr2, Htr1, <- !app_assoc; reflexivity|].
      split; [|split; [|split]].
      * intros L HL _. rewrite HL in Hsame.
        destruct (Hsame (or_introl eq_refl)) as [_ ->].
        rewrite Hcfg, Hcfg1. split.
        -- cbn. now apply initial_config_user_length.
        -- rewrite Htr1 in Htr2.
           rewrite <- (app_nil_r (trace s ++ _)) in Htr2 at 1.
           apply app_inv_head in Htr2. subst evs.
           rewrite !existsb_app, initial_events_no_search.
           cbn. now destruct (over_vram_usage_limit _ _).
      * intros Hex. rewrite !existsb_app, Hi2 in Hex. cbn in Hex.
        assert (Hev : existsb is_FindValidMaxLength evs = true).
        { apply orb_true_iff in Hex.
          destruct Hex as [Hex|Hex]; [exact Hex|].
          now destruct (over_vram_usage_limit _ _). }
        apply Hsearch in Hev. destruct Hev as [Hupl Hgt]. split.
        -- destruct (max_length (config s)); [discriminate|reflexivity].
        -- exists free. eexists _, _. split; [reflexivity|].
           split; [exact Hinit|]. exact Hgt.
      * rewrite !existsb_app, Hi1, Hnb. cbn.
        now destruct (over_vram_usage_limit _ _).
      * intros b Hb _. rewrite Hb in Hbatch.
        rewrite Hcfg, (Hbatch eq_refl), Hcfg1. cbn.
        now apply initial_config_user_batch_size.
  - intros free l s1 Hsum Hinit.
    pose proof (estimate_memory_footprint_initial_eq model_cls free s) as Heq0.
    rewrite Hinit in Heq0.
    destruct (cache_budget model_cls free (config s)) as [e|available];
      [discriminate|].
    injection Heq0 as Hl Hs1.
    destruct (initial_config_fields model_cls available (config s))
      as [[U HU] [b0 Hb0]].
    destruct (estimate_memory_footprint_shrink_spec model_cls l s1 U b0)
      as (l' & s2 & evs & Heq & Htr & _ & _ & _ & _ & _ & _ & Hnb & _ & Hsearch
          & _ & Hbatch); [rewrite Hs1; exact HU|rewrite Hs1; exact Hb0|].
    exists l', s2, evs. split; [exact Heq|]. split; [exact Htr|].
    rewrite Hl in Hsearch, Hbatch. rewrite Hs1 in Hbatch.
    cbn [initial_footprint user_provided_max_length
           user_provided_max_batch_size total_size free_memory config]
      in Hsearch, Hbatch.
    split; [|split; [exact Hnb|]].
    + rewrite Hsearch, Hl. cbn [initial_footprint total_size].
      destruct (max_length (config s)); cbn; intuition congruence.
    + intros b Hb. rewrite Hb in Hbatch. rewrite (Hbatch eq_refl). cbn.
      now apply initial_config_user_batch_size.
Qed.

Lemma resolution_keeps_user_values_witness :
  (exists s',
      _estimate_memory_footprint (product_model 10)
        (initial_state (example_config (Some 5) (Some 1) 16))
      = (Done tt, s')
      /\ exists evs,
          trace s' = [] ++ evs
          /\ (forall L, Some 5 = Some L -> L <> 0 ->
                        max_length (config s') = Some L
                        /\ existsb is_search evs = false)
          /\ (existsb is_FindValidMaxLength evs = true ->
              Some 5 = None
              /\ exists free l s1,
                  sum_free_memory (one_device 16) 0 = inr free
                  /\ estimate_memory_footprint_initial (product_model 10) free
                       (initial_state (example_config (Some 5) (Some 1) 16))
                     = (Done l, s1)
                  /\ total_size l > free)
          /\ existsb is_FindValidBatchSize evs = false
          /\ (forall b, Some 1 = Some b -> b <> 0 ->
                        max_batch_size (config s') = Some b))
  /\ (exists l s1,
         estimate_memory_footprint_initial (product_model 10) (16 * MiB)
           (initial_state (example_config (Some 5) (Some 1) 16))
         = (Done l, s1)
         /\ exists l' s2 evs,
             estimate_memory_footprint_shrink (product_model 10) l s1
             = (Done l', s2)
             /\ trace s2 = trace s1 ++ evs
             /\ (existsb is_FindValidMaxLength evs = true <->
                 Some 5 = None /\ total_size l > 16 * MiB)
             /\ existsb is_FindValidBatchSize evs = false
             /\ (forall b, Some 1 = Some b ->
                           max_batch_size (config s2) = Some b)).
Proof.
  destruct (resolution_keeps_user_values (product_model 10)
              (initial_state (example_config (Some 5) (Some 1) 16)))
    as [Hdone Hshrink].
  split.
  - eexists. split; [vm_compute; reflexivity|].
    apply Hdone. vm_compute. reflexivity.
  - eexists _, _. split; [vm_compute; reflexivity|].
    apply (Hshrink (16 * MiB)); [reflexivity|vm_compute; reflexivity].
Defined.

(** ** The length that the batch-size search holds *)

(** C6, at an input where the code departs from it.  No [max_length] is
    given (the ceiling is 8), the batch size 8 is given, and no length fits.
    The automatic remedy fails and leaves the length 1 in the configuration;
    the diagnosis takes that 1 for the original length, so the batch-size
    search measures every cache size at length 1, not at the length 8 that
    the configuration held before the first search. *)
Theorem batch_search_after_failed_shrink :
  exists s',
    _estimate_memory_footprint (product_model 10)
      (initial_state (example_config None (Some 8) 16))
    = (Raise
         (RuntimeError
            "Estimated model and kv cache memory use exceeds available memory (74 MiB / 16 MiB free). Try reducing --max-batch-size to 4."),
       s')
    /\ search_entry_lengths (trace s') = [Some 8; Some 1; Some 1]
    /\ kv_lengths (after_batch_search_entry (trace s'))
       = [Some 1; Some 1; Some 1].
Proof.
  eexists. split; [vm_compute; reflexivity|]. split; reflexivity.
Qed.

(** ** The high-water mark *)

(** C7, as stated, fails at the threshold itself: a total of 95 MiB against
    100 MiB free is 95% of the free memory, the resolution succeeds, and no
    warning is logged. *)
Lemma no_high_water_mark_warning_at_95_percent :
  exists l s2 s',
    estimate_memory_footprint_sizes (product_model 90) (100 * MiB)
      (initial_state (example_config (Some 5) (Some 1) 100))
    = (Done l, s2)
    /\ total_size l = 95 * MiB
    /\ 100 * total_size l >= 95 * (100 * MiB)
    /\ _estimate_memory_footprint (product_model 90)
         (initial_state (example_config (Some 5) (Some 1) 100))
       = (Done tt, s')
    /\ existsb is_LogWarning (trace s') = false.
Proof.
  eexists _, _, _.
  split; [vm_compute; reflexivity|].
  split; [reflexivity|].
  split; [vm_compute; discriminate|].
  split; [vm_compute; reflexivity|].
  reflexivity.
Qed.

(** C7, as amended.  When the device statistics give a free memory other
    than 0 and the estimated total (after the automatic remedy, if any) is
    within it, [_estimate_memory_footprint] returns without raising, and it
    logs the high-water-mark warning exactly when the total is strictly
    greater than the float product [0.95 * free_memory]; nothing else follows
    the log record of the estimate.  (Sizes are below [2 ^ 1000] bytes.)
    For a free memory below [2 ^ 46] bytes the float comparison agrees with
    the exact one: the warning is logged exactly when the total is strictly
    above 95% of the free memory, [19 * free < 20 * total]. *)
Theorem high_water_mark_warning model_cls s free l s2 :
  sum_free_memory (devices (config s)) 0 = inr free ->
  estimate_memory_footprint_sizes model_cls free s = (Done l, s2) ->
  total_size l <= free ->
  free <> 0 ->
  Z.abs free < 2 ^ 1000 ->
  Z.abs (model_weights_size l) < 2 ^ 1000 ->
  Z.abs (actual_kv_cache_size l) < 2 ^ 1000 ->
  Z.abs (model_weights_size l + actual_kv_cache_size l) < 2 ^ 1000 ->
  exists info f,
    _estimate_memory_footprint model_cls s
    = (Done tt,
       {| config := config s2;
          trace := trace s2
                   ++ LogInfo info
                      :: (if int_gt_float (total_size l)
                               (float_mul float_0_95 f)
                          then [LogWarning high_water_mark_message]
                          else []) |})
    /\ float_of_int free = inr f
    /\ (0 < free < 2 ^ 46 ->
        int_gt_float (total_size l) (float_mul float_0_95 f)
        = (19 * free <? 20 * total_size l)).
Proof.
  intros Hsum Hsizes Hle Hf0 Hf Hw Hkv Htot.
  destruct (estimate_memory_footprint_sizes_Done_inv model_cls free s l s2 Hsizes)
    as (available & s1 & _ & _ & _ & _ & l' & s' & evs & Heq & _ & Hfree & _).
  injection Heq as <- <-. cbn [initial_footprint free_memory] in Hfree.
  rewrite (_estimate_memory_footprint_available model_cls s free Hsum).
  rewrite (bind_Done _ _ _ _ _ Hsizes).
  destruct (estimate_memory_footprint_logging_str_ok l (config s2))
    as [info Hinfo]; try (rewrite Hfree; assumption); try assumption.
  rewrite (estimate_memory_footprint_report_within model_cls l s2 info Hinfo)
    by (rewrite Hfree; exact Hle).
  destruct (float_of_int_ok free Hf) as (f & Hfl & _).
  unfold exceeds_vram_usage_limit. rewrite Hfree, Hfl. cbn [bind_exn].
  exists info, f. split; [reflexivity|]. split; [reflexivity|].
  intros Hsmall.
  rewrite <- (over_vram_usage_limit_spec (total_size l) free Hsmall).
  unfold over_vram_usage_limit, exceeds_vram_usage_limit.
  rewrite Hfl. reflexivity.
Qed.

Lemma high_water_mark_warning_witness :
  exists l s2,
    estimate_memory_footprint_sizes (product_model 91) (100 * MiB)
      (initial_state (example_config (Some 5) (Some 1) 100))
    = (Done l, s2)
    /\ exists info f,
        _estimate_memory_footprint (product_model 91)
          (initial_state (example_config (Some 5) (Some 1) 100))
        = (Done tt,
           {| config := config s2;
              trace := trace s2
                       ++ LogInfo info
                          :: (if int_gt_float (total_size l)
                                   (float_mul float_0_95 f)
                              then [LogWarning high_water_mark_message]
                              else []) |})
        /\ float_of_int (100 * MiB) = inr f
        /\ (0 < 100 * MiB < 2 ^ 46 ->
            int_gt_float (total_size l) (float_mul float_0_95 f)
            = (19 * (100 * MiB) <? 20 * total_size l)).
Proof.
  eexists _, _. split; [vm_compute; reflexivity|].
  apply (high_water_mark_warning (product_model 91)
           (initial_state (example_config (Some 5) (Some 1) 100)) (100 * MiB));
    try (vm_compute; reflexivity); vm_compute; discriminate.
Defined.

(** ** Termination of the searches *)

(** C8.  Both searches come to an end, whatever the cost functions answer:
    from a configuration that holds a length [U] and a batch size [B0], each
    search returns after at most [1 + log2_up (n - 1)] evaluations of the
    cache size, where [n] is the value its interval starts from. *)
Theorem searches_terminate model_cls available upb original_max_length s U B0 :
  max_length (config s) = Some U ->
  max_batch_size (config s) = Some B0 ->
  (exists r s' evs,
      _find_valid_max_length model_cls available upb s = (Done r, s')
      /\ trace s' = trace s ++ evs
      /\ Z.of_nat (kv_calls evs) <= 1 + Z.log2_up (U - 1))
  /\ (exists r s' evs,
         _find_valid_batch_size model_cls available original_max_length upb s
         = (Done r, s')
         /\ trace s' = trace s ++ evs
         /\ Z.of_nat (kv_calls evs) <= 1 + Z.log2_up (B0 - 1)).
Proof.
  intros HU HB. split.
  - destruct (_find_valid_max_length_spec model_cls available upb s U B0 HU HB)
      as (found & L & B & evs & Heq & Hn & _).
    eexists _, _, _. split; [exact Heq|]. split; [reflexivity|].
    change (kv_calls (FindValidMaxLength (config s) available :: evs))
      with (kv_calls evs).
    unfold search_fuel in Hn.
    pose proof (Z.log2_up_nonneg (U - 1)). lia.
  - destruct upb.
    + destruct (_find_valid_batch_size_spec model_cls available
                  original_max_length s B0 HB)
        as (found & b & evs & Heq & Hn & _).
      eexists _, _, _. split; [exact Heq|]. split; [reflexivity|].
      change (kv_calls (FindValidBatchSize (config s) available :: evs))
        with (kv_calls evs).
      unfold search_fuel in Hn.
      pose proof (Z.log2_up_nonneg (B0 - 1)). lia.
    + rewrite _find_valid_batch_size_not_user_provided.
      eexists _, _, _. split; [reflexivity|]. split; [reflexivity|].
      change (kv_calls [FindValidBatchSize (config s) available]) with 0%nat.
      pose proof (Z.log2_up_nonneg (B0 - 1)). lia.
Qed.

Lemma searches_terminate_witness :
  (exists r s' evs,
      _find_valid_max_length sum_model (10 * MiB) false
        (initial_state (example_config (Some 8192) (Some 64) 16))
      = (Done r, s')
      /\ trace s' = [] ++ evs
      /\ Z.of_nat (kv_calls evs) <= 1 + Z.log2_up (8192 - 1))
  /\ (exists r s' evs,
         _find_valid_batch_size sum_model (10 * MiB) (Some 8192) false
           (initial_state (example_config (Some 8192) (Some 64) 16))
         = (Done r, s')
         /\ trace s' = [] ++ evs
         /\ Z.of_nat (kv_calls evs) <= 1 + Z.log2_up (64 - 1)).
Proof.
  apply (searches_terminate sum_model (10 * MiB) false (Some 8192)
           (initial_state (example_config (Some 8192) (Some 64) 16)) 8192 64);
    reflexivity.
Defined.

(** ** The composer *)

Lemma string_append_assoc (a b c : string) :
  ((a ++ b) ++ c = a ++ (b ++ c))%string.
Proof. induction a as [|x a IH]; cbn; [reflexivity|now rewrite IH]. Qed.

Lemma string_append_nil_r (a : string) : (a ++ EmptyString = a)%string.
Proof. induction a as [|x a IH]; cbn; [reflexivity|now rewrite IH]. Qed.

Ltac string_normalize :=
  repeat (cbn [append] || rewrite string_append_assoc
          || rewrite string_append_nil_r).

Lemma offers_intro before text after msg :
  msg = (before ++ text ++ after)%string -> offers text msg.
Proof. intros H. exists before, after. exact H. Qed.

Ltac string_assoc := repeat (cbn [append] || rewrite string_append_assoc).

Ltac offers_with before :=
  first [ eapply (offers_intro before); string_assoc; reflexivity
        | apply (offers_intro before _ EmptyString);
          string_normalize; reflexivity ].

Ltac offers_tac L b B :=
  first
    [ offers_with "reducing "%string
    | offers_with "setting "%string
    | offers_with ("reducing --max-batch-size to " ++ str_int b
                   ++ " or setting ")%string
    | offers_with ("reducing --max-length to " ++ str_int L
                   ++ " and --max-batch-size to " ++ str_opt_int B
                   ++ ") or reducing ")%string
    | offers_with ("setting --max-length to " ++ str_int L
                   ++ " and --max-batch-size to " ++ str_opt_int B
                   ++ ") or setting ")%string ].

(** C9.  The message of a capacity-exceeded failure.  From a configuration
    that holds a length and a batch size, and for sizes below [2 ^ 1000]
    bytes, [_raise_oom_error] past the weights check runs the two searches
    and raises a [RuntimeError] whose message is the opening sentence, a
    suggestion, and a full stop.  When neither search found a value the
    suggestion is the generic one (reduce the length or the batch size, find
    a smaller model, or use a device with more memory).  When the length
    search found a length the suggestion offers that length, when the
    batch-size search found a batch size it offers that batch size, and in
    both cases it is not the generic one. *)
Theorem oom_message_offers_found_values
    model_cls upl (upb : bool) total free available weights s U B0 :
  weights <= free ->
  max_length (config s) = Some U ->
  max_batch_size (config s) = Some B0 ->
  Z.abs total < 2 ^ 1000 ->
  Z.abs free < 2 ^ 1000 ->
  exists fl L B s1 fb b s' total_mib free_memory_str suggestion,
    _find_valid_max_length model_cls available upb s = (Done (fl, L, B), s1)
    /\ _find_valid_batch_size model_cls available (Some U) upb
         {| config := set_max_batch_size (Some B0) (config s1);
            trace := trace s1 |}
       = (Done (fb, b), s')
    /\ _raise_oom_error model_cls upl upb total free available weights s
       = (Raise (RuntimeError
                   (oom_message_head total_mib free_memory_str
                    ++ suggestion ++ ".")%string), s')
    /\ _to_mib total = inr total_mib
    /\ (fl = false -> fb = false -> suggestion = generic_suggestion)
    /\ (fl = true -> offers ("--max-length to " ++ str_int L) suggestion)
    /\ (fb = true -> offers ("--max-batch-size to " ++ str_int b) suggestion)
    /\ (fl = true \/ fb = true -> suggestion <> generic_suggestion).
Proof.
  intros Hw HU HB Ht Hf.
  destruct (_raise_oom_error_searches model_cls upl upb total free available
              weights s U B0 Hw HU HB)
    as (fl & L & B & s1 & fb & b & s2 & Hs1 & Hs2 & Hfb & Hrun).
  exists fl, L, B, s1, fb, b, s2.
  unfold _generate_oom_error_message in Hrun.
  destruct (_to_mib_ok _ Ht) as [tm Htm]. rewrite Htm in Hrun.
  assert (Hfree : exists fs,
             (if free =? 0 then inr EmptyString
              else bind_exn (_to_mib free)
                     (fun m => inr (" / " ++ str_int m ++ " MiB free")%string))
             = (inr fs : Exn + string)).
  { destruct (free =? 0); [eauto|].
    destruct (_to_mib_ok _ Hf) as [fm ->]. cbn. eauto. }
  destruct Hfree as [fs Hfs]. rewrite Hfs in Hrun. cbn [bind_exn] in Hrun.
  eexists tm, fs, _.
  split; [exact Hs1|]. split; [exact Hs2|]. split; [exact Hrun|].
  split; [exact Htm|].
  split; [intros -> ->; reflexivity|].
  unfold _add_user_provided_max_length_suggestions,
    _add_default_max_length_suggestions, generic_suggestion.
  destruct upb; [|rewrite (Hfb eq_refl)];
    destruct fl, upl; try destruct fb; cbn [negb andb];
    (split; [intros H; try discriminate H|
             split; [intros H; try discriminate H|
                     intros H; try (destruct H; discriminate)]]).
  all: try (string_normalize; discriminate).
  all: offers_tac L b B.
Qed.

Lemma oom_message_offers_found_values_witness :
  exists fl L B s1 fb b s' total_mib free_memory_str suggestion,
    _find_valid_max_length (product_model 10) (5 * MiB) false
      (initial_state (example_config (Some 8) (Some 1) 16))
    = (Done (fl, L, B), s1)
    /\ _find_valid_batch_size (product_model 10) (5 * MiB) (Some 8) false
         {| config := set_max_batch_size (Some 1) (config s1);
            trace := trace s1 |}
       = (Done (fb, b), s')
    /\ _raise_oom_error (product_model 10) true false (18 * MiB) (16 * MiB)
         (5 * MiB) (10 * MiB)
         (initial_state (example_config (Some 8) (Some 1) 16))
       = (Raise (RuntimeError
                   (oom_message_head total_mib free_memory_str
                    ++ suggestion ++ ".")%string), s')
    /\ _to_mib (18 * MiB) = inr total_mib
    /\ (fl = false -> fb = false -> suggestion = generic_suggestion)
    /\ (fl = true -> offers ("--max-length to " ++ str_int L) suggestion)
    /\ (fb = true -> offers ("--max-batch-size to " ++ str_int b) suggestion)
    /\ (fl = true \/ fb = true -> suggestion <> generic_suggestion).
Proof.
  apply (oom_message_offers_found_values (product_model 10) true false
           (18 * MiB) (16 * MiB) (5 * MiB) (10 * MiB)
           (initial_state (example_config (Some 8) (Some 1) 16)) 8 1).
  - vm_compute. discriminate.
  - reflexivity.
  - reflexivity.
  - vm_compute. reflexivity.
  - vm_compute. reflexivity.
Defined.

(** ** The configuration after a length search *)

(** C10.  What the length search leaves in the shared configuration object.
    When [_find_valid_max_length] returns, whether it found a length or not,
    the object's [max_length] is the returned length, which is the length of
    the last trial: the last thing the search did was to measure the cache
    size of the object as it is left.  A search entered with a length above 1
    returns a smaller one, so the length held at entry is not put back.  With
    a batch size the user did not give, the object's [max_batch_size] is the
    returned companion, inferred at that last trial length. *)
Theorem find_valid_max_length_leaves_last_trial model_cls available upb s U b0 :
  max_length (config s) = Some U ->
  max_batch_size (config s) = Some b0 ->
  exists found L B s' evs,
    _find_valid_max_length model_cls available upb s = (Done (found, L, B), s')
    /\ max_length (config s') = Some L
    /\ max_batch_size (config s') = B
    /\ trace s' = trace s ++ evs ++ [CalcKvCache (config s') available]
    /\ (upb = false ->
        exists b1,
          B = Some (infer_optimal_batch_size model_cls
                      (search_config L b1 (config s)) available))
    /\ (1 < U -> L < U /\ max_length (config s') <> max_length (config s)).
Proof.
  intros HU Hb.
  destruct (_find_valid_max_length_spec model_cls available upb s U b0 HU Hb)
    as (found & L & B & evs & Heq & _ & _ & _ & HB & _ & Hlt & evs0 & Hlast).
  exists found, L, B. eexists.
  exists (FindValidMaxLength (config s) available :: evs0).
  split; [exact Heq|]. cbn [config trace].
  split; [reflexivity|]. split; [reflexivity|].
  split; [now rewrite Hlast|].
  split.
  - intros ->. exact HB.
  - intros H1. specialize (Hlt H1). split; [exact Hlt|].
    cbn. rewrite HU. intros [= E]. lia.
Qed.

Lemma find_valid_max_length_leaves_last_trial_witness :
  exists found L B s' evs,
    _find_valid_max_length (product_model 10) 0 false
      (initial_state (example_config (Some 8) (Some 4) 16))
    = (Done (found, L, B), s')
    /\ max_length (config s') = Some L
    /\ max_batch_size (config s') = B
    /\ trace s' = [] ++ evs ++ [CalcKvCache (config s') 0]
    /\ (false = false ->
        exists b1,
          B = Some (infer_optimal_batch_size (product_model 10)
                      (search_config L b1 (example_config (Some 8) (Some 4) 16))
                      0))
    /\ (1 < 8 -> L < 8 /\ max_length (config s') <> Some 8).
Proof.
  apply (find_valid_max_length_leaves_last_trial (product_model 10) 0 false
           (initial_state (example_config (Some 8) (Some 4) 16)) 8 4);
    reflexivity.
Defined.

(** ** Reasoning about the registry of architectures *)

Lemma dict_get_set_same {V} k (v : V) d :
  dict_get String.eqb k (dict_set String.eqb k v d) = Some v.
Proof.
  induction d as [|[k' v'] d IH]; cbn.
  - now rewrite String.eqb_refl.
  - destruct (String.eqb k' k) eqn:E; cbn; rewrite E; auto.
Qed.

Lemma dict_get_set_other {V} k k' (v : V) d :
  k <> k' ->
  dict_get String.eqb k' (dict_set String.eqb k v d) = dict_get String.eqb k' d.
Proof.
  intros Hne. induction d as [|[k0 v0] d IH]; cbn.
  - destruct (String.eqb_spec k k'); [contradiction|reflexivity].
  - destruct (String.eqb_spec k0 k) as [->|Hk]; cbn.
    + destruct (String.eqb_spec k k'); [contradiction|reflexivity].
    + destruct (String.eqb_spec k0 k'); [reflexivity|exact IH].
Qed.

Lemma dict_mem_set {V} k k' (v : V) d :
  dict_mem String.eqb k' (dict_set String.eqb k v d)
  = String.eqb k k' || dict_mem String.eqb k' d.
Proof.
  unfold dict_mem. destruct (String.eqb_spec k k') as [->|Hne].
  - now rewrite dict_get_set_same.
  - now rewrite dict_get_set_other.
Qed.

Lemma well_keyed_set a d :
  well_keyed d -> well_keyed (dict_set String.eqb (Arch.name a) a d).
Proof.
  intros Hd n a'. destruct (String.eqb_spec (Arch.name a) n) as [<-|Hne].
  - rewrite dict_get_set_same. now intros [= <-].
  - rewrite dict_get_set_other by exact Hne. apply Hd.
Qed.

Lemma well_keyed_nil : well_keyed [].
Proof. intros n a. discriminate. Qed.

Lemma fold_dict_set_well_keyed archs : forall d,
  well_keyed d ->
  well_keyed
    (fold_left (fun d arch => dict_set String.eqb (Arch.name arch) arch d) archs d).
Proof.
  induction archs as [|a archs IH]; intros d Hd; cbn; [exact Hd|].
  apply IH, well_keyed_set, Hd.
Qed.

Lemma register_inr a d d' :
  register a d = inr d' ->
  dict_mem String.eqb (Arch.name a) d = false
  /\ d' = dict_set String.eqb (Arch.name a) a d.
Proof.
  unfold register. destruct (dict_mem _ _ _); [discriminate|].
  now intros [= <-].
Qed.

Lemma register_well_keyed a d d' :
  register a d = inr d' -> well_keyed d -> well_keyed d'.
Proof.
  intros H Hd. apply register_inr in H. destruct H as [_ ->].
  now apply well_keyed_set.
Qed.

Lemma find_app_first {A} (p : A -> bool) l l' :
  find p (l ++ l') = match find p l with Some a => Some a | None => find p l' end.
Proof. induction l as [|a l IH]; cbn; [reflexivity|]. now destruct (p a). Qed.

Lemma fold_dict_set_get archs : forall d n,
  dict_get String.eqb n
    (fold_left (fun d arch => dict_set String.eqb (Arch.name arch) arch d) archs d)
  = match find (fun a => String.eqb (Arch.name a) n) (rev archs) with
    | Some a => Some a
    | None => dict_get String.eqb n d
    end.
Proof.
  induction archs as [|a archs IH]; intros d n; cbn; [reflexivity|].
  rewrite IH, find_app_first.
  destruct (find _ (rev archs)) as [a'|]; [reflexivity|].
  cbn. destruct (String.eqb_spec (Arch.name a) n) as [<-|Hne].
  - now rewrite dict_get_set_same.
  - now rewrite dict_get_set_other.
Qed.

Lemma register_all_inr archs : forall d d',
  register_all archs d = inr d' ->
  NoDup (map Arch.name archs)
  /\ (forall a, In a archs -> dict_mem String.eqb (Arch.name a) d = false)
  /\ (forall n, dict_mem String.eqb n d'
                = existsb (fun a => String.eqb (Arch.name a) n) archs
                  || dict_mem String.eqb n d)
  /\ (forall a, In a archs -> dict_get String.eqb (Arch.name a) d' = Some a)
  /\ (forall n, ~ In n (map Arch.name archs) ->
                dict_get String.eqb n d' = dict_get String.eqb n d).
Proof.
  induction archs as [|a archs IH]; intros d d'; cbn.
  - intros [= <-]. split; [constructor|]. repeat split; try tauto.
  - destruct (register a d) as [e|d1] eqn:Hreg; [discriminate|].
    intros Hall. apply register_inr in Hreg. destruct Hreg as [Hfresh ->].
    destruct (IH _ _ Hall) as (Hnd & Hfr & Hmem & Hget & Hother).
    assert (Hnotin : ~ In (Arch.name a) (map Arch.name archs)).
    { intros Hin. apply in_map_iff in Hin. destruct Hin as (a' & Hn & Hin).
      specialize (Hfr a' Hin). rewrite dict_mem_set, Hn, String.eqb_refl in Hfr.
      discriminate. }
    split; [constructor; assumption|].
    split.
    { intros a' [<-|Hin]; [exact Hfresh|].
      specialize (Hfr a' Hin). rewrite dict_mem_set in Hfr.
      now apply orb_false_iff in Hfr. }
    split.
    { intros n. rewrite Hmem, dict_mem_set.
      now rewrite orb_assoc, (orb_comm (existsb _ _)). }
    split.
    { intros a' [<-|Hin]; [|now apply Hget].
      rewrite (Hother _ Hnotin). apply dict_get_set_same. }
    intros n Hn. rewrite Hother by tauto.
    apply dict_get_set_other. tauto.
Qed.

Lemma register_all_fresh archs : forall d,
  NoDup (map Arch.name archs) ->
  (forall a, In a archs -> dict_mem String.eqb (Arch.name a) d = false) ->
  exists d', register_all archs d = inr d'.
Proof.
  induction archs as [|a archs IH]; intros d Hnd Hfr; cbn; [eauto|].
  inversion Hnd as [|? ? Hnotin Hnd']; subst.
  unfold register. rewrite (Hfr a (or_introl eq_refl)).
  apply IH; [exact Hnd'|].
  intros a' Hin. rewrite dict_mem_set, (Hfr a' (or_intror Hin)), orb_false_r.
  destruct (String.eqb_spec (Arch.name a) (Arch.name a')) as [E|]; [|reflexivity].
  exfalso. apply Hnotin. rewrite E. now apply in_map.
Qed.

Lemma reachable_well_keyed d : reachable d -> well_keyed d.
Proof.
  induction 1 as [archs|a0 d d' _ IH Hreg|d _ _].
  - apply fold_dict_set_well_keyed, well_keyed_nil.
  - eapply register_well_keyed; eassumption.
  - apply well_keyed_nil.
Qed.

(** ** More on the searches *)

Section MoreSearches.

Variable model_cls : PipelineModel.

(** With a cache size that is monotone in the batch size over [[1, U]],
    the batch-size loop keeps the lower end feasible and every feasible batch
    size at or below the upper end. *)
Lemma find_valid_batch_size_loop_near_optimal available c U Bstar fuel :
  (forall b b',
      1 <= b -> b <= b' -> b' <= U ->
      kv_cache_size_of model_cls (set_max_batch_size (Some b) c) available
      <= kv_cache_size_of model_cls (set_max_batch_size (Some b') c) available) ->
  kv_cache_size_of model_cls (set_max_batch_size (Some Bstar) c) available
  <= available ->
  forall lower upper s,
    (forall b, set_max_batch_size (Some b) (config s)
               = set_max_batch_size (Some b) c) ->
    upper - lower <= 2 ^ Z.of_nat fuel ->
    1 <= lower -> lower <= upper -> upper <= U ->
    Bstar <= upper ->
    kv_cache_size_of model_cls (set_max_batch_size (Some lower) c) available
    <= available ->
    exists b s',
      find_valid_batch_size_loop model_cls (S fuel) available lower upper s
      = (Done (true, b), s')
      /\ Bstar - 1 <= b /\ lower <= b <= upper
      /\ config s' = set_max_batch_size (Some b) c.
Proof.
  intros Hmono HfS.
  induction fuel as [|fuel IH]; intros lower upper s Hinv Hw H1 Hlu HU Hstar HfL;
    rewrite find_valid_batch_size_loop_step; cbv zeta;
    destruct (Z.gtb_spec lower upper) as [Hgt|_]; try lia.
  - cbn in Hw.
    destruct (Z.leb_spec (upper - lower) 1) as [Hw1|Hw1]; [|lia].
    rewrite midpoint_close by lia. rewrite Hinv.
    rewrite (proj2 (Z.leb_le _ _) HfL).
    eexists _, _. split; [reflexivity|]. cbn [config]. repeat split; lia.
  - rewrite Nat2Z.inj_succ, Z.pow_succ_r in Hw by lia.
    destruct (Z.leb_spec (upper - lower) 1) as [Hw1|Hw1].
    { rewrite midpoint_close by lia. rewrite Hinv.
      rewrite (proj2 (Z.leb_le _ _) HfL).
      eexists _, _. split; [reflexivity|]. cbn [config]. repeat split; lia. }
    pose proof (midpoint_strict lower upper Hw1) as Hmid.
    pose proof (midpoint_halves lower upper _ Hw1 Hw) as [Hlo Hhi].
    set (b := (lower + upper) / 2) in *.
    rewrite Hinv.
    assert (Hinv' : forall b', set_max_batch_size (Some b')
                                 (set_max_batch_size (Some b) c)
                               = set_max_batch_size (Some b') c).
    { intros b'. apply set_max_batch_size_absorb. }
    destruct (Z.gtb_spec
                (kv_cache_size_of model_cls
                   (set_max_batch_size (Some b) c) available)
                available) as [Hbig|Hfit].
    + assert (Bstar <= b - 1).
      { destruct (Z.le_gt_cases b Bstar) as [Hle|]; [|lia].
        pose proof (Hmono b Bstar ltac:(lia) Hle ltac:(lia)). lia. }
      edestruct (IH lower (b - 1)) as (b' & s' & Heq & Hb1 & Hb2 & Hc);
        [..|rewrite Heq; exists b', s'; split; [reflexivity|];
            rewrite Hc; repeat split; lia];
        cbn [config]; auto; lia.
    + edestruct (IH b upper) as (b' & s' & Heq & Hb1 & Hb2 & Hc);
        [..|rewrite Heq; exists b', s'; split; [reflexivity|];
            rewrite Hc; repeat split; lia];
        cbn [config]; auto; lia.
Qed.

Lemma _find_valid_batch_size_unfold available original_max_length s U :
  max_batch_size (config s) = Some U ->
  _find_valid_batch_size model_cls available original_max_length true s
  = find_valid_batch_size_loop model_cls (search_fuel 1 U) available 1 U
      {| config := set_max_length original_max_length (config s);
         trace := trace s ++ [FindValidBatchSize (config s) available] |}.
Proof.
  intros HU.
  cbv [_find_valid_batch_size bind get_config emit modify_config negb].
  cbn [config trace]. now rewrite HU.
Qed.

Lemma _find_valid_max_length_unfold available upb s U b0 :
  max_length (config s) = Some U ->
  max_batch_size (config s) = Some b0 ->
  _find_valid_max_length model_cls available upb s
  = match find_valid_max_length_loop model_cls (search_fuel 1 U) available upb 1 U
            {| config := config s;
               trace := trace s ++ [FindValidMaxLength (config s) available] |}
    with
    | (Done (found, L), s') => (Done (found, L, max_batch_size (config s')), s')
    | (Raise e, s') => (Raise e, s')
    | (Fuel_exhausted, s') => (Fuel_exhausted, s')
    end.
Proof.
  intros HU Hb.
  cbv [_find_valid_max_length bind get_config emit].
  cbn [config trace]. rewrite HU, Hb.
  destruct (find_valid_max_length_loop _ _ _ _ _ _ _) as [[[found L]| |] s'];
    reflexivity.
Qed.

(** Every evaluation of a loop is at a value of its interval, and below the
    upper end unless the interval is a single value. *)
Lemma find_valid_max_length_loop_within available upb fuel :
  forall lower upper s r s',
    lower <= upper ->
    find_valid_max_length_loop model_cls fuel available upb lower upper s = (r, s') ->
    exists evs, trace s' = trace s ++ evs
                /\ Forall (length_within lower upper) evs.
Proof.
  induction fuel as [|fuel IH]; intros lower upper s r s' Hlu.
  - cbn. intros [= <- <-]. exists []. now rewrite app_nil_r.
  - rewrite find_valid_max_length_loop_step. cbv zeta.
    set (L := (lower + upper) / 2).
    assert (Htrial : lower <= L <= upper /\ (lower < upper -> L < upper)).
    { subst L. split; [split|intros]; Z.div_mod_to_equations; lia. }
    assert (Hev : Forall (length_within lower upper)
                    (trial_events model_cls available upb L (config s))).
    { unfold trial_events, trial_config.
      destruct upb; repeat constructor; cbn; exists L;
        (split; [destruct (config s); reflexivity|exact Htrial]). }
    destruct (Z.gtb_spec lower upper) as [Hgt|_]; [lia|].
    destruct (Z.leb_spec (upper - lower) 1) as [Hw1|Hw1].
    { intros [= <- <-]. cbn [trace]. eauto. }
    pose proof (midpoint_strict lower upper Hw1) as Hmid. fold L in Hmid.
    case_if; intros Hrun; apply IH in Hrun; try lia;
      destruct Hrun as (evs & -> & Hevs); cbn [trace];
      rewrite <- app_assoc; eexists; (split; [reflexivity|]);
      (apply Forall_app; split; [exact Hev|]);
      (eapply Forall_impl; [|exact Hevs]);
      intros [] He; cbn in *; try contradiction;
      destruct He as (L' & HL' & Hr1 & Hr2); exists L';
      (split; [exact HL'|lia]).
Qed.

Lemma find_valid_batch_size_loop_within available fuel :
  forall lower upper s r s',
    lower <= upper ->
    find_valid_batch_size_loop model_cls fuel available lower upper s = (r, s') ->
    exists evs, trace s' = trace s ++ evs
                /\ Forall (batch_size_within lower upper) evs.
Proof.
  induction fuel as [|fuel IH]; intros lower upper s r s' Hlu.
  - cbn. intros [= <- <-]. exists []. now rewrite app_nil_r.
  - rewrite find_valid_batch_size_loop_step. cbv zeta.
    set (b := (lower + upper) / 2).
    assert (Htrial : lower <= b <= upper /\ (lower < upper -> b < upper)).
    { subst b. split; [split|intros]; Z.div_mod_to_equations; lia. }
    assert (Hev : Forall (batch_size_within lower upper)
                    [CalcKvCache (set_max_batch_size (Some b) (config s)) available]).
    { repeat constructor. cbn. exists b. split; [reflexivity|exact Htrial]. }
    destruct (Z.gtb_spec lower upper) as [Hgt|_]; [lia|].
    destruct (Z.leb_spec (upper - lower) 1) as [Hw1|Hw1].
    { intros [= <- <-]. cbn [trace]. eauto. }
    pose proof (midpoint_strict lower upper Hw1) as Hmid. fold b in Hmid.
    case_if; intros Hrun; apply IH in Hrun; try lia;
      destruct Hrun as (evs & -> & Hevs); cbn [trace];
      rewrite <- app_assoc; eexists; (split; [reflexivity|]);
      (apply Forall_app; split; [exact Hev|]);
      (eapply Forall_impl; [|exact Hevs]);
      intros [] He; cbn in *; try contradiction;
      destruct He as (b' & Hb' & Hr1 & Hr2); exists b';
      (split; [exact Hb'|lia]).
Qed.

(** What the batch-size loop answers lies in its interval, and it is the
    batch size that the configuration object is left with. *)
Lemma find_valid_batch_size_loop_result available fuel :
  forall lower upper s found b s',
    lower <= upper ->
    find_valid_batch_size_loop model_cls fuel available lower upper s
    = (Done (found, b), s') ->
    lower <= b <= upper /\ (lower < upper -> b < upper)
    /\ config s' = set_max_batch_size (Some b) (config s).
Proof.
  induction fuel as [|fuel IH]; intros lower upper s found b s' Hlu;
    [discriminate|].
  rewrite find_valid_batch_size_loop_step. cbv zeta.
  set (m := (lower + upper) / 2).
  assert (Htrial : lower <= m <= upper /\ (lower < upper -> m < upper)).
  { subst m. split; [split|intros]; Z.div_mod_to_equations; lia. }
  destruct (Z.gtb_spec lower upper) as [Hgt|_]; [lia|].
  destruct (Z.leb_spec (upper - lower) 1) as [Hw1|Hw1].
  { intros [= <- <- <-]. cbn [config]. tauto. }
  pose proof (midpoint_strict lower upper Hw1) as Hmid. fold m in Hmid.
  case_if; intros Hrun; apply IH in Hrun; try lia;
    destruct Hrun as (Hr1 & Hr2 & ->); cbn [config];
    rewrite set_max_batch_size_absorb; repeat split; lia.
Qed.

End MoreSearches.

(** ** More on the resolver *)

Section MoreResolver.

Variable model_cls : PipelineModel.

Lemma is_batch_trial_cost_call available c evs :
  Forall (is_batch_trial available c) evs ->
  Forall (fun e => is_cost_call e = true) evs.
Proof.
  intros H. eapply Forall_impl; [|exact H]. now intros e [b ->].
Qed.

(** [_raise_oom_error] below the weights check, step by step: the length
    search, the batch size put back, the batch-size search, the message. *)
Lemma _raise_oom_error_eq upl (upb : bool) total free available weights s U B0 :
  weights <= free ->
  max_length (config s) = Some U ->
  max_batch_size (config s) = Some B0 ->
  exists fl L B evs1 fb b c2 evs2,
    (fl = true ->
     kv_cache_size_of model_cls (search_config L B (config s)) available
     <= available)
    /\ (1 <= U -> 1 <= L <= U) /\ (1 < U -> L < U)
    /\ (if upb
        then c2 = set_max_batch_size (Some b)
                    (set_max_length (Some U) (config s))
             /\ (1 <= B0 -> 1 <= b <= B0) /\ (1 < B0 -> b < B0)
             /\ (fb = true ->
                 kv_cache_size_of model_cls c2 available <= available)
        else c2 = set_max_batch_size (Some B0)
                    (set_max_length (Some L) (config s))
             /\ fb = false /\ b = -1 /\ evs2 = [])
    /\ Forall (fun e => is_cost_call e = true) evs1
    /\ Forall (fun e => is_cost_call e = true) evs2
    /\ _raise_oom_error model_cls upl upb total free available weights s
       = (match _generate_oom_error_message total free upl upb fl fb L b B
                  (Some U) with
          | inl e => Raise e
          | inr msg => Raise (RuntimeError msg)
          end,
          {| config := c2;
             trace := trace s
                      ++ FindValidMaxLength (config s) available :: evs1
                      ++ FindValidBatchSize
                           (set_max_batch_size (Some B0)
                              (search_config L B (config s))) available
                         :: evs2 |}).
Proof.
  intros Hw HU HB. unfold _raise_oom_error.
  destruct (Z.gtb_spec weights free) as [|_]; [lia|].
  destruct (_find_valid_max_length_spec model_cls available upb s U B0 HU HB)
    as (fl & L & B & evs1 & Heq & _ & Hev1 & Hfit & _ & Hr1 & Hr2 & _).
  cbv [bind get_config]. rewrite Heq. cbv [modify_config]. cbn [config trace].
  rewrite HU, HB.
  set (s1 := {| config := set_max_batch_size (Some B0)
                            (search_config L B (config s));
                trace := trace s
                         ++ FindValidMaxLength (config s) available :: evs1 |}).
  destruct upb.
  - destruct (_find_valid_batch_size_spec model_cls available (Some U) s1 B0
                eq_refl) as (fb & b & evs2 & Heq2 & _ & Hev2 & Hfit2 & Hr3).
    assert (Hr4 : 1 < B0 -> b < B0).
    { intros Hlt. pose proof Heq2 as Heq3.
      rewrite (_find_valid_batch_size_unfold model_cls available (Some U) s1 B0
                 eq_refl) in Heq3.
      apply find_valid_batch_size_loop_result in Heq3; [|lia]. lia. }
    rewrite Heq2.
    assert (Hc : set_max_batch_size (Some b) (set_max_length (Some U) (config s1))
                 = set_max_batch_size (Some b)
                     (set_max_length (Some U) (config s))).
    { subst s1. cbn [config]. destruct (config s); reflexivity. }
    rewrite Hc in *.
    eexists fl, L, B, evs1, fb, b, _, evs2.
    split; [exact Hfit|]. split; [exact Hr1|]. split; [exact Hr2|].
    split; [split; [reflexivity|]; split; [exact Hr3|]; split; assumption|].
    split; [exact Hev1|].
    split; [eapply is_batch_trial_cost_call; exact Hev2|].
    cbn [lift]. destruct (_generate_oom_error_message _ _ _ _ _ _ _ _ _ _);
      cbv [raise lift bind ret]; cbn [config trace]; subst s1; cbn [config trace];
      rewrite <- !app_assoc; reflexivity.
  - rewrite (_find_valid_batch_size_not_user_provided model_cls available
               (Some U) s1).
    assert (Hc : config s1
                 = set_max_batch_size (Some B0)
                     (set_max_length (Some L) (config s))).
    { subst s1. cbn [config]. destruct (config s); reflexivity. }
    exists fl, L, B, evs1, false, (-1),
      (set_max_batch_size (Some B0) (set_max_length (Some L) (config s))), [].
    split; [exact Hfit|]. split; [exact Hr1|]. split; [exact Hr2|].
    split; [auto|]. rewrite <- Hc.
    split; [exact Hev1|]. split; [constructor|].
    destruct (_generate_oom_error_message _ _ _ _ _ _ _ _ _ _);
      cbv [raise lift bind ret]; cbn [config trace]; subst s1; cbn [config trace];
      rewrite <- !app_assoc; reflexivity.
Qed.

Lemma cost_call_not_warning e :
  is_cost_call e = true -> is_LogWarning e = false.
Proof. destruct e; cbn; congruence. Qed.

(** The automatic remedy, case by case: either the footprint is as it was
    and nothing was logged, or a length was found and adopted. *)
Lemma estimate_memory_footprint_shrink_cases l s U b0 :
  max_length (config s) = Some U ->
  max_batch_size (config s) = Some b0 ->
  exists l' s' evs,
    estimate_memory_footprint_shrink model_cls l s = (Done l', s')
    /\ trace s' = trace s ++ evs
    /\ _available_cache_memory (config s') = _available_cache_memory (config s)
    /\ devices (config s') = devices (config s)
    /\ free_memory l' = free_memory l
    /\ model_weights_size l' = model_weights_size l
    /\ available_kv_cache_memory l' = available_kv_cache_memory l
    /\ ((l' = l /\ existsb is_LogWarning evs = false
         /\ (total_size l <= free_memory l \/ user_provided_max_length l = true ->
             s' = s))
        \/ (free_memory l < total_size l
            /\ user_provided_max_length l = false
            /\ exists L,
                max_length (config s') = Some L
                /\ (1 <= U -> 1 <= L <= U) /\ (1 < U -> L < U)
                /\ In (LogWarning (truncated_message (Some U) L)) evs
                /\ actual_kv_cache_size l'
                   = kv_cache_size_of model_cls (config s')
                       (available_kv_cache_memory l)
                /\ actual_kv_cache_size l' <= available_kv_cache_memory l
                /\ total_size l' = model_weights_size l + actual_kv_cache_size l')).
Proof.
  intros HU Hb. unfold estimate_memory_footprint_shrink.
  destruct ((total_size l >? free_memory l)
            && negb (user_provided_max_length l)) eqn:Hcond.
  - apply andb_true_iff in Hcond. destruct Hcond as [Hgt Hupl].
    apply Z.gtb_lt in Hgt. apply negb_true_iff in Hupl.
    destruct (_find_valid_max_length_spec model_cls
                (available_kv_cache_memory l)
                (user_provided_max_batch_size l) s U b0 HU Hb)
      as (found & L & B & evs & Heq & _ & Hev & Hfit & _ & Hr1 & Hr2 & _).
    cbv [bind get_config]. rewrite Heq.
    destruct found.
    + cbv [emit modify_config]. cbn [config trace].
      rewrite _calculate_kv_cache_size_eq. cbv [ret]. cbn [config trace].
      rewrite set_max_length_search_config.
      fold (search_config L B (config s)).
      eexists _, _, _. split; [reflexivity|]. cbn [config trace].
      split; [rewrite <- !app_assoc; reflexivity|].
      split; [destruct (config s); reflexivity|].
      split; [destruct (config s); reflexivity|].
      do 3 (split; [reflexivity|]).
      right. split; [exact Hgt|]. split; [exact Hupl|].
      exists L. split; [destruct (config s); reflexivity|].
      split; [exact Hr1|]. split; [exact Hr2|].
      split.
      { rewrite HU. cbn [In]. right.
        repeat (rewrite in_app_iff; cbn [In]). auto. }
      cbn [actual_kv_cache_size total_size].
      split; [reflexivity|]. split; [now apply Hfit|reflexivity].
    + cbn [ret]. eexists _, _, _. split; [reflexivity|]. cbn [config trace].
      split; [reflexivity|].
      split; [destruct (config s); reflexivity|].
      split; [destruct (config s); reflexivity|].
      do 3 (split; [reflexivity|]).
      left. split; [reflexivity|]. split.
      * cbn. apply existsb_cost_calls; [apply cost_call_not_warning|exact Hev].
      * intros [H|H]; [lia|congruence].
  - exists l, s, []. split; [reflexivity|].
    split; [now rewrite app_nil_r|].
    do 5 (split; [reflexivity|]).
    left. auto.
Qed.

(** The log record cannot be written when the free memory is zero. *)
Lemma estimate_memory_footprint_logging_str_unbound l c :
  free_memory l = 0 ->
  Z.abs (model_weights_size l) < 2 ^ 1000 ->
  Z.abs (actual_kv_cache_size l) < 2 ^ 1000 ->
  Z.abs (model_weights_size l + actual_kv_cache_size l) < 2 ^ 1000 ->
  estimate_memory_footprint_logging_str l c
  = inl (UnboundLocalError "free_memory_str").
Proof.
  intros Hf Hw Hkv Htot. unfold estimate_memory_footprint_logging_str.
  rewrite Hf. cbn [Z.eqb bind_exn].
  destruct (_to_mib_ok _ Hkv) as [m3 ->].
  destruct (_to_mib_ok _ Htot) as [m4 ->].
  destruct (model_weights_size l =? 0).
  - reflexivity.
  - destruct (_to_mib_ok _ Hw) as [m2 ->]. reflexivity.
Qed.

Lemma _generate_oom_error_message_ok total free upl upb fl fb L b B oml :
  Z.abs total < 2 ^ 1000 ->
  Z.abs free < 2 ^ 1000 ->
  exists msg,
    _generate_oom_error_message total free upl upb fl fb L b B oml = inr msg.
Proof.
  intros Ht Hf. unfold _generate_oom_error_message.
  destruct (_to_mib_ok _ Ht) as [m1 ->].
  destruct (free =? 0); cbn [bind_exn]; [eauto|].
  destruct (_to_mib_ok _ Hf) as [m2 ->]. cbn [bind_exn]. eauto.
Qed.

Lemma estimate_memory_footprint_logging_str_zero_free l c info :
  free_memory l = 0 ->
  estimate_memory_footprint_logging_str l c <> inr info.
Proof.
  intros Hf. unfold estimate_memory_footprint_logging_str.
  rewrite Hf. cbn [Z.eqb bind_exn].
  destruct (if model_weights_size l =? 0 then _ else _); cbn [bind_exn];
    [discriminate|].
  destruct (_to_mib (actual_kv_cache_size l)); cbn [bind_exn]; [discriminate|].
  destruct (_to_mib (model_weights_size l + actual_kv_cache_size l));
    cbn [bind_exn]; discriminate.
Qed.

Lemma estimate_memory_footprint_sizes_free free s l s2 :
  estimate_memory_footprint_sizes model_cls free s = (Done l, s2) ->
  free_memory l = free.
Proof.
  intros H.
  destruct (estimate_memory_footprint_sizes_Done_inv model_cls free s l s2 H)
    as (available & s1 & _ & _ & _ & _ & l' & s' & evs & Heq & _ & Hfree & _).
  injection Heq as <- <-. exact Hfree.
Qed.

(** A resolution that succeeds, taken apart. *)
Lemma _estimate_memory_footprint_Done_inv s free s' :
  sum_free_memory (devices (config s)) 0 = inr free ->
  _estimate_memory_footprint model_cls s = (Done tt, s') ->
  exists l s2,
    estimate_memory_footprint_sizes model_cls free s = (Done l, s2)
    /\ estimate_memory_footprint_report model_cls l s2 = (Done tt, s').
Proof.
  intros Hsum Hrun.
  rewrite (_estimate_memory_footprint_available model_cls s free Hsum) in Hrun.
  apply bind_Done_inv in Hrun. exact Hrun.
Qed.

End MoreResolver.

(** ** Exact conversions and the rendering in MiB *)

(** An integer below [2 ^ 53], scaled by a power of two, is a float. *)
Lemma binary_normalize_exact z e0 :
  0 < z < 2 ^ 53 -> -1021 <= e0 <= 900 ->
  exists m d,
    binary_normalize 53 1024 z e0 false = S754_finite false m (e0 - d)
    /\ 0 <= d <= 52 /\ Zpos m = z * 2 ^ d /\ Zpos (digits2_pos m) = 53.
Proof.
  intros [H0 H1] He. destruct z as [|p|p]; try lia.
  assert (Hd : Zpos (digits2_pos p) <= 53).
  { apply (Zdigits2_lt_pow2 (Zpos p) 53); lia. }
  assert (Hd1 : 1 <= Zpos (digits2_pos p)) by lia.
  cbn [binary_normalize]. unfold binary_round, shl_align.
  rewrite fexp_53.
  destruct (Z.max (Z.pos (digits2_pos p) + e0 - 53) (-1074) - e0) as [|q|q] eqn:E;
    try lia.
  - rewrite binary_round_aux_canonical by lia.
    exists p, 0. rewrite Z.sub_0_r, Z.mul_1_r. repeat split; lia.
  - assert (Hq : Zpos q = 53 - Zpos (digits2_pos p)) by lia.
    rewrite binary_round_aux_canonical.
    + exists (Pos.iter xO p q), (Zpos q). split; [f_equal; lia|].
      split; [lia|]. split; [apply Zpos_iter_xO|].
      rewrite digits2_pos_iter_xO. lia.
    + rewrite digits2_pos_iter_xO. lia.
    + lia.
Qed.

(** Division of a normal float by [1024.0] only lowers the exponent. *)
Lemma float_div_1024_exact s m e :
  Zpos (digits2_pos m) = 53 -> -1000 <= e <= 900 ->
  float_div (S754_finite s m e) float_1024 = S754_finite s m (e - 10).
Proof.
  intros Hd He. unfold float_div, float_1024, SFdiv, SFdiv_core_binary.
  change (Zdigits2 4503599627370496) with 53.
  cbn [Zdigits2]. rewrite Hd, fexp_53.
  replace (Z.min (Z.max (53 + e - (53 + -42) - 53) (-1074)) (e - -42))
    with (e - 11) by lia.
  replace (e - -42 - (e - 11)) with 53 by lia.
  rewrite Z.shiftl_mul_pow2 by lia.
  assert (Hdiv : Z.div_eucl (Z.pos m * 2 ^ 53) 4503599627370496
                 = (Zpos m~0, 0)).
  { pose proof (Z.div_eucl_eq (Z.pos m * 2 ^ 53) 4503599627370496 ltac:(lia)) as H.
    pose proof (Z.mod_pos_bound (Z.pos m * 2 ^ 53) 4503599627370496 ltac:(lia)) as B.
    unfold Z.modulo in B.
    destruct (Z.div_eucl (Z.pos m * 2 ^ 53) 4503599627370496) as [q r].
    change (2 ^ 53) with (2 * 4503599627370496) in H.
    f_equal; lia. }
  rewrite Hdiv. cbn [xorb]. rewrite xorb_false_r.
  change (new_location 4503599627370496 0) with loc_Exact.
  unfold binary_round_aux, shr_fexp.
  assert (Hd2 : Zdigits2 (Zpos m~0) = 54).
  { cbn [Zdigits2 digits2_pos]. rewrite Pos2Z.inj_succ. lia. }
  rewrite Hd2, fexp_53.
  replace (Z.max (54 + (e - 11) - 53) (-1074) - (e - 11)) with 1 by lia.
  cbn [shr shr_record_of_loc iter_pos shr_1 shr_m loc_of_shr_record
         round_nearest_even Zdigits2 orb].
  rewrite Hd, fexp_53.
  replace (Z.max (53 + (e - 11 + 1) - 53) (-1074) - (e - 11 + 1)) with 0 by lia.
  cbn [shr shr_m]. destruct (Z.leb_spec (e - 11 + 1) (1024 - 53)); [|lia].
  f_equal. lia.
Qed.

Lemma round_half_even_scale z d e :
  0 <= d -> e < 0 ->
  round_half_even (z * 2 ^ d) (e - d) = round_half_even z e.
Proof.
  intros Hd He. unfold round_half_even.
  destruct (Z.leb_spec 0 (e - d)); [lia|].
  destruct (Z.leb_spec 0 e); [lia|].
  replace (- (e - d)) with (- e + d) by lia.
  rewrite Z.pow_add_r by lia.
  assert (H1 : 0 < 2 ^ (- e)) by (apply Z.pow_pos_nonneg; lia).
  assert (H2 : 0 < 2 ^ d) by (apply Z.pow_pos_nonneg; lia).
  rewrite Z.div_mul_cancel_r by lia.
  rewrite Z.mul_mod_distr_r by lia.
  set (q := z / 2 ^ (- e)). set (r := z mod 2 ^ (- e)).
  assert (Hc : (2 * (r * 2 ^ d) ?= 2 ^ (- e) * 2 ^ d) = (2 * r ?= 2 ^ (- e))).
  { destruct (Z.compare_spec (2 * r) (2 ^ (- e))),
      (Z.compare_spec (2 * (r * 2 ^ d)) (2 ^ (- e) * 2 ^ d));
      try reflexivity; nia. }
  now rewrite Hc.
Qed.

(** [_to_mib] is exact on byte counts below [2 ^ 53]: the two divisions lose
    nothing, and [round] rounds the quotient half to even. *)
Lemma _to_mib_exact bytes :
  0 <= bytes < 2 ^ 53 -> _to_mib bytes = inr (round_half_even bytes (-20)).
Proof.
  intros [H0 H1]. destruct (Z.eq_dec bytes 0) as [->|Hne]; [reflexivity|].
  destruct (binary_normalize_exact bytes (-10) ltac:(lia) ltac:(lia))
    as (m & d & Hn & Hd & Hm & Hdig).
  unfold _to_mib, int_truediv_1024. rewrite Hn. cbn [bind_exn].
  rewrite float_div_1024_exact by (try exact Hdig; lia).
  cbn [py_round cond_Zopp]. rewrite Hm.
  replace (-10 - d - 10) with (-20 - d) by lia.
  now rewrite round_half_even_scale by lia.
Qed.

Lemma round_half_even_nearest z :
  let m := round_half_even z (-20) in
  2 * Z.abs (z - m * 1048576) <= 1048576
  /\ (2 * Z.abs (z - m * 1048576) = 1048576 -> Z.even m = true).
Proof.
  unfold round_half_even. cbn [Z.leb Z.compare Z.opp].
  change (2 ^ 20) with 1048576.
  pose proof (Z.div_mod z 1048576 ltac:(lia)) as Hdm.
  pose proof (Z.mod_pos_bound z 1048576 ltac:(lia)) as Hb.
  set (q := z / 1048576) in *. set (r := z mod 1048576) in *.
  destruct (Z.compare_spec (2 * r) 1048576) as [He|Hl|Hg].
  - destruct (Z.even q) eqn:Eq.
    + split; [lia|auto].
    + split; [lia|]. intros _. rewrite Z.even_add, Eq. reflexivity.
  - split; lia.
  - split; lia.
Qed.

(** ** The cache budget *)

Lemma shifted_exact P k r :
  0 < k -> shifted P k r -> P mod 2 ^ k = 0 ->
  loc_of_shr_record r = loc_Exact.
Proof.
  intros Hk (_ & _ & Hr & Hs) Hmod.
  destruct (Z.eqb_spec k 0); [lia|].
  assert (Hp1 : 0 < 2 ^ (k - 1)) by (apply Z.pow_pos_nonneg; lia).
  assert (H2k : 2 ^ k = 2 * 2 ^ (k - 1)).
  { rewrite <- Z.pow_succ_r by lia. f_equal. lia. }
  apply Z.mod_divide in Hmod; [|lia]. destruct Hmod as [c Hc].
  assert (Hq : P / 2 ^ (k - 1) = 2 * c).
  { rewrite Hc, H2k. replace (c * (2 * 2 ^ (k - 1))) with (2 * c * 2 ^ (k - 1)) by ring.
    apply Z.div_mul. lia. }
  assert (Hm : P mod 2 ^ (k - 1) = 0).
  { rewrite Hc, H2k. replace (c * (2 * 2 ^ (k - 1))) with (2 * c * 2 ^ (k - 1)) by ring.
    apply Z.mod_mul. lia. }
  rewrite Hq in Hr. rewrite Hm in Hs.
  rewrite Z.odd_mul in Hr. cbn in Hr, Hs.
  destruct r as [m rb sb]. cbn in *. subst. reflexivity.
Qed.

(** Rounding a positive number never passes a point of the grid it is
    rounded to. *)
Lemma binary_round_aux_le sx P E T :
  0 < P -> E <= 0 -> Zdigits2 P + E <= 54 -> P <= T ->
  (0 < Z.max (Zdigits2 P + E - 53) (-1074) - E ->
   exists t, T = t * 2 ^ (Z.max (Zdigits2 P + E - 53) (-1074) - E)) ->
  match binary_round_aux 53 1024 sx P E loc_Exact with
  | S754_zero _ => True
  | S754_finite s m e => s = sx /\ E <= e /\ Zpos m * 2 ^ (e - E) <= T
  | _ => False
  end.
Proof.
  intros HP HE Hdig HT Hgrid. unfold binary_round_aux.
  set (k := Z.max (Zdigits2 P + E - 53) (-1074) - E) in *.
  assert (Hfirst : exists r',
             shr_fexp 53 1024 P E loc_Exact = (r', Z.max E (E + k))
             /\ 0 <= round_nearest_even (shr_m r') (loc_of_shr_record r')
             /\ round_nearest_even (shr_m r') (loc_of_shr_record r')
                * 2 ^ Z.max 0 k <= T
             /\ Zdigits2 (round_nearest_even (shr_m r') (loc_of_shr_record r'))
                <= Z.max 0 (Zdigits2 P - Z.max 0 k) + 1).
  { unfold shr_fexp, shr. rewrite fexp_53. fold k.
    destruct k as [|kp|kp] eqn:Ek.
    - eexists. split; [f_equal; lia|].
      cbn [shr_record_of_loc shr_m loc_of_shr_record round_nearest_even].
      rewrite Z.max_id, Z.mul_1_r, Z.sub_0_r.
      pose proof (Zdigits2_nonneg P). repeat split; lia.
    - set (r' := iter_pos shr_1 kp _).
      destruct (shifted_iter_pos P kp ltac:(lia) 0
                  (shr_record_of_loc P loc_Exact)) as (_ & H3 & Hr & Hs).
      { unfold shifted. destruct P; cbn; try lia.
        rewrite Z.div_1_r. repeat split; lia. }
      rewrite Z.add_0_l in *. fold r' in H3, Hr, Hs.
      assert (Hsh : shifted P (Zpos kp) r').
      { unfold shifted. repeat split; try assumption; lia. }
      assert (Hpk : 0 < 2 ^ Zpos kp) by (apply Z.pow_pos_nonneg; lia).
      pose proof (Z.div_mod P (2 ^ Zpos kp) ltac:(lia)) as Hdm.
      pose proof (Z.mod_pos_bound P (2 ^ Zpos kp) ltac:(lia)) as Hmb.
      assert (Hq0 : 0 <= P / 2 ^ Zpos kp) by (apply Z.div_pos; lia).
      pose proof (round_nearest_even_bounds (shr_m r') (loc_of_shr_record r'))
        as Hrb.
      exists r'. split; [f_equal; lia|]. rewrite H3 in *.
      split; [lia|]. split.
      + rewrite Z.max_r by lia.
        destruct (Z.eq_dec (P mod 2 ^ Zpos kp) 0) as [Hz|Hnz].
        * rewrite (shifted_exact P (Zpos kp) r' ltac:(lia) Hsh Hz).
          cbn [round_nearest_even]. nia.
        * destruct Hgrid as [t Ht]; [lia|].
          set (K := 2 ^ Z.pos kp) in *. set (q := P / K) in *.
          assert (Hqt : q < t) by nia.
          rewrite Ht. apply Z.mul_le_mono_nonneg_r; lia.
      + rewrite Z.max_r with (m := Zpos kp) by lia.
        etransitivity;
          [apply (Zdigits2_le _ (P / 2 ^ Zpos kp + 1)); lia|].
        etransitivity; [apply Zdigits2_succ; lia|].
        pose proof (Zdigits2_div_pow2 P (Zpos kp) ltac:(lia) ltac:(lia)). lia.
    - eexists. split; [f_equal; lia|].
      cbn [shr_record_of_loc shr_m loc_of_shr_record round_nearest_even].
      rewrite Z.max_l by lia. rewrite Z.mul_1_r, Z.sub_0_r.
      pose proof (Zdigits2_nonneg P). repeat split; lia. }
  destruct Hfirst as (r' & -> & Hmr0 & HmrT & Hmrd).
  set (mr := round_nearest_even (shr_m r') (loc_of_shr_record r')) in *.
  destruct (shr_fexp_spec mr (Z.max E (E + k)) loc_Exact Hmr0) as (K1 & K2 & K3).
  destruct (shr_fexp 53 1024 mr (Z.max E (E + k)) loc_Exact) as [r'' e''].
  cbn [fst snd] in *. rewrite fexp_53 in K2.
  pose proof (Zdigits2_nonneg P) as HdP.
  assert (He'' : Z.max E (E + k) <= e'' <= 971) by (subst k; lia).
  destruct (shr_m r'') as [|m|m] eqn:Em; [exact I| |lia].
  destruct (Z.leb_spec e'' (1024 - 53)); [|lia].
  split; [reflexivity|]. split; [lia|].
  set (j := e'' - Z.max E (E + k)) in *.
  assert (Hj : 0 <= j) by lia.
  assert (Hpj : 0 < 2 ^ j) by (apply Z.pow_pos_nonneg; lia).
  pose proof (Z.div_mod mr (2 ^ j) ltac:(lia)) as Hdm.
  pose proof (Z.mod_pos_bound mr (2 ^ j) ltac:(lia)) as Hmb.
  rewrite <- K3 in Hdm.
  replace (e'' - E) with (j + Z.max 0 k) by lia.
  rewrite Z.pow_add_r by lia.
  assert (0 < 2 ^ Z.max 0 k) by (apply Z.pow_pos_nonneg; lia).
  nia.
Qed.

Lemma float_of_int_exact z :
  0 < z < 2 ^ 53 ->
  exists m d,
    float_of_int z = inr (S754_finite false m (- d))
    /\ 0 <= d <= 52 /\ Zpos m = z * 2 ^ d /\ Zpos (digits2_pos m) = 53.
Proof.
  intros Hz.
  destruct (binary_normalize_exact z 0 Hz ltac:(lia)) as (m & d & Hn & Hd & Hm & Hdig).
  exists m, d. unfold float_of_int. rewrite Hn. auto.
Qed.

(** [int(z * u)] for a factor [u] from 0 to 1 is between 0 and [z]. *)
Lemma int_mul_float_to_int_le z u :
  0 <= z < 2 ^ 53 -> float_in_unit_interval u ->
  exists a, int_mul_float_to_int z u = inr a /\ 0 <= a <= z.
Proof.
  intros [H0 H1] Hu. unfold int_mul_float_to_int.
  destruct (Z.eq_dec z 0) as [->|Hne].
  { destruct u as [s| | |[|] m e]; cbn in Hu |- *; try tauto; exists 0; split;
      try reflexivity; lia. }
  destruct (float_of_int_exact z ltac:(lia)) as (mz & d & -> & Hd & Hmz & Hdig).
  cbn [bind_exn].
  destruct u as [s| | |[|] mu eu]; cbn [float_in_unit_interval] in Hu; try tauto.
  { exists 0. split; [reflexivity|lia]. }
  destruct Hu as [Heu Hmu].
  unfold float_mul, SFmul. cbn [xorb].
  set (P := Zpos (mz * mu)). set (E := - d + eu).
  set (T := Zpos mz * 2 ^ (- eu)).
  assert (Hpe : 0 < 2 ^ (- eu)) by (apply Z.pow_pos_nonneg; lia).
  assert (Hpd : 0 < 2 ^ d) by (apply Z.pow_pos_nonneg; lia).
  assert (HPT : P <= T) by (subst P T; rewrite Pos2Z.inj_mul; nia).
  assert (HdP : Zdigits2 P <= 53 - eu).
  { apply Zdigits2_lt_pow2; [lia|]. rewrite Z.abs_eq by (subst P; lia).
    eapply Z.le_lt_trans; [exact HPT|]. subst T.
    replace (53 - eu) with (53 + - eu) by lia. rewrite Z.pow_add_r by lia.
    apply Z.mul_lt_mono_pos_r; [lia|].
    pose proof (Zdigits2_bounds (Zpos mz) ltac:(lia)) as Hb.
    cbn [Zdigits2] in Hb. rewrite Hdig in Hb. lia. }
  pose proof (binary_round_aux_le false P E T ltac:(subst P; lia)
                ltac:(subst E; lia) ltac:(subst E; lia) HPT) as Hround.
  assert (Hgrid : 0 < Z.max (Zdigits2 P + E - 53) (-1074) - E ->
                  exists t, T = t * 2 ^ (Z.max (Zdigits2 P + E - 53) (-1074) - E)).
  { intros Hk. set (k := Z.max (Zdigits2 P + E - 53) (-1074) - E) in *.
    assert (Hk' : k <= - eu) by (subst k E; lia).
    exists (Zpos mz * 2 ^ (- eu - k)). subst T.
    rewrite <- Z.mul_assoc, <- Z.pow_add_r by lia. do 2 f_equal. lia. }
  specialize (Hround Hgrid).
  destruct (binary_round_aux 53 1024 false P E loc_Exact) as [s| | |s m e];
    try contradiction.
  - exists 0. split; [reflexivity|lia].
  - destruct Hround as (-> & HE & Hm). cbn [int_of_float cond_Zopp].
    exists (Z.shiftl (Zpos m) e). split; [reflexivity|].
    assert (HT : T = z * 2 ^ (- E)).
    { subst T E. rewrite Hmz. replace (- (- d + eu)) with (d + - eu) by lia.
      rewrite Z.pow_add_r by lia. ring. }
    rewrite HT in Hm.
    destruct (Z.le_gt_cases 0 e) as [He|He].
    + rewrite Z.shiftl_mul_pow2 by lia.
      assert (0 < 2 ^ e) by (apply Z.pow_pos_nonneg; lia).
      split; [lia|].
      replace (e - E) with (e + - E) in Hm by lia.
      rewrite Z.pow_add_r, Z.mul_assoc in Hm by (subst E; lia).
      assert (0 < 2 ^ (- E)) by (apply Z.pow_pos_nonneg; subst E; lia).
      nia.
    + rewrite Z.shiftl_div_pow2 by lia.
      assert (Hpe' : 0 < 2 ^ (- e)) by (apply Z.pow_pos_nonneg; lia).
      split; [apply Z.div_pos; lia|].
      apply Z.div_le_upper_bound; [lia|].
      replace (- E) with ((e - E) + - e) in Hm by lia.
      rewrite Z.pow_add_r in Hm by lia.
      assert (0 < 2 ^ (e - E)) by (apply Z.pow_pos_nonneg; lia).
      nia.
Qed.

Section MoreResolver2.

Variable model_cls : PipelineModel.

Lemma initial_events_no_warning available c :
  existsb is_LogWarning (initial_events model_cls available c) = false.
Proof.
  unfold initial_events. destruct (max_length c), (max_batch_size c); reflexivity.
Qed.

Lemma cache_budget_bounds free c :
  float_in_unit_interval (device_memory_utilization c) ->
  free - estimate_weights_size model_cls c < 2 ^ 53 ->
  exists available,
    cache_budget model_cls free c = inr available
    /\ 0 <= available <= Z.max 0 (free - estimate_weights_size model_cls c).
Proof.
  intros Hu Hlt. unfold cache_budget.
  apply int_mul_float_to_int_le; [lia|exact Hu].
Qed.

(** After the automatic remedy the configuration still holds a length and a
    batch size. *)
Lemma estimate_memory_footprint_shrink_fields l s U b0 r s' :
  max_length (config s) = Some U ->
  max_batch_size (config s) = Some b0 ->
  estimate_memory_footprint_shrink model_cls l s = (r, s') ->
  (exists l', r = Done l')
  /\ (exists U', max_length (config s') = Some U')
  /\ (exists b', max_batch_size (config s') = Some b').
Proof.
  intros HU Hb. unfold estimate_memory_footprint_shrink.
  destruct ((total_size l >? free_memory l)
            && negb (user_provided_max_length l)).
  - destruct (_find_valid_max_length_spec model_cls
                (available_kv_cache_memory l)
                (user_provided_max_batch_size l) s U b0 HU Hb)
      as (found & L & B & evs & Heq & _ & _ & _ & HB & _).
    assert (HB' : exists b', B = Some b').
    { destruct (user_provided_max_batch_size l); [rewrite HB, Hb; eauto|].
      destruct HB as [x ->]. eauto. }
    destruct HB' as [b' ->].
    cbv [bind get_config]. rewrite Heq.
    destruct found.
    + cbv [emit modify_config]. cbn [config trace].
      rewrite _calculate_kv_cache_size_eq. cbv [ret]. cbn [config trace].
      intros [= <- <-]. cbn [config].
      split; [eauto|]. split; [exists L|exists b']; destruct (config s);
        reflexivity.
    + cbv [ret]. intros [= <- <-]. cbn [config].
      split; [eauto|]. split; [exists L|exists b']; destruct (config s);
        reflexivity.
  - cbv [ret]. intros [= <- <-]. repeat split; eauto.
Qed.

(** The resolution returns or raises: its loops are never unfolded too few
    times. *)
Lemma _estimate_memory_footprint_not_out_of_fuel s s' :
  _estimate_memory_footprint model_cls s <> (Fuel_exhausted, s').
Proof.
  unfold _estimate_memory_footprint. cbv [bind get_config].
  destruct (sum_free_memory (devices (config s)) 0) as [e|free] eqn:Hsum.
  { fold (bind get_config (fun c => match sum_free_memory (devices c) 0 with
                                    | inl e => estimate_memory_footprint_degraded model_cls e
                                    | inr _ => ret tt end) s).
    pose proof (_estimate_memory_footprint_unavailable model_cls s e Hsum) as H.
    unfold _estimate_memory_footprint in H. cbv [bind get_config] in H.
    rewrite Hsum in H. rewrite H. discriminate. }
  rewrite estimate_memory_footprint_initial_eq.
  destruct (cache_budget model_cls free (config s)) as [e|available];
    [discriminate|].
  set (s1 := {| config := _; trace := _ |}).
  destruct (initial_config_fields model_cls available (config s))
    as [[U HU] [b Hb]].
  destruct (estimate_memory_footprint_shrink model_cls
              (initial_footprint model_cls free available (config s)) s1)
    as [r s2] eqn:Hshrink.
  apply (estimate_memory_footprint_shrink_fields _ _ U b) in Hshrink.
  2:{ subst s1. cbn [config].
      destruct (initial_config model_cls available (config s)). exact HU. }
  2:{ subst s1. cbn [config].
      destruct (initial_config model_cls available (config s)). exact Hb. }
  destruct Hshrink as ([l' ->] & [U' HU'] & [b' Hb']).
  unfold estimate_memory_footprint_report. cbv [bind get_config].
  destruct (estimate_memory_footprint_logging_str l' (config s2)) as [e|info];
    [discriminate|].
  cbv [lift ret emit]. cbn [config trace].
  destruct (total_size l' >? free_memory l').
  - set (s3 := {| config := config s2; trace := _ |}).
    destruct (Z.le_gt_cases (model_weights_size l') (free_memory l')) as [Hle|Hgt].
    + destruct (_raise_oom_error_eq model_cls (user_provided_max_length l')
                  (user_provided_max_batch_size l') (total_size l')
                  (free_memory l') (available_kv_cache_memory l')
                  (model_weights_size l') s3 U' b' Hle HU' Hb')
        as (fl & L & B & evs1 & fb & b2 & c2 & evs2 & _ & _ & _ & _ & _ & _ & ->).
      destruct (_generate_oom_error_message _ _ _ _ _ _ _ _ _ _); discriminate.
    + unfold _raise_oom_error.
      destruct (Z.gtb_spec (model_weights_size l') (free_memory l')); [|lia].
      discriminate.
  - destruct (exceeds_vram_usage_limit _ _) as [e|[|]]; discriminate.
Qed.

End MoreResolver2.

(** ** Reasoning about the validation *)

Lemma v_bind_inv {A B} (m : V A) (k : A -> V B) v r v' :
  v_bind m k v = (r, v') ->
  (exists e, m v = (inl e, v') /\ r = inl e)
  \/ (exists a v1, m v = (inr a, v1) /\ k a v1 = (r, v')).
Proof.
  unfold v_bind. destruct (m v) as [[e|a] v1].
  - intros [= <- <-]. left. eauto.
  - intros H. right. eauto.
Qed.

Lemma set_quantization_encoding_same c :
  set_quantization_encoding (quantization_encoding (attributes c)) c = c.
Proof. destruct c as [e []]. reflexivity. Qed.

Lemma set_cache_strategy_same c :
  set_cache_strategy (cache_strategy (attributes c)) c = c.
Proof. destruct c as [e []]. reflexivity. Qed.

Lemma set_rope_type_same c :
  set_rope_type (rope_type (attributes c)) c = c.
Proof. destruct c as [e []]. reflexivity. Qed.

Lemma SupportedEncoding_eqb_eq a b :
  SupportedEncoding_eqb a b = true <-> a = b.
Proof.
  destruct a, b; cbn; split; try congruence; try discriminate.
  - intros H. apply String.eqb_eq in H. congruence.
  - intros [= ->]. apply String.eqb_refl.
Qed.

Lemma KVCacheStrategy_eqb_eq a b :
  KVCacheStrategy_eqb a b = true <-> a = b.
Proof.
  destruct a, b; cbn; split; try congruence; try discriminate.
  - intros H. apply String.eqb_eq in H. congruence.
  - intros [= ->]. apply String.eqb_refl.
Qed.

Section ValidateFacts.

Variable world : World.
Variable architectures : Architectures.

(** The first part changes the encoding only, logs debug records only, and
    fails with [ValueError], or with [IndexError] when there is no device. *)
Lemma resolve_quantization_encoding_spec arch repo v r v' :
  resolve_quantization_encoding world arch repo v = (r, v') ->
  exists qe logs,
    pipeline_config v' = set_quantization_encoding qe (pipeline_config v)
    /\ records v' = records v ++ logs
    /\ forallb is_log logs = true
    /\ (r = inr tt
        \/ (exists msg, r = inl (ValueError_ msg))
        \/ (r = inl IndexError_ /\ devices (estimated (pipeline_config v)) = [])).
Proof.
  unfold resolve_quantization_encoding, v_bind, v_get, v_raise, v_ret, v_log,
    v_modify.
  cbn [pipeline_config records].
  repeat match goal with
         | |- context [if ?b then _ else _] => destruct b
         | |- context [match ?x with _ => _ end] =>
             match type of x with
             | option _ => destruct x
             | list _ => destruct x eqn:?
             end
         end;
    intros [= <- <-]; cbn [pipeline_config records];
    first
      [ exists (quantization_encoding (attributes (pipeline_config v))), [];
        rewrite set_quantization_encoding_same, app_nil_r;
        repeat split; eauto; fail
      | eexists (Some _), [];
        rewrite app_nil_r; repeat split; eauto; fail
      | eexists (Some _), [_];
        repeat split; eauto; fail ].
Qed.

(** The loop over the device specifications changes nothing. *)
Lemma check_supported_on_spec specs : forall v r v',
  check_supported_on world specs v = (r, v') ->
  v' = v
  /\ (r = inr tt
      \/ (exists msg, r = inl (ValueError_ msg))
      \/ (r = inl AttributeError_
          /\ quantization_encoding (attributes (pipeline_config v)) = None)).
Proof.
  induction specs as [|spec specs IH]; intros v r v'; cbn [check_supported_on].
  - intros [= <- <-]. auto.
  - unfold v_bind, v_get, v_raise. cbn [pipeline_config].
    destruct (quantization_encoding (attributes (pipeline_config v))) as [e|]
      eqn:Hqe.
    + destruct (supported_on world e spec); cbn [negb].
      * intros H. apply IH in H. rewrite Hqe in H.
        destruct H as [-> [H|[H|[_ H]]]]; [auto|eauto|discriminate].
      * intros [= <- <-]. eauto.
    + intros [= <- <-]. auto.
Qed.

(** The search for a converter with files sets the weight path and the
    converter together, or nothing. *)
Lemma first_converter_with_files_spec weight_files converters : forall v,
  exists v',
    first_converter_with_files weight_files converters v = (inr tt, v')
    /\ records v' = records v
    /\ (v' = v
        \/ exists files converter,
            files <> []
            /\ pipeline_config v'
               = set_weights_converter (Some converter)
                   (set_weight_path files (pipeline_config v))).
Proof.
  induction converters as [|[fmt conv] converters IH]; intros v;
    cbn [first_converter_with_files].
  - exists v. unfold v_ret. auto.
  - destruct (dict_get_list WeightsFormat_eqb fmt weight_files) as [|f files];
      [apply IH|].
    eexists. unfold v_bind, v_modify. cbn [pipeline_config records].
    split; [reflexivity|]. cbn [records pipeline_config]. split; [reflexivity|].
    right. exists (f :: files), conv. split; [discriminate|reflexivity].
Qed.

(** The default weight files: only [weight_path] and [_weights_converter]
    can change, and a given weight path is kept. *)
Lemma find_weight_path_spec arch repo v :
  exists v',
    find_weight_path arch repo v = (inr tt, v')
    /\ records v' = records v
    /\ (v' = v
        \/ (weight_path (attributes (pipeline_config v)) = []
            /\ exists files,
                files <> []
                /\ (pipeline_config v' = set_weight_path files (pipeline_config v)
                    \/ exists converter,
                        pipeline_config v'
                        = set_weights_converter (Some converter)
                            (set_weight_path files (pipeline_config v))))).
Proof.
  unfold find_weight_path, v_bind, v_get, v_ret. cbn [pipeline_config].
  destruct (weight_path (attributes (pipeline_config v))) as [|p ps] eqn:Hwp;
    cbn [is_nil]; [|eauto].
  destruct (dict_get_list WeightsFormat_eqb (Arch.default_weights_format arch) _)
    as [|f files] eqn:Hd.
  - destruct (first_converter_with_files_spec
                (Repo.files_for_encoding repo
                   (quantization_encoding (attributes (pipeline_config v)))
                   (_ALTERNATE_ENCODINGS_get
                      (quantization_encoding (attributes (pipeline_config v)))))
                (Arch.weight_converters arch) v)
      as (v' & Heq & Hrec & [->|(files & conv & Hne & Hc)]).
    + exists v. auto.
    + exists v'. split; [exact Heq|]. split; [exact Hrec|]. right.
      split; [reflexivity|]. exists files. split; [exact Hne|]. right. eauto.
  - eexists. unfold v_modify. split; [reflexivity|]. cbn [records pipeline_config].
    split; [reflexivity|]. right. split; [reflexivity|].
    exists (f :: files). split; [discriminate|]. left. reflexivity.
Qed.

Lemma require_weight_path_spec arch repo v r v' :
  require_weight_path world arch repo v = (r, v') ->
  v' = v
  /\ ((r = inr tt /\ weight_path (attributes (pipeline_config v)) <> [])
      \/ exists msg, r = inl (ValueError_ msg)).
Proof.
  unfold require_weight_path, v_bind, v_get, v_ret, v_raise.
  cbn [pipeline_config].
  destruct (weight_path (attributes (pipeline_config v))); cbn [is_nil].
  - case_if; intros [= <- <-]; eauto.
  - intros [= <- <-]. split; [reflexivity|]. left. split; [reflexivity|discriminate].
Qed.

(** The supported cache strategies of the encoding of a configuration. *)
Lemma resolve_cache_strategy_spec arch v :
  exists strategy logs,
    resolve_cache_strategy world arch v
    = (inr tt,
       {| pipeline_config := set_cache_strategy strategy (pipeline_config v);
          records := records v ++ logs |})
    /\ forallb is_log logs = true
    /\ forall e,
        quantization_encoding (attributes (pipeline_config v)) = Some e ->
        dict_get_list SupportedEncoding_eqb e (Arch.supported_encodings arch)
        <> [] ->
        existsb (KVCacheStrategy_eqb strategy)
          (dict_get_list SupportedEncoding_eqb e (Arch.supported_encodings arch))
        = true.
Proof.
  unfold resolve_cache_strategy, v_bind, v_get, v_ret, v_log, v_modify.
  cbn [pipeline_config records].
  set (c := pipeline_config v).
  assert (Hsame : (inr tt : RegistryExn + unit, v)
                  = (inr tt,
                     {| pipeline_config := set_cache_strategy
                                             (cache_strategy (attributes c)) c;
                        records := records v ++ [] |})).
  { rewrite set_cache_strategy_same, app_nil_r. subst c. now destruct v. }
  destruct (quantization_encoding (attributes c)) as [e|] eqn:Hqe.
  - destruct (dict_get_list SupportedEncoding_eqb e (Arch.supported_encodings arch))
      as [|first rest] eqn:Hs.
    + exists (cache_strategy (attributes c)), []. split; [exact Hsame|].
      split; [reflexivity|]. intros e' [= <-]. congruence.
    + destruct (KVCacheStrategy_eqb (cache_strategy (attributes c)) MODEL_DEFAULT).
      * exists first, [Debug (default_strategy_message world first)].
        split; [reflexivity|]. split; [reflexivity|].
        intros e' [= <-] _. rewrite Hs. cbn.
        now rewrite (proj2 (KVCacheStrategy_eqb_eq first first) eq_refl).
      * destruct (existsb (KVCacheStrategy_eqb (cache_strategy (attributes c)))
                    (first :: rest)) eqn:Hin; cbn [negb].
        -- exists (cache_strategy (attributes c)), []. split; [exact Hsame|].
           split; [reflexivity|]. intros e' [= <-] _. rewrite Hs. exact Hin.
        -- exists first, [Warning (strategy_not_supported_message world c first)].
           split; [reflexivity|]. split; [reflexivity|].
           intros e' [= <-] _. rewrite Hs. cbn.
           now rewrite (proj2 (KVCacheStrategy_eqb_eq first first) eq_refl).
  - exists (cache_strategy (attributes c)), []. split; [exact Hsame|].
    split; [reflexivity|]. discriminate.
Qed.

Lemma check_weight_paths_spec repo paths : forall v r v',
  check_weight_paths world repo paths v = (r, v') ->
  v' = v
  /\ ((r = inr tt
       /\ Forall (fun path => os_path_exists world path
                              || Repo.file_exists repo path = true) paths)
      \/ exists msg, r = inl (ValueError_ msg)).
Proof.
  induction paths as [|path paths IH]; intros v r v'; cbn [check_weight_paths].
  - intros [= <- <-]. auto.
  - unfold v_bind, v_get, v_raise. cbn [pipeline_config].
    destruct (os_path_exists world path) eqn:Hl; cbn [negb andb].
    + intros H. apply IH in H. destruct H as [-> [[-> H]|H]]; [|eauto].
      split; [reflexivity|]. left. split; [reflexivity|].
      constructor; [now rewrite Hl|exact H].
    + destruct (Repo.file_exists repo path) eqn:Hr; cbn [negb].
      * intros H. apply IH in H. destruct H as [-> [[-> H]|H]]; [|eauto].
        split; [reflexivity|]. left. split; [reflexivity|].
        constructor; [now rewrite Hl, Hr|exact H].
      * intros [= <- <-]. eauto.
Qed.

Lemma call_estimate_memory_footprint_spec arch v r v' :
  call_estimate_memory_footprint arch v = (r, v') ->
  exists outcome s',
    _estimate_memory_footprint
      (Arch.pipeline_model arch (attributes (pipeline_config v)))
      {| config := estimated (pipeline_config v); trace := [] |} = (outcome, s')
    /\ pipeline_config v'
       = {| estimated := config s';
            attributes := attributes (pipeline_config v) |}
    /\ records v' = records v ++ map Estimation (trace s')
    /\ ((outcome = Done tt /\ r = inr tt)
        \/ exists e, outcome = Raise e /\ r = inl (EstimationError e)).
Proof.
  unfold call_estimate_memory_footprint.
  destruct (_estimate_memory_footprint _ _) as [outcome s'] eqn:Hrun.
  destruct outcome as [[]|e|].
  - intros [= <- <-]. exists (Done tt), s'. cbn [pipeline_config records].
    repeat split; auto.
  - intros [= <- <-]. exists (Raise e), s'. cbn [pipeline_config records].
    repeat split; eauto.
  - now apply _estimate_memory_footprint_not_out_of_fuel in Hrun.
Qed.

(** The validation of a supported architecture from the check of the
    devices on. *)
Lemma validate_weights_and_memory_inv arch repo v e0 r v' :
  quantization_encoding (attributes (pipeline_config v)) = Some e0 ->
  validate_weights_and_memory world arch repo v = (r, v') ->
  exists logs,
    forallb is_log logs = true
    /\ (((exists msg, r = inl (ValueError_ msg))
         /\ records v' = records v ++ logs
         /\ estimated (pipeline_config v')
            = estimated (pipeline_config v)
            \/ (exists msg, r = inl (ValueError_ msg))
               /\ records v' = records v ++ logs
               /\ estimated (pipeline_config v')
                  = estimated (finalize_encoding_config world (pipeline_config v)))
        \/ exists c outcome s',
            estimated c
            = estimated (finalize_encoding_config world (pipeline_config v))
            /\ engine (attributes c)
               = engine (attributes
                           (finalize_encoding_config world (pipeline_config v)))
            /\ weight_path (attributes c) <> []
            /\ weight_paths_exist world repo c
            /\ rope_type (attributes c) <> None
            /\ cache_strategy_supported arch c
            /\ _estimate_memory_footprint
                 (Arch.pipeline_model arch (attributes c))
                 {| config := estimated c; trace := [] |} = (outcome, s')
            /\ records v' = records v ++ logs ++ map Estimation (trace s')
            /\ ((outcome = Done tt /\ r = inr tt
                 /\ pipeline_config v'
                    = set_engine (Some MAX)
                        {| estimated := config s'; attributes := attributes c |})
                \/ exists e,
                    outcome = Raise e /\ r = inl (EstimationError e)
                    /\ pipeline_config v'
                       = {| estimated := config s';
                            attributes := attributes c |})).
Proof.
  intros Hqe Hrun. unfold validate_weights_and_memory in Hrun.
  unfold v_bind at 1 in Hrun. unfold v_get at 1 in Hrun.
  (* the devices *)
  apply v_bind_inv in Hrun.
  destruct Hrun as [(e & Hstep & ->)|([] & v1 & Hstep & Hrun)];
    apply check_supported_on_spec in Hstep.
  { destruct Hstep as [-> [H|[H|[_ H]]]]; [discriminate| |congruence].
    exists []. split; [reflexivity|]. left. left.
    rewrite app_nil_r. auto. }
  destruct Hstep as [-> _].
  (* finalize_encoding_config *)
  apply v_bind_inv in Hrun.
  destruct Hrun as [(e & Hstep & ->)|([] & v2 & Hstep & Hrun)];
    [discriminate|].
  unfold v_modify in Hstep. injection Hstep as <-.
  set (c2 := finalize_encoding_config world (pipeline_config v)) in *.
  (* the weight files *)
  apply v_bind_inv in Hrun.
  destruct (find_weight_path_spec arch repo
              {| pipeline_config := c2; records := records v |})
    as (v3 & Hfind & Hrec3 & Hc3).
  rewrite Hfind in Hrun.
  destruct Hrun as [(e & [=] & _)|([] & v3' & [= <-] & Hrun)].
  cbn [records pipeline_config] in Hrec3, Hc3.
  assert (Hfr3 : estimated (pipeline_config v3) = estimated c2
                 /\ engine (attributes (pipeline_config v3))
                    = engine (attributes c2)).
  { destruct Hc3 as [->|(_ & files & _ & [->|(conv & ->)])]; auto. }
  destruct Hfr3 as [Hest3 Heng3].
  apply v_bind_inv in Hrun.
  destruct Hrun as [(e & Hstep & ->)|([] & v4 & Hstep & Hrun)];
    apply require_weight_path_spec in Hstep.
  { destruct Hstep as [-> [[H _]|H]]; [discriminate|].
    exists []. split; [reflexivity|]. left. right.
    rewrite app_nil_r. auto. }
  destruct Hstep as [-> Hwp]. destruct Hwp as [[_ Hwp]|[msg H]]; [|discriminate].
  (* the cache strategy *)
  apply v_bind_inv in Hrun.
  destruct (resolve_cache_strategy_spec arch v3)
    as (strategy & logs & Hcache & Hlogs & Hsupported).
  rewrite Hcache in Hrun.
  destruct Hrun as [(e & [=] & _)|([] & v5 & [= <-] & Hrun)].
  set (c5 := set_cache_strategy strategy (pipeline_config v3)) in *.
  unfold v_bind at 1 in Hrun. unfold v_get at 1 in Hrun.
  cbn [pipeline_config] in Hrun.
  assert (Hwp5 : weight_path (attributes c5)
                 = weight_path (attributes (pipeline_config v3))).
  { subst c5. destruct (pipeline_config v3) as [? []]. reflexivity. }
  (* the assertion *)
  apply v_bind_inv in Hrun.
  destruct (weight_path (attributes c5)) as [|p ps] eqn:Hwp5';
    [congruence|]. cbn [is_nil] in Hrun.
  destruct Hrun as [(e & [=] & _)|([] & v6 & [= <-] & Hrun)].
  (* the weight files exist *)
  apply v_bind_inv in Hrun.
  destruct Hrun as [(e & Hstep & ->)|([] & v7 & Hstep & Hrun)];
    apply check_weight_paths_spec in Hstep.
  { destruct Hstep as [-> [[H _]|H]]; [discriminate|].
    exists logs. split; [exact Hlogs|]. left. right.
    cbn [records pipeline_config]. split; [exact H|].
    split; [rewrite Hrec3; reflexivity|].
    subst c5. rewrite <- Hest3. destruct (pipeline_config v3). reflexivity. }
  destruct Hstep as [-> [[_ Hexist]|[msg H]]]; [|discriminate].
  unfold v_bind at 1 in Hrun. unfold v_get at 1 in Hrun.
  cbn [pipeline_config] in Hrun.
  (* the rope type *)
  apply v_bind_inv in Hrun.
  assert (Hrope : exists c6,
             (if is_Some (rope_type (attributes c5)) then v_ret tt
              else v_modify (set_rope_type (Some (Arch.rope_type arch))))
               {| pipeline_config := c5; records := records v3 ++ logs |}
             = (inr tt, {| pipeline_config := c6;
                           records := records v3 ++ logs |})
             /\ rope_type (attributes c6) <> None
             /\ estimated c6 = estimated c5
             /\ engine (attributes c6) = engine (attributes c5)
             /\ weight_path (attributes c6) = weight_path (attributes c5)
             /\ quantization_encoding (attributes c6)
                = quantization_encoding (attributes c5)
             /\ cache_strategy (attributes c6) = cache_strategy (attributes c5)).
  { destruct (rope_type (attributes c5)) eqn:Hr; cbn [is_Some].
    - exists c5. rewrite Hr. repeat split; congruence.
    - exists (set_rope_type (Some (Arch.rope_type arch)) c5).
      split; [reflexivity|]. destruct c5 as [? []]. cbn.
      repeat split; discriminate. }
  destruct Hrope as (c6 & Hstep & Hrope & Hest6 & Heng6 & Hwp6 & Hqe6 & Hcs6).
  rewrite Hstep in Hrun.
  destruct Hrun as [(e & [=] & _)|([] & v8 & [= <-] & Hrun)].
  (* the memory estimation *)
  apply v_bind_inv in Hrun.
  assert (Hfacts : estimated c6 = estimated c2
                   /\ engine (attributes c6) = engine (attributes c2)
                   /\ weight_path (attributes c6) <> []
                   /\ weight_paths_exist world repo c6
                   /\ cache_strategy_supported arch c6).
  { assert (H5 : estimated c5 = estimated (pipeline_config v3)
                 /\ engine (attributes c5)
                    = engine (attributes (pipeline_config v3))
                 /\ quantization_encoding (attributes c5)
                    = quantization_encoding (attributes (pipeline_config v3))
                 /\ cache_strategy (attributes c5) = strategy).
    { subst c5. destruct (pipeline_config v3) as [? []]. cbn. auto. }
    destruct H5 as (H51 & H52 & H53 & H54).
    split; [congruence|]. split; [congruence|].
    split; [rewrite Hwp6, Hwp5'; discriminate|].
    split; [unfold weight_paths_exist; rewrite Hwp6, Hwp5'; exact Hexist|].
    intros e He Hne. rewrite Hcs6, H54. rewrite Hqe6, H53 in He.
    now apply Hsupported. }
  destruct Hfacts as (F1 & F2 & F3 & F4 & F5).
  exists logs. split; [exact Hlogs|]. right.
  destruct Hrun as [(e & Hstep' & ->)|([] & v9 & Hstep' & Hrun)];
    apply call_estimate_memory_footprint_spec in Hstep';
    destruct Hstep' as (outcome & s' & Hest & Hcfg & Hrec & Hout);
    cbn [pipeline_config records] in Hest, Hcfg, Hrec.
  - destruct Hout as [[_ H]|(e' & -> & [= ->])]; [discriminate|].
    exists c6, (Raise e'), s'. rewrite Hrec3 in Hrec.
    repeat (split; [assumption|]).
    split; [rewrite Hrec, app_assoc; reflexivity|].
    right. exists e'. auto.
  - destruct Hout as [[-> _]|(e' & _ & [=])].
    unfold v_modify in Hrun. injection Hrun as <- <-.
    cbn [pipeline_config records]. rewrite Hrec3 in Hrec.
    exists c6, (Done tt), s'.
    repeat (split; [assumption|]).
    split; [rewrite Hrec, app_assoc; reflexivity|].
    left. rewrite Hcfg. auto.
Qed.

Lemma encoding_supported_Some qe arch :
  encoding_supported qe arch = true -> exists e, qe = Some e.
Proof. destruct qe; [eauto|discriminate]. Qed.

Lemma opt_engine_eqb_MAX e :
  opt_engine_eqb e (Some MAX) = true <-> e = Some MAX.
Proof. destruct e as [[]|]; cbn; split; congruence. Qed.

(** Every run of [validate_pipeline_config] is of one of three kinds: a
    refusal before the memory estimation, a return with the HuggingFace
    engine, or a run that reaches the memory estimation. *)
Lemma validate_pipeline_config_inv v r v' :
  validate_pipeline_config world architectures v = (r, v') ->
  let c0 := update_architecture world (pipeline_config v) in
  let repo := huggingface_weights_repo world c0 in
  exists logs,
    forallb is_log logs = true
    /\ ((records v' = records v ++ logs
         /\ ((exists msg, r = inl (ValueError_ msg))
             \/ (r = inl IndexError_ /\ devices (estimated c0) = [])))
        \/ (records v' = records v ++ logs
            /\ r = inr tt
            /\ engine (attributes c0) <> Some MAX
            /\ engine (attributes (pipeline_config v')) = Some HUGGINGFACE
            /\ estimated (pipeline_config v') = estimated c0
            /\ (architecture_details architectures c0 = None
                \/ exists arch,
                    architecture_details architectures c0 = Some arch
                    /\ encoding_supported
                         (quantization_encoding
                            (attributes (pipeline_config v'))) arch = false))
        \/ exists arch qe c outcome s',
            architecture_details architectures c0 = Some arch
            /\ encoding_supported qe arch = true
            /\ estimated c
               = estimated (finalize_encoding_config world
                              (set_quantization_encoding qe c0))
            /\ weight_path (attributes c) <> []
            /\ weight_paths_exist world repo c
            /\ rope_type (attributes c) <> None
            /\ cache_strategy_supported arch c
            /\ _estimate_memory_footprint
                 (Arch.pipeline_model arch (attributes c))
                 {| config := estimated c; trace := [] |} = (outcome, s')
            /\ records v' = records v ++ logs ++ map Estimation (trace s')
            /\ ((outcome = Done tt /\ r = inr tt
                 /\ pipeline_config v'
                    = set_engine (Some MAX)
                        {| estimated := config s'; attributes := attributes c |})
                \/ exists e,
                    outcome = Raise e /\ r = inl (EstimationError e)
                    /\ pipeline_config v'
                       = {| estimated := config s';
                            attributes := attributes c |})).
Proof.
  intros Hrun c0 repo. unfold validate_pipeline_config in Hrun.
  apply v_bind_inv in Hrun.
  destruct Hrun as [(e & [=] & _)|([] & v1 & [= <-] & Hrun)].
  unfold v_bind at 1 in Hrun. unfold v_get at 1 in Hrun.
  cbn [pipeline_config] in Hrun. fold c0 in Hrun.
  destruct (architecture_details architectures c0) as [arch|] eqn:Harch.
  - fold repo in Hrun.
    apply v_bind_inv in Hrun.
    destruct Hrun as [(e & Hstep & ->)|([] & v2 & Hstep & Hrun)];
      apply resolve_quantization_encoding_spec in Hstep;
      destruct Hstep as (qe & logs & Hcfg & Hrec & Hlogs & Hres);
      cbn [pipeline_config records] in Hcfg, Hrec.
    { exists logs. split; [exact Hlogs|]. left. split; [exact Hrec|].
      destruct Hres as [H|[H|H]]; [discriminate|auto|auto]. }
    unfold v_bind at 1 in Hrun. unfold v_get at 1 in Hrun. rewrite Hcfg in Hrun.
    assert (Hq : quantization_encoding
                   (attributes (set_quantization_encoding qe c0)) = qe)
      by (destruct c0 as [? []]; reflexivity).
    rewrite Hq in Hrun.
    destruct (encoding_supported qe arch) eqn:Hsup; cbn [negb] in Hrun.
    + destruct (encoding_supported_Some _ _ Hsup) as [e0 ->].
      apply validate_weights_and_memory_inv with (e0 := e0) in Hrun;
        [|rewrite Hcfg; exact Hq].
      destruct Hrun as (logs' & Hlogs' & Hrun).
      exists (logs ++ logs'). split; [rewrite forallb_app, Hlogs, Hlogs'; reflexivity|].
      rewrite Hrec, Hcfg in Hrun.
      destruct Hrun as [[(Hr & Hrec' & _)|(Hr & Hrec' & _)]|Hrun].
      * left. rewrite Hrec', app_assoc. auto.
      * left. rewrite Hrec', app_assoc. auto.
      * right. right.
        destruct Hrun as (c & outcome & s' & F1 & _ & F3 & F4 & F5 & F6 & F7 & F8 & F9).
        exists arch, (Some e0), c, outcome, s'.
        split; [reflexivity|].
        repeat (split; [assumption|]).
        split; [rewrite F8, !app_assoc; reflexivity|exact F9].
    + destruct (opt_engine_eqb (engine (attributes (set_quantization_encoding qe c0)))
                  (Some MAX)) eqn:Heng.
      * injection Hrun as <- <-. exists logs. split; [exact Hlogs|]. left. eauto.
      * unfold v_bind, v_log, v_modify in Hrun.
        match type of Hrun with
        | context [Warning ?m] => pose (w := Warning m)
        end.
        injection Hrun as <- <-.
        cbn [pipeline_config records]. rewrite Hrec, Hcfg.
        exists (logs ++ [w]). split; [rewrite forallb_app, Hlogs; reflexivity|].
        right. left. split; [rewrite app_assoc; reflexivity|].
        split; [reflexivity|].
        split.
        { intros H. rewrite <- opt_engine_eqb_MAX in H.
          destruct c0 as [? []]. cbn in *. congruence. }
        split; [destruct c0 as [? []]; reflexivity|].
        split; [destruct c0 as [? []]; reflexivity|].
        right. exists arch. split; [reflexivity|].
        destruct c0 as [? []]. exact Hsup.
  - destruct (opt_engine_eqb (engine (attributes c0)) (Some MAX)) eqn:Heng.
    + injection Hrun as <- <-. exists []. split; [reflexivity|]. left.
      cbn [records]. rewrite app_nil_r. eauto.
    + unfold v_bind, v_log, v_modify in Hrun.
      match type of Hrun with
      | context [Warning ?m] => pose (w := Warning m)
      end.
      injection Hrun as <- <-.
      cbn [pipeline_config records].
      exists [w]. split; [reflexivity|]. right. left.
      split; [reflexivity|]. split; [reflexivity|].
      split; [intros H; rewrite <- opt_engine_eqb_MAX in H; congruence|].
      split; [destruct c0 as [? []]; reflexivity|].
      split; [destruct c0 as [? []]; reflexivity|]. left. reflexivity.
Qed.

End ValidateFacts.

(** ** The registry of architectures: registration and lookup *)

(** X1.  Registration and lookup agree.  After [register] has accepted an
    architecture, [architecture_details] returns it for every configuration
    that asks for its (non-empty) name with the engine unset or [MAX], and
    answers as before for every configuration that asks for another name; a
    second registration under that name is refused with [ValueError]. *)
Theorem register_then_architecture_details architectures architectures' a :
  register a architectures = inr architectures' ->
  (forall c,
      architecture (attributes c) = Some (Arch.name a) ->
      Arch.name a <> EmptyString ->
      engine (attributes c) <> Some HUGGINGFACE ->
      architecture_details architectures' c = Some a)
  /\ (forall c,
         architecture (attributes c) <> Some (Arch.name a) ->
         architecture_details architectures' c
         = architecture_details architectures c)
  /\ (forall a',
         Arch.name a' = Arch.name a ->
         register a' architectures'
         = inl (ValueError_ (refusing_message (Arch.name a)))).
Proof.
  intros Hreg. apply register_inr in Hreg. destruct Hreg as [Hfresh ->].
  split; [|split].
  - intros c Harch Hname Heng. unfold architecture_details. rewrite Harch.
    destruct (Arch.name a) eqn:En; [contradiction|]. cbn [truthy_str negb].
    rewrite <- En, dict_get_set_same.
    destruct (engine (attributes c)) as [[|]|]; congruence.
  - intros c Harch. unfold architecture_details.
    destruct (truthy_str _); [|reflexivity]. cbn [negb].
    destruct (engine (attributes c)) as [[|]|]; try reflexivity;
      destruct (architecture (attributes c)) as [n|]; try reflexivity;
      apply dict_get_set_other; congruence.
  - intros a' Hn. unfold register.
    rewrite Hn, dict_mem_set, String.eqb_refl. reflexivity.
Qed.

Lemma register_then_architecture_details_witness :
  architecture_details
    [("LlamaForCausalLM", example_arch "LlamaForCausalLM" 10);
     ("MistralForCausalLM", example_arch "MistralForCausalLM" 20)]
    (asking_for (Some "MistralForCausalLM") None)
  = Some (example_arch "MistralForCausalLM" 20).
Proof.
  apply (register_then_architecture_details
           [("LlamaForCausalLM", example_arch "LlamaForCausalLM" 10)]
           _ (example_arch "MistralForCausalLM" 20));
    [reflexivity|reflexivity|discriminate|discriminate].
Defined.

(** X2.  The constructor does not refuse repeated names: of several
    architectures with the same name the last one of the list is kept, and
    [architecture_details] answers with it. *)
Theorem PipelineRegistry_keeps_last archs c n :
  architecture (attributes c) = Some n ->
  n <> EmptyString ->
  engine (attributes c) <> Some HUGGINGFACE ->
  architecture_details (PipelineRegistry archs) c
  = find (fun a => String.eqb (Arch.name a) n) (rev archs).
Proof.
  intros Harch Hn Heng. unfold architecture_details, PipelineRegistry.
  rewrite Harch. destruct n; [contradiction|]. cbn [truthy_str negb].
  rewrite fold_dict_set_get. cbn [dict_get].
  destruct (engine (attributes c)) as [[|]|]; try congruence;
    now destruct (find _ _).
Qed.

Lemma PipelineRegistry_keeps_last_witness :
  architecture_details
    (PipelineRegistry [example_arch "LlamaForCausalLM" 10;
                       example_arch "MistralForCausalLM" 20;
                       example_arch "LlamaForCausalLM" 30])
    (asking_for (Some "LlamaForCausalLM") (Some MAX))
  = Some (example_arch "LlamaForCausalLM" 30).
Proof.
  apply (PipelineRegistry_keeps_last
           [example_arch "LlamaForCausalLM" 10;
            example_arch "MistralForCausalLM" 20;
            example_arch "LlamaForCausalLM" 30]
           (asking_for (Some "LlamaForCausalLM") (Some MAX)) "LlamaForCausalLM");
    [reflexivity|discriminate|discriminate].
Defined.

(** X3.  Whatever sequence of constructor, [register] and [reset] produced
    the dict, [architecture_details] only ever returns an architecture whose
    name is the one the configuration asks for, and never one for an empty
    name or for the HuggingFace engine: an architecture registered under the
    empty name cannot be retrieved. *)
Theorem architecture_details_returns_the_name architectures c a :
  reachable architectures ->
  architecture_details architectures c = Some a ->
  architecture (attributes c) = Some (Arch.name a)
  /\ Arch.name a <> EmptyString
  /\ engine (attributes c) <> Some HUGGINGFACE.
Proof.
  intros Hreach Hdet.
  pose proof (reachable_well_keyed _ Hreach) as Hwk.
  unfold architecture_details in Hdet.
  destruct (architecture (attributes c)) as [n|]; [|discriminate].
  destruct n as [|ch n]; [discriminate|]. cbn [truthy_str negb] in Hdet.
  destruct (engine (attributes c)) as [[|]|]; try discriminate;
    apply Hwk in Hdet; rewrite Hdet; repeat split; discriminate.
Qed.

Lemma architecture_details_returns_the_name_witness :
  architecture (attributes (asking_for (Some "LlamaForCausalLM") None))
  = Some (Arch.name (example_arch "LlamaForCausalLM" 10))
  /\ Arch.name (example_arch "LlamaForCausalLM" 10) <> EmptyString
  /\ engine (attributes (asking_for (Some "LlamaForCausalLM") None))
     <> Some HUGGINGFACE.
Proof.
  apply (architecture_details_returns_the_name
           (PipelineRegistry [example_arch "LlamaForCausalLM" 10])).
  - apply reachable_init.
  - reflexivity.
Defined.

(** X4.  Registering a list of architectures one after the other, as
    [register_all_models] does, goes through exactly when their names are
    pairwise distinct and none of them is registered yet; then every one of
    them is stored under its name and the other entries are as before. *)
Theorem register_all_succeeds_iff archs architectures :
  ((exists architectures', register_all archs architectures = inr architectures')
   <-> NoDup (map Arch.name archs)
       /\ forall a, In a archs ->
                    dict_mem String.eqb (Arch.name a) architectures = false)
  /\ (forall architectures',
         register_all archs architectures = inr architectures' ->
         (forall a, In a archs ->
                    dict_get String.eqb (Arch.name a) architectures' = Some a)
         /\ (forall n, ~ In n (map Arch.name archs) ->
                       dict_get String.eqb n architectures'
                       = dict_get String.eqb n architectures)).
Proof.
  split.
  - split.
    + intros [d' H]. apply register_all_inr in H. tauto.
    + intros [Hnd Hfr]. now apply register_all_fresh.
  - intros d' H. apply register_all_inr in H. tauto.
Qed.

(** X5.  [register_all_models] is not atomic: when a registration is
    refused, the [ValueError] names the refused architecture, whose name
    was registered before or earlier in the same call, and the architectures
    that precede it in the list stay registered. *)
Theorem register_all_refusal archs : forall architectures e architectures1,
  register_all archs architectures = inl (e, architectures1) ->
  exists before a after,
    archs = before ++ a :: after
    /\ register_all before architectures = inr architectures1
    /\ e = ValueError_ (refusing_message (Arch.name a))
    /\ dict_mem String.eqb (Arch.name a) architectures1 = true.
Proof.
  induction archs as [|a archs IH]; intros d e d1; cbn; [discriminate|].
  destruct (register a d) as [e0|d0] eqn:Hreg.
  - intros [= <- <-]. exists [], a, archs. cbn.
    unfold register in Hreg.
    destruct (dict_mem String.eqb (Arch.name a) d) eqn:Hmem; [|discriminate].
    injection Hreg as <-. auto.
  - intros H. destruct (IH _ _ _ H) as (before & a' & after & -> & Hb & He & Hm).
    exists (a :: before), a', after. cbn. rewrite Hreg. auto.
Qed.

Lemma register_all_refusal_witness :
  exists before a after,
    [example_arch "ReplitLM" 10; example_arch "MistralForCausalLM" 20;
     example_arch "ReplitLM" 30]
    = before ++ a :: after
    /\ register_all before [] = inr
         [("ReplitLM", example_arch "ReplitLM" 10);
          ("MistralForCausalLM", example_arch "MistralForCausalLM" 20)]
    /\ ValueError_ (refusing_message "ReplitLM")
       = ValueError_ (refusing_message (Arch.name a))
    /\ dict_mem String.eqb (Arch.name a)
         [("ReplitLM", example_arch "ReplitLM" 10);
          ("MistralForCausalLM", example_arch "MistralForCausalLM" 20)] = true.
Proof.
  apply (register_all_refusal
           [example_arch "ReplitLM" 10; example_arch "MistralForCausalLM" 20;
            example_arch "ReplitLM" 30] []).
  reflexivity.
Defined.

(** X6.  [register_all_models] cannot be called twice: after a call that
    went through, a second call raises the [ValueError] of its first
    architecture and leaves the registry as it is. *)
Theorem register_all_models_twice r m p q architectures architectures' :
  register_all_models r m p q architectures = inr architectures' ->
  register_all_models r m p q architectures'
  = inl (ValueError_ (refusing_message (Arch.name r)), architectures').
Proof.
  unfold register_all_models. intros H.
  apply register_all_inr in H. destruct H as (_ & _ & Hmem & _).
  cbn [register_all]. unfold register.
  rewrite Hmem. cbn [existsb]. now rewrite String.eqb_refl.
Qed.

Lemma register_all_models_twice_witness :
  exists architectures',
    register_all_models (example_arch "ReplitLM" 10)
      (example_arch "MistralForCausalLM" 20) (example_arch "MPNetForMaskedLM" 1)
      (example_arch "Qwen2ForCausalLM" 30) [] = inr architectures'
    /\ register_all_models (example_arch "ReplitLM" 10)
         (example_arch "MistralForCausalLM" 20) (example_arch "MPNetForMaskedLM" 1)
         (example_arch "Qwen2ForCausalLM" 30) architectures'
       = inl (ValueError_ (refusing_message "ReplitLM"), architectures').
Proof.
  eexists. split; [reflexivity|].
  apply (register_all_models_twice (example_arch "ReplitLM" 10)
           (example_arch "MistralForCausalLM" 20) (example_arch "MPNetForMaskedLM" 1)
           (example_arch "Qwen2ForCausalLM" 30) []).
  reflexivity.
Defined.

(** ** The batch-size search *)

(** X7.  Soundness of the batch-size search.  With a batch size [U] given by
    the user, [_find_valid_batch_size] returns; what it answers is the batch
    size that the configuration object is left with, next to the length
    [original_max_length] (neither is put back); an answer "found" means
    that the cache size of this pair fits the budget; and the answer lies in
    [[1, U]], below [U] itself when [U] is more than 1. *)
Theorem find_valid_batch_size_sound model_cls available original_max_length s U :
  max_batch_size (config s) = Some U ->
  exists found b s',
    _find_valid_batch_size model_cls available original_max_length true s
    = (Done (found, b), s')
    /\ config s'
       = set_max_batch_size (Some b)
           (set_max_length original_max_length (config s))
    /\ (found = true ->
        feasible_batch_size model_cls available original_max_length (config s) b)
    /\ (1 <= U -> 1 <= b <= U)
    /\ (1 < U -> b < U).
Proof.
  intros HU.
  destruct (_find_valid_batch_size_spec model_cls available original_max_length
              s U HU) as (found & b & evs & Heq & _ & _ & Hfit & Hr).
  eexists found, b, _. split; [exact Heq|]. cbn [config].
  split; [reflexivity|]. split; [exact Hfit|]. split; [exact Hr|].
  intros H1. rewrite _find_valid_batch_size_unfold with (U := U) in Heq by exact HU.
  apply find_valid_batch_size_loop_result in Heq; [|lia]. lia.
Qed.

Lemma find_valid_batch_size_sound_witness :
  exists found b s',
    _find_valid_batch_size (product_model 10) (5 * MiB) (Some 1) true
      (initial_state (example_config (Some 8) (Some 8) 16))
    = (Done (found, b), s')
    /\ config s'
       = set_max_batch_size (Some b)
           (set_max_length (Some 1) (example_config (Some 8) (Some 8) 16))
    /\ (found = true ->
        feasible_batch_size (product_model 10) (5 * MiB) (Some 1)
          (example_config (Some 8) (Some 8) 16) b)
    /\ (1 <= 8 -> 1 <= b <= 8)
    /\ (1 < 8 -> b < 8).
Proof.
  apply (find_valid_batch_size_sound (product_model 10) (5 * MiB) (Some 1)
           (initial_state (example_config (Some 8) (Some 8) 16)) 8).
  reflexivity.
Defined.

(** X8.  Near-optimality of the batch-size search.  The batch-size search
    never infers anything again, so it is enough that the cache size at the
    length [original_max_length] does not decrease with the batch size over
    [[1, U]]: whenever some batch size [B] of [[1, U]] is feasible at that
    length, the search answers "found" with a feasible batch size that is at
    least [B - 1]. *)
Theorem find_valid_batch_size_near_optimal
    model_cls available original_max_length s U B :
  batch_cost_monotone model_cls available original_max_length (config s) U ->
  max_batch_size (config s) = Some U ->
  1 <= B <= U ->
  feasible_batch_size model_cls available original_max_length (config s) B ->
  exists b s',
    _find_valid_batch_size model_cls available original_max_length true s
    = (Done (true, b), s')
    /\ B - 1 <= b <= U
    /\ feasible_batch_size model_cls available original_max_length (config s) b.
Proof.
  intros Hmono HU HB Hfeas. unfold feasible_batch_size, batch_cost_monotone in *.
  rewrite _find_valid_batch_size_unfold with (U := U) by exact HU.
  set (s0 := {| config := set_max_length original_max_length (config s);
                trace := trace s ++ [FindValidBatchSize (config s) available] |}).
  destruct (find_valid_batch_size_loop_near_optimal model_cls available
              (set_max_length original_max_length (config s)) U B
              (Z.to_nat (Z.log2_up (U - 1))) Hmono Hfeas 1 U s0)
    as (b & s' & Heq & Hb1 & Hb2 & Hc);
    [reflexivity|apply search_fuel_enough|lia|lia|lia|lia| |].
  { pose proof (Hmono 1 B ltac:(lia) ltac:(lia) ltac:(lia)). lia. }
  unfold search_fuel. rewrite Heq. exists b, s'.
  split; [reflexivity|]. split; [lia|].
  pose proof (_find_valid_batch_size_spec model_cls available
                original_max_length s U HU)
    as (found & b' & evs & Heq' & _ & _ & Hfit & _).
  rewrite _find_valid_batch_size_unfold with (U := U) in Heq' by exact HU.
  fold s0 in Heq'. unfold search_fuel in Heq'. rewrite Heq in Heq'.
  injection Heq' as <- <- _. now apply Hfit.
Qed.

Lemma find_valid_batch_size_near_optimal_witness :
  exists b s',
    _find_valid_batch_size (product_model 10) (6 * MiB) (Some 2) true
      (initial_state (example_config (Some 8) (Some 8) 16))
    = (Done (true, b), s')
    /\ 3 - 1 <= b <= 8
    /\ feasible_batch_size (product_model 10) (6 * MiB) (Some 2)
         (example_config (Some 8) (Some 8) 16) b.
Proof.
  apply (find_valid_batch_size_near_optimal (product_model 10) (6 * MiB)
           (Some 2) (initial_state (example_config (Some 8) (Some 8) 16)) 8 3).
  - intros b b' H1 H2 H3.
    unfold kv_cache_size_of, product_model, length_of, batch_size_of, MiB.
    cbn [is_KVCacheMixin estimate_kv_cache_size set_max_batch_size
           set_max_length max_length max_batch_size example_config].
    lia.
  - reflexivity.
  - lia.
  - vm_compute. discriminate.
Defined.

(** ** Bounds of the searches *)

(** X9.  The searches stay within their bounds.  Every call that the length
    search makes into the cost functions is on a configuration whose length
    lies in [[1, U]], where [U] is the length at entry, and below [U] itself
    when [U] is more than 1; the same holds for the batch sizes that the
    batch-size search tries.  The value at entry is thus never tried again. *)
Theorem searches_stay_within_bounds
    model_cls available upb original_max_length s U B0 :
  max_length (config s) = Some U ->
  max_batch_size (config s) = Some B0 ->
  (1 <= U ->
   exists r s' evs,
     _find_valid_max_length model_cls available upb s = (Done r, s')
     /\ trace s' = trace s ++ FindValidMaxLength (config s) available :: evs
     /\ Forall (length_within 1 U) evs)
  /\ (1 <= B0 ->
      exists r s' evs,
        _find_valid_batch_size model_cls available original_max_length true s
        = (Done r, s')
        /\ trace s' = trace s ++ FindValidBatchSize (config s) available :: evs
        /\ Forall (batch_size_within 1 B0) evs).
Proof.
  intros HU HB. split; intros Hge.
  - destruct (_find_valid_max_length_spec model_cls available upb s U B0 HU HB)
      as (found & L & B & evs & Heq & _).
    eexists (found, L, B), _, evs. split; [exact Heq|]. split; [reflexivity|].
    rewrite (_find_valid_max_length_unfold model_cls available upb s U B0 HU HB)
      in Heq.
    destruct (find_valid_max_length_loop _ _ _ _ _ _ _) as [r s'] eqn:Hloop.
    apply find_valid_max_length_loop_within in Hloop; [|exact Hge].
    destruct Hloop as (evs' & Htr & Hev). cbn [trace] in Htr.
    destruct r as [[f l]| |]; try discriminate.
    injection Heq as _ _ _ Hs'. rewrite Hs' in Htr. cbn [trace] in Htr.
    rewrite <- app_assoc in Htr. apply app_inv_head in Htr.
    injection Htr as ->. exact Hev.
  - destruct (_find_valid_batch_size_spec model_cls available
                original_max_length s B0 HB) as (found & b & evs & Heq & _).
    eexists (found, b), _, evs. split; [exact Heq|]. split; [reflexivity|].
    rewrite (_find_valid_batch_size_unfold model_cls available
               original_max_length s B0 HB) in Heq.
    apply find_valid_batch_size_loop_within in Heq; [|exact Hge].
    destruct Heq as (evs' & Htr & Hev). cbn [trace] in Htr.
    rewrite <- app_assoc in Htr. apply app_inv_head in Htr.
    injection Htr as ->. exact Hev.
Qed.

Lemma searches_stay_within_bounds_witness :
  (1 <= 8 ->
   exists r s' evs,
     _find_valid_max_length sum_model (6 * MiB) false
       (initial_state (example_config (Some 8) (Some 5) 16)) = (Done r, s')
     /\ trace s'
        = [] ++ FindValidMaxLength (example_config (Some 8) (Some 5) 16) (6 * MiB)
                :: evs
     /\ Forall (length_within 1 8) evs)
  /\ (1 <= 5 ->
      exists r s' evs,
        _find_valid_batch_size sum_model (6 * MiB) (Some 8) true
          (initial_state (example_config (Some 8) (Some 5) 16)) = (Done r, s')
        /\ trace s'
           = [] ++ FindValidBatchSize (example_config (Some 8) (Some 5) 16) (6 * MiB)
                   :: evs
        /\ Forall (batch_size_within 1 5) evs).
Proof.
  apply (searches_stay_within_bounds sum_model (6 * MiB) false (Some 8)
           (initial_state (example_config (Some 8) (Some 5) 16)) 8 5);
    reflexivity.
Defined.

(** X10.  A length, or a batch size, below 1 at entry.  The searches then
    leave their loop by the [lower > upper] exit after a single evaluation of
    the cache size: they answer "not found", and the value they return and
    leave in the configuration object is [(1 + U) // 2], which is not
    positive. *)
Theorem searches_below_one model_cls available upb original_max_length s U B0 :
  max_length (config s) = Some U ->
  max_batch_size (config s) = Some B0 ->
  (U < 1 ->
   exists B s',
     _find_valid_max_length model_cls available upb s
     = (Done (false, (1 + U) / 2, B), s')
     /\ max_length (config s') = Some ((1 + U) / 2)
     /\ (1 + U) / 2 <= 0
     /\ kv_calls (skipn (List.length (trace s)) (trace s')) = 1%nat)
  /\ (B0 < 1 ->
      exists s',
        _find_valid_batch_size model_cls available original_max_length true s
        = (Done (false, (1 + B0) / 2), s')
        /\ max_batch_size (config s') = Some ((1 + B0) / 2)
        /\ (1 + B0) / 2 <= 0
        /\ kv_calls (skipn (List.length (trace s)) (trace s')) = 1%nat).
Proof.
  intros HU HB. split; intros Hlt.
  - rewrite (_find_valid_max_length_unfold model_cls available upb s U B0 HU HB).
    unfold search_fuel. rewrite find_valid_max_length_loop_step. cbv zeta.
    destruct (Z.gtb_spec 1 U) as [_|]; [|lia].
    eexists _, _. split; [reflexivity|]. cbn [config trace].
    split; [unfold trial_config; destruct upb; reflexivity|].
    split; [Z.div_mod_to_equations; lia|].
    rewrite <- app_assoc, skipn_app, skipn_all, Nat.sub_diag. cbn [skipn app].
    unfold kv_calls. cbn [filter is_CalcKvCache].
    fold (kv_calls (trial_events model_cls available upb ((1 + U) / 2) (config s))).
    now rewrite kv_calls_trial_events.
  - rewrite (_find_valid_batch_size_unfold model_cls available
               original_max_length s B0 HB).
    unfold search_fuel. rewrite find_valid_batch_size_loop_step. cbv zeta.
    destruct (Z.gtb_spec 1 B0) as [_|]; [|lia].
    eexists. split; [reflexivity|]. cbn [config trace].
    split; [reflexivity|].
    split; [Z.div_mod_to_equations; lia|].
    rewrite <- app_assoc, skipn_app, skipn_all, Nat.sub_diag. reflexivity.
Qed.

Lemma searches_below_one_witness :
  (0 < 1 ->
   exists B s',
     _find_valid_max_length (product_model 10) (5 * MiB) true
       (initial_state (example_config (Some 0) (Some 0) 16))
     = (Done (false, (1 + 0) / 2, B), s')
     /\ max_length (config s') = Some ((1 + 0) / 2)
     /\ (1 + 0) / 2 <= 0
     /\ kv_calls (skipn (List.length (@nil Event)) (trace s')) = 1%nat)
  /\ (0 < 1 ->
      exists s',
        _find_valid_batch_size (product_model 10) (5 * MiB) (Some 8) true
          (initial_state (example_config (Some 0) (Some 0) 16))
        = (Done (false, (1 + 0) / 2), s')
        /\ max_batch_size (config s') = Some ((1 + 0) / 2)
        /\ (1 + 0) / 2 <= 0
        /\ kv_calls (skipn (List.length (@nil Event)) (trace s')) = 1%nat).
Proof.
  apply (searches_below_one (product_model 10) (5 * MiB) true (Some 8)
           (initial_state (example_config (Some 0) (Some 0) 16)) 0 0);
    reflexivity.
Defined.

(** ** Edges of the resolver *)

(** X11.  No free memory.  When the devices report a free memory that sums
    to 0, as it does for an empty list of devices, [free_memory_str] is never
    bound, and the resolution cannot succeed: the log record that reads it
    raises [UnboundLocalError] as soon as the sizes have been rendered
    (sizes below [2 ^ 1000] bytes). *)
Theorem no_free_memory_never_resolves model_cls s :
  sum_free_memory (devices (config s)) 0 = inr 0 ->
  (forall s', _estimate_memory_footprint model_cls s <> (Done tt, s'))
  /\ (forall l s2,
         estimate_memory_footprint_sizes model_cls 0 s = (Done l, s2) ->
         Z.abs (model_weights_size l) < 2 ^ 1000 ->
         Z.abs (actual_kv_cache_size l) < 2 ^ 1000 ->
         Z.abs (model_weights_size l + actual_kv_cache_size l) < 2 ^ 1000 ->
         _estimate_memory_footprint model_cls s
         = (Raise (UnboundLocalError "free_memory_str"), s2)).
Proof.
  intros Hsum. split.
  - intros s' Hrun.
    destruct (_estimate_memory_footprint_Done_inv model_cls s 0 s' Hsum Hrun)
      as (l & s2 & Hsizes & Hreport).
    apply estimate_memory_footprint_sizes_free in Hsizes.
    unfold estimate_memory_footprint_report in Hreport.
    cbv [bind get_config] in Hreport.
    destruct (estimate_memory_footprint_logging_str l (config s2)) as [e|info]
      eqn:Hlog; [discriminate|].
    now apply estimate_memory_footprint_logging_str_zero_free in Hlog.
  - intros l s2 Hsizes Hw Hkv Htot.
    rewrite (_estimate_memory_footprint_available model_cls s 0 Hsum).
    rewrite (bind_Done _ _ _ _ _ Hsizes).
    unfold estimate_memory_footprint_report. cbv [bind get_config].
    rewrite estimate_memory_footprint_logging_str_unbound; auto.
    now apply estimate_memory_footprint_sizes_free in Hsizes.
Qed.

Lemma no_free_memory_never_resolves_witness :
  exists s2,
    _estimate_memory_footprint (product_model 10)
      (initial_state (no_device_config (Some 4) (Some 1)))
    = (Raise (UnboundLocalError "free_memory_str"), s2).
Proof.
  eexists.
  apply (proj2 (no_free_memory_never_resolves (product_model 10)
                  (initial_state (no_device_config (Some 4) (Some 1)))
                  eq_refl)
           _ _ eq_refl);
    vm_compute; reflexivity.
Defined.

(** X12.  [_available_cache_memory] is the first estimate.  A resolution
    that succeeds leaves in [pipeline_config._available_cache_memory] the
    cache size measured before any automatic remedy.  When the default
    length did not fit and was truncated, the recorded value is therefore
    not the cache size of the configuration that is returned: that one is
    strictly smaller, and the recorded one, added to the weights, exceeds
    the free memory. *)
Theorem available_cache_memory_is_first_estimate model_cls s free s' :
  sum_free_memory (devices (config s)) 0 = inr free ->
  _estimate_memory_footprint model_cls s = (Done tt, s') ->
  exists available kv0,
    cache_budget model_cls free (config s) = inr available
    /\ kv0 = kv_cache_size_of model_cls
               (initial_config model_cls available (config s)) available
    /\ _available_cache_memory (config s') = Some kv0
    /\ (free < estimate_weights_size model_cls (config s) + kv0 ->
        max_length (config s) = None
        /\ kv_cache_size_of model_cls (config s') available < kv0
        /\ estimate_weights_size model_cls (config s)
           + kv_cache_size_of model_cls (config s') available <= free).
Proof.
  intros Hsum Hrun.
  destruct (_estimate_memory_footprint_Done_inv model_cls s free s' Hsum Hrun)
    as (l & s2 & Hsizes & Hreport).
  apply estimate_memory_footprint_report_Done_inv in Hreport.
  destruct Hreport as (Hle & Hcfg & _).
  destruct (estimate_memory_footprint_sizes_Done_inv model_cls free s l s2 Hsizes)
    as (available & s1 & Hbudget & Hinit & _ & Hc1 & _).
  unfold estimate_memory_footprint_sizes in Hsizes.
  rewrite (bind_Done _ _ _ _ _ Hinit) in Hsizes.
  destruct (initial_config_fields model_cls available (config s))
    as [[U HU] [b Hb]].
  destruct (estimate_memory_footprint_shrink_cases model_cls
              (initial_footprint model_cls free available (config s)) s1 U b)
    as (l' & s2' & evs & Heq & _ & Hacm & _ & Hfree & Hweights & Hav & Hcases).
  { rewrite Hc1. destruct (initial_config model_cls available (config s)).
    exact HU. }
  { rewrite Hc1. destruct (initial_config model_cls available (config s)).
    exact Hb. }
  rewrite Heq in Hsizes. injection Hsizes as <- <-.
  eexists available, _. split; [exact Hbudget|]. split; [reflexivity|].
  rewrite Hcfg, Hacm, Hc1. split; [reflexivity|].
  intros Hbig.
  cbn [initial_footprint free_memory model_weights_size total_size
         available_kv_cache_memory user_provided_max_length] in *.
  destruct Hcases as [(-> & _)|(_ & Hupl & L & _ & _ & _ & _ & Hkv & _ & Htot)].
  - cbn [total_size free_memory initial_footprint] in Hle. lia.
  - split; [destruct (max_length (config s)); [discriminate|reflexivity]|].
    rewrite Hfree, Htot, Hkv in Hle. lia.
Qed.

Lemma available_cache_memory_is_first_estimate_witness :
  exists s' available kv0,
    _estimate_memory_footprint (product_model 10)
      (initial_state (example_config None (Some 2) 16)) = (Done tt, s')
    /\ cache_budget (product_model 10) (16 * MiB)
         (example_config None (Some 2) 16) = inr available
    /\ kv0 = kv_cache_size_of (product_model 10)
               (initial_config (product_model 10) available
                  (example_config None (Some 2) 16)) available
    /\ _available_cache_memory (config s') = Some kv0
    /\ (16 * MiB
        < estimate_weights_size (product_model 10)
            (example_config None (Some 2) 16) + kv0 ->
        max_length (example_config None (Some 2) 16) = None
        /\ kv_cache_size_of (product_model 10) (config s') available < kv0
        /\ estimate_weights_size (product_model 10)
             (example_config None (Some 2) 16)
           + kv_cache_size_of (product_model 10) (config s') available
           <= 16 * MiB).
Proof.
  eexists. 
  assert (H : _estimate_memory_footprint (product_model 10)
                (initial_state (example_config None (Some 2) 16))
              = (Done tt, _)) by (vm_compute; reflexivity).
  destruct (available_cache_memory_is_first_estimate (product_model 10)
              (initial_state (example_config None (Some 2) 16)) (16 * MiB) _
              eq_refl H) as (available & kv0 & H1 & H2 & H3 & H4).
  exists available, kv0. split; [exact H|]. auto.
Defined.

(** X13.  A given value of 0 when the device statistics cannot be read.
    The degraded mode tests the truth value of the two fields, not whether
    they are [None]: a [max_batch_size] of 0 given by the user is replaced by
    1, and a [max_length] of 0 by the ceiling of the model, which is computed
    on the configuration that already holds the batch size 1. *)
Theorem degraded_mode_replaces_zero model_cls s e :
  sum_free_memory (devices (config s)) 0 = inl e ->
  max_batch_size (config s) = Some 0 ->
  max_length (config s) = Some 0 ->
  exists s',
    _estimate_memory_footprint model_cls s = (Done tt, s')
    /\ max_batch_size (config s') = Some 1
    /\ max_length (config s')
       = Some (calculate_max_seq_len model_cls
                 (set_max_batch_size (Some 1) (config s)))
    /\ trace s'
       = trace s ++ [LogWarning (unable_to_estimate_message e);
                     CalcMaxSeqLen (set_max_batch_size (Some 1) (config s))].
Proof.
  intros Hsum Hb Hl.
  rewrite (_estimate_memory_footprint_unavailable model_cls s e Hsum).
  eexists. split; [reflexivity|]. cbn [config trace].
  unfold degraded_config, degraded_events, with_ceiling, with_batch_size_one.
  rewrite Hb, Hl. cbn [truthy Z.eqb negb].
  destruct (config s) as [ml mb u ds ac]. cbn in Hb, Hl. subst ml mb.
  cbn. auto.
Qed.

Lemma degraded_mode_replaces_zero_witness :
  exists s',
    _estimate_memory_footprint (product_model 10)
      (initial_state (unreadable_config (Some 0) (Some 0))) = (Done tt, s')
    /\ max_batch_size (config s') = Some 1
    /\ max_length (config s')
       = Some (calculate_max_seq_len (product_model 10)
                 (set_max_batch_size (Some 1)
                    (unreadable_config (Some 0) (Some 0))))
    /\ trace s'
       = [] ++ [LogWarning (unable_to_estimate_message "no such statistic");
                CalcMaxSeqLen (set_max_batch_size (Some 1)
                                 (unreadable_config (Some 0) (Some 0)))].
Proof.
  apply (degraded_mode_replaces_zero (product_model 10)
           (initial_state (unreadable_config (Some 0) (Some 0)))
           "no such statistic"); reflexivity.
Defined.

(** ** The out-of-memory error *)

(** X14.  [_raise_oom_error] always raises [RuntimeError].  From a
    configuration that holds a length and a batch size it never returns and
    raises no other exception (sizes below [2 ^ 1000] bytes).  When the
    weights alone exceed the free memory it raises at once and runs no
    search; otherwise it runs the length search once and then calls the
    batch-size search once, on a configuration whose batch size has been put
    back to the one at entry. *)
Theorem raise_oom_error_always_raises
    model_cls upl upb total free available weights s U B0 :
  max_length (config s) = Some U ->
  max_batch_size (config s) = Some B0 ->
  Z.abs total < 2 ^ 1000 ->
  Z.abs free < 2 ^ 1000 ->
  exists msg s' evs,
    _raise_oom_error model_cls upl upb total free available weights s
    = (Raise (RuntimeError msg), s')
    /\ trace s' = trace s ++ evs
    /\ (free < weights -> msg = weights_too_large_message /\ s' = s)
    /\ (weights <= free ->
        exists c,
          filter is_search evs
          = [FindValidMaxLength (config s) available;
             FindValidBatchSize c available]
          /\ max_batch_size c = Some B0).
Proof.
  intros HU HB Ht Hf.
  destruct (Z.lt_ge_cases free weights) as [Hlt|Hge].
  - unfold _raise_oom_error.
    destruct (Z.gtb_spec weights free) as [_|]; [|lia].
    exists weights_too_large_message, s, [].
    split; [reflexivity|]. split; [now rewrite app_nil_r|].
    split; [auto|lia].
  - destruct (_raise_oom_error_eq model_cls upl upb total free available
                weights s U B0 Hge HU HB)
      as (fl & L & B & evs1 & fb & b & c2 & evs2 & _ & _ & _ & _ & Hev1 & Hev2
          & Heq).
    destruct (_generate_oom_error_message_ok total free upl upb fl fb L b B
                (Some U) Ht Hf) as [msg Hmsg].
    rewrite Hmsg in Heq. rewrite Heq.
    eexists msg, _, _. split; [reflexivity|]. cbn [trace].
    split; [reflexivity|]. split; [lia|]. intros _.
    eexists. split.
    + cbn [filter is_search]. rewrite filter_app.
      rewrite (filter_cost_calls _ _ cost_call_not_search Hev1).
      cbn [app filter is_search].
      rewrite (filter_cost_calls _ _ cost_call_not_search Hev2). reflexivity.
    + destruct (config s); reflexivity.
Qed.

Lemma raise_oom_error_always_raises_witness :
  exists msg s' evs,
    _raise_oom_error (product_model 10) true true (74 * MiB) (16 * MiB)
      (5 * MiB) (10 * MiB) (initial_state (example_config (Some 8) (Some 8) 16))
    = (Raise (RuntimeError msg), s')
    /\ trace s' = [] ++ evs
    /\ (16 * MiB < 10 * MiB -> msg = weights_too_large_message
        /\ s' = initial_state (example_config (Some 8) (Some 8) 16))
    /\ (10 * MiB <= 16 * MiB ->
        exists c,
          filter is_search evs
          = [FindValidMaxLength (example_config (Some 8) (Some 8) 16) (5 * MiB);
             FindValidBatchSize c (5 * MiB)]
          /\ max_batch_size c = Some 8).
Proof.
  apply (raise_oom_error_always_raises (product_model 10) true true (74 * MiB)
           (16 * MiB) (5 * MiB) (10 * MiB)
           (initial_state (example_config (Some 8) (Some 8) 16)) 8 8);
    try reflexivity; vm_compute; reflexivity.
Defined.

(** X15.  The configuration object after the out-of-memory error.  The
    searches of [_raise_oom_error] write their trial values into the
    configuration object of the caller, and only one of the two fields is put
    back before the error is raised.  With a batch size given by the user the
    length is the one at entry again, but the batch size is the last one the
    batch-size search tried; otherwise the batch size is the one at entry,
    but the length is the last one the length search tried.  For a value of
    more than 1 at entry the last trial is a smaller one. *)
Theorem raise_oom_error_leaves_trial_values
    model_cls upl (upb : bool) total free available weights s U B0 r s' :
  weights <= free ->
  max_length (config s) = Some U ->
  max_batch_size (config s) = Some B0 ->
  _raise_oom_error model_cls upl upb total free available weights s = (r, s') ->
  devices (config s') = devices (config s)
  /\ _available_cache_memory (config s') = _available_cache_memory (config s)
  /\ if upb
     then max_length (config s') = Some U
          /\ exists b, max_batch_size (config s') = Some b
                       /\ (1 <= B0 -> 1 <= b <= B0) /\ (1 < B0 -> b < B0)
     else max_batch_size (config s') = Some B0
          /\ exists L, max_length (config s') = Some L
                       /\ (1 <= U -> 1 <= L <= U) /\ (1 < U -> L < U).
Proof.
  intros Hw HU HB Hrun.
  destruct (_raise_oom_error_eq model_cls upl upb total free available
              weights s U B0 Hw HU HB)
    as (fl & L & B & evs1 & fb & b & c2 & evs2 & _ & Hr1 & Hr2 & Hc & _ & _
        & Heq).
  rewrite Heq in Hrun. injection Hrun as _ <-. cbn [config].
  destruct upb.
  - destruct Hc as (-> & Hb1 & Hb2 & _).
    split; [destruct (config s); reflexivity|].
    split; [destruct (config s); reflexivity|].
    split; [destruct (config s); reflexivity|].
    exists b. split; [destruct (config s); reflexivity|]. auto.
  - destruct Hc as (-> & _).
    split; [destruct (config s); reflexivity|].
    split; [destruct (config s); reflexivity|].
    split; [destruct (config s); reflexivity|].
    exists L. split; [destruct (config s); reflexivity|]. auto.
Qed.

Lemma raise_oom_error_leaves_trial_values_witness :
  exists r s',
    _raise_oom_error (product_model 10) true true (74 * MiB) (16 * MiB)
      (5 * MiB) (10 * MiB) (initial_state (example_config (Some 8) (Some 8) 16))
    = (r, s')
    /\ devices (config s') = devices (example_config (Some 8) (Some 8) 16)
    /\ _available_cache_memory (config s')
       = _available_cache_memory (example_config (Some 8) (Some 8) 16)
    /\ max_length (config s') = Some 8
    /\ exists b, max_batch_size (config s') = Some b
                 /\ (1 <= 8 -> 1 <= b <= 8) /\ (1 < 8 -> b < 8).
Proof.
  eexists _, _. split; [vm_compute; reflexivity|].
  eapply (raise_oom_error_leaves_trial_values (product_model 10) true true
            (74 * MiB) (16 * MiB) (5 * MiB) (10 * MiB)
            (initial_state (example_config (Some 8) (Some 8) 16)) 8 8);
    [vm_compute; discriminate|reflexivity|reflexivity|vm_compute; reflexivity].
Defined.

(** ** The cache budget *)

(** X16.  The cache budget stays within the memory that the weights leave.
    For a [device_memory_utilization] from 0 to 1 and less than [2 ^ 53]
    bytes left, the float product [int(max(0, free - weights) * utilization)]
    neither overflows nor rounds beyond its integer factor: the first part of
    [_estimate_memory_footprint] returns, and the budget it hands to the cost
    functions is not negative and not above [max(0, free - weights)]. *)
Theorem cache_budget_within_free_memory model_cls free s :
  float_in_unit_interval (device_memory_utilization (config s)) ->
  free - estimate_weights_size model_cls (config s) < 2 ^ 53 ->
  exists l s1,
    estimate_memory_footprint_initial model_cls free s = (Done l, s1)
    /\ model_weights_size l = estimate_weights_size model_cls (config s)
    /\ 0 <= available_kv_cache_memory l
         <= Z.max 0 (free - model_weights_size l).
Proof.
  intros Hu Hlt.
  destruct (cache_budget_bounds model_cls free (config s) Hu Hlt)
    as (available & Hbudget & Hb).
  rewrite estimate_memory_footprint_initial_eq, Hbudget.
  eexists _, _. split; [reflexivity|].
  cbn [initial_footprint model_weights_size available_kv_cache_memory
         actual_kv_cache_size config].
  split; [reflexivity|exact Hb].
Qed.

Lemma cache_budget_within_free_memory_witness :
  exists l s1,
    estimate_memory_footprint_initial (product_model 10) (16 * MiB)
      (initial_state (example_config None None 16)) = (Done l, s1)
    /\ model_weights_size l
       = estimate_weights_size (product_model 10) (example_config None None 16)
    /\ 0 <= available_kv_cache_memory l
         <= Z.max 0 (16 * MiB - model_weights_size l).
Proof.
  apply (cache_budget_within_free_memory (product_model 10) (16 * MiB)
           (initial_state (example_config None None 16))).
  - vm_compute. split; discriminate.
  - vm_compute. reflexivity.
Defined.

(** X17.  A truncated length always fits.  When the weights fit the free
    memory and the utilization is from 0 to 1, the warning about the
    truncated length is only ever logged for a length with which the
    resolution then succeeds: the new total is within the free memory and no
    error is raised (free memory below [2 ^ 53] bytes, the new cache size not
    negative). *)
Theorem truncated_length_always_fits model_cls s free l s2 evs :
  sum_free_memory (devices (config s)) 0 = inr free ->
  0 < free < 2 ^ 53 ->
  0 <= estimate_weights_size model_cls (config s) <= free ->
  float_in_unit_interval (device_memory_utilization (config s)) ->
  estimate_memory_footprint_sizes model_cls free s = (Done l, s2) ->
  0 <= actual_kv_cache_size l ->
  trace s2 = trace s ++ evs ->
  existsb is_LogWarning evs = true ->
  total_size l <= free
  /\ exists s',
      _estimate_memory_footprint model_cls s = (Done tt, s')
      /\ config s' = config s2.
Proof.
  intros Hsum Hfree Hw Hu Hsizes Hkv0 Htr Hwarn.
  destruct (estimate_memory_footprint_sizes_Done_inv model_cls free s l s2 Hsizes)
    as (available & s1 & Hbudget & Hinit & Htr1 & Hc1 & _).
  destruct (cache_budget_bounds model_cls free (config s) Hu ltac:(lia))
    as (a & Hbudget' & Ha).
  rewrite Hbudget in Hbudget'. injection Hbudget' as <-.
  pose proof Hsizes as Hsizes'.
  unfold estimate_memory_footprint_sizes in Hsizes'.
  rewrite (bind_Done _ _ _ _ _ Hinit) in Hsizes'.
  destruct (initial_config_fields model_cls available (config s))
    as [[U HU] [b Hb]].
  destruct (estimate_memory_footprint_shrink_cases model_cls
              (initial_footprint model_cls free available (config s)) s1 U b)
    as (l' & s2' & evs' & Heq & Htr2 & _ & _ & Hfree' & Hweights & Hav & Hcases).
  { rewrite Hc1. destruct (initial_config model_cls available (config s)).
    exact HU. }
  { rewrite Hc1. destruct (initial_config model_cls available (config s)).
    exact Hb. }
  rewrite Heq in Hsizes'. injection Hsizes' as <- <-.
  rewrite Htr2, Htr1, <- app_assoc in Htr. apply app_inv_head in Htr. subst evs.
  rewrite existsb_app, initial_events_no_warning in Hwarn. cbn [orb] in Hwarn.
  cbn [initial_footprint free_memory model_weights_size total_size
         available_kv_cache_memory] in *.
  destruct Hcases as [(_ & Hno & _)|(_ & _ & L & _ & _ & _ & _ & Hkv' & Hfit & Htot)];
    [congruence|].
  assert (Hle : total_size l' <= free) by lia.
  split; [exact Hle|].
  assert (H53 : 2 ^ 53 < 2 ^ 1000) by (apply Z.pow_lt_mono_r; lia).
  destruct (estimate_memory_footprint_logging_str_ok l' (config s2'))
    as [info Hinfo]; rewrite ?Hfree', ?Hweights; try lia.
  rewrite (_estimate_memory_footprint_available model_cls s free Hsum).
  rewrite (bind_Done _ _ _ _ _ Hsizes).
  rewrite (estimate_memory_footprint_report_within model_cls l' s2' info Hinfo)
    by (rewrite Hfree'; exact Hle).
  unfold exceeds_vram_usage_limit. rewrite Hfree'.
  destruct (float_of_int_ok free ltac:(lia)) as (f & -> & _). cbn [bind_exn].
  eexists. split; reflexivity.
Qed.

Lemma truncated_length_always_fits_witness :
  exists l s2 evs,
    estimate_memory_footprint_sizes (product_model 10) (16 * MiB)
      (initial_state (example_config None (Some 2) 16)) = (Done l, s2)
    /\ trace s2 = [] ++ evs
    /\ total_size l <= 16 * MiB
    /\ exists s',
        _estimate_memory_footprint (product_model 10)
          (initial_state (example_config None (Some 2) 16)) = (Done tt, s')
        /\ config s' = config s2.
Proof.
  eexists _, _, _. split; [vm_compute; reflexivity|]. split; [reflexivity|].
  eapply (truncated_length_always_fits (product_model 10)
            (initial_state (example_config None (Some 2) 16)) (16 * MiB)).
  - reflexivity.
  - vm_compute. split; reflexivity.
  - vm_compute. split; discriminate.
  - vm_compute. split; discriminate.
  - vm_compute. reflexivity.
  - vm_compute. discriminate.
  - reflexivity.
  - reflexivity.
Defined.

(** ** The rendering in MiB *)

(** X18.  [_to_mib] rounds to the nearest MiB, ties to even.  For a byte
    count below [2 ^ 53] the two float divisions are exact, so the result is
    an integer at most half a MiB away from the byte count, and the even one
    of the two when the byte count is exactly halfway (1.5 MiB and 2.5 MiB
    are both rendered as 2). *)
Theorem to_mib_rounds_half_to_even bytes :
  0 <= bytes < 2 ^ 53 ->
  exists m,
    _to_mib bytes = inr m
    /\ 2 * Z.abs (bytes - m * MiB) <= MiB
    /\ (2 * Z.abs (bytes - m * MiB) = MiB -> Z.even m = true).
Proof.
  intros Hb. exists (round_half_even bytes (-20)).
  split; [now apply _to_mib_exact|]. apply round_half_even_nearest.
Qed.

Lemma to_mib_rounds_half_to_even_witness :
  exists m,
    _to_mib (5 * MiB / 2) = inr m
    /\ 2 * Z.abs (5 * MiB / 2 - m * MiB) <= MiB
    /\ (2 * Z.abs (5 * MiB / 2 - m * MiB) = MiB -> Z.even m = true).
Proof.
  apply (to_mib_rounds_half_to_even (5 * MiB / 2)).
  vm_compute. split; [discriminate|reflexivity].
Defined.

(** ** The validation of a configuration *)



(** X20.  What a validated configuration of the MAX engine holds.  Provided
    the calls into other modules return, when [validate_pipeline_config]
    returns with the MAX engine the architecture is registered, the list of
    weight files is not empty and each file exists locally or in the
    HuggingFace repository, the rope type is set, the cache strategy is one
    of those the architecture lists for the encoding (if it lists any), and
    the memory settings are those that a memory estimation which returned
    has left. *)
Theorem validate_pipeline_config_max_return
    world architectures v v' :
  validate_pipeline_config world architectures v = (inr tt, v') ->
  engine (attributes (pipeline_config v')) = Some MAX ->
  let c0 := update_architecture world (pipeline_config v) in
  exists arch,
    architecture_details architectures c0 = Some arch
    /\ weight_path (attributes (pipeline_config v')) <> []
    /\ weight_paths_exist world (huggingface_weights_repo world c0)
         (pipeline_config v')
    /\ rope_type (attributes (pipeline_config v')) <> None
    /\ cache_strategy_supported arch (pipeline_config v')
    /\ exists c s',
        attributes (pipeline_config v') = attributes (set_engine (Some MAX) c)
        /\ _estimate_memory_footprint
             (Arch.pipeline_model arch (attributes c))
             {| config := estimated c; trace := [] |} = (Done tt, s')
        /\ estimated (pipeline_config v') = config s'.
Proof.
  intros Hrun Hmax c0.
  destruct (validate_pipeline_config_inv world architectures v _ _ Hrun)
    as (logs & Hlogs & [(_ & [[msg H]|[H _]])|[H|H]]); try discriminate.
  - destruct H as (_ & _ & _ & Heng & _). congruence.
  - destruct H as (arch & qe & c & outcome & s' & Harch & _ & _ & Hwp & Hex
                   & Hrope & Hcs & Hest & _ & [(-> & _ & Hcfg)|(e & _ & H & _)]);
      [|discriminate].
    exists arch. split; [exact Harch|].
    fold c0 in Hex. rewrite Hcfg.
    unfold weight_paths_exist, cache_strategy_supported in *.
    split; [destruct c as [? []]; exact Hwp|].
    split; [destruct c as [? []]; exact Hex|].
    split; [destruct c as [? []]; exact Hrope|].
    split; [destruct c as [? []]; exact Hcs|].
    exists c, s'. split; [reflexivity|]. split; [exact Hest|reflexivity].
Qed.

Lemma validate_pipeline_config_max_return_witness :
  exists v',
    validate_pipeline_config example_world
      [("LlamaForCausalLM", example_arch "LlamaForCausalLM" 10)]
      (validating (asking_for (Some "LlamaForCausalLM") None))
    = (inr tt, v')
    /\ exists arch,
        architecture_details
          [("LlamaForCausalLM", example_arch "LlamaForCausalLM" 10)]
          (asking_for (Some "LlamaForCausalLM") None) = Some arch
        /\ weight_path (attributes (pipeline_config v')) <> []
        /\ weight_paths_exist example_world example_repo (pipeline_config v')
        /\ rope_type (attributes (pipeline_config v')) <> None
        /\ cache_strategy_supported arch (pipeline_config v')
        /\ exists c s',
            attributes (pipeline_config v')
            = attributes (set_engine (Some MAX) c)
            /\ _estimate_memory_footprint
                 (Arch.pipeline_model arch (attributes c))
                 {| config := estimated c; trace := [] |} = (Done tt, s')
            /\ estimated (pipeline_config v') = config s'.
Proof.
  eexists. split; [vm_compute; reflexivity|].
  eapply (validate_pipeline_config_max_return example_world
            [("LlamaForCausalLM", example_arch "LlamaForCausalLM" 10)]
            (validating (asking_for (Some "LlamaForCausalLM") None)));
    vm_compute; reflexivity.
Defined.

(** X21.  The errors of the validation.  Provided the calls into other
    modules return, [validate_pipeline_config] raises nothing but a
    [ValueError], an [IndexError] (only when the configuration has no
    device) or what the memory estimation raises: the [assert] on the weight
    files never fails and no method is called on an encoding that is [None].
    The memory estimation is the last thing that can fail: an error that
    does not come from it is raised before any estimation event. *)
Theorem validate_pipeline_config_errors
    world architectures v e v' :
  validate_pipeline_config world architectures v = (inl e, v') ->
  let c0 := update_architecture world (pipeline_config v) in
  ((exists msg, e = ValueError_ msg)
   \/ (e = IndexError_ /\ devices (estimated c0) = [])
   \/ exists x, e = EstimationError x)
  /\ ((forall x, e <> EstimationError x) ->
      exists logs,
        records v' = records v ++ logs /\ forallb is_log logs = true).
Proof.
  intros Hrun c0.
  destruct (validate_pipeline_config_inv world architectures v _ _ Hrun)
    as (logs & Hlogs & [(Hrec & Hr)|[H|H]]).
  - split; [|eauto].
    destruct Hr as [[msg [= ->]]|[[= ->] Hdev]]; eauto.
  - destruct H as (_ & H & _). discriminate.
  - destruct H as (arch & qe & c & outcome & s' & _ & _ & _ & _ & _ & _ & _
                   & _ & _ & [(_ & H & _)|(x & _ & [= ->] & _)]);
      [discriminate|].
    split; [eauto|]. intros H. now destruct (H x).
Qed.

Lemma validate_pipeline_config_errors_witness :
  exists e v',
    validate_pipeline_config example_world
      [("LlamaForCausalLM", example_arch "LlamaForCausalLM" 10)]
      (validating (asking_for (Some "MistralForCausalLM") (Some MAX)))
    = (inl e, v')
    /\ ((exists msg, e = ValueError_ msg)
        \/ (e = IndexError_
            /\ devices (estimated
                          (asking_for (Some "MistralForCausalLM") (Some MAX)))
               = [])
        \/ exists x, e = EstimationError x)
    /\ ((forall x, e <> EstimationError x) ->
        exists logs, records v' = [] ++ logs /\ forallb is_log logs = true).
Proof.
  eexists _, _. split; [vm_compute; reflexivity|].
  eapply (validate_pipeline_config_errors example_world
            [("LlamaForCausalLM", example_arch "LlamaForCausalLM" 10)]
            (validating (asking_for (Some "MistralForCausalLM") (Some MAX)))).
  vm_compute. reflexivity.
Defined.
